(** * imgpkg: materialising an OCI image into a directory

    A shallow embedding of [pkg/imgpkg/image/dir_image.go] (type [DirImage]:
    [AsDirectory], [writeLayer], [inWhiteoutDir], [extractTarEntry],
    [lchtimes], [hydrateFilepath]) together with the parts of the Go standard
    library the file calls ([strings], [path/filepath] for Unix, [archive/tar]
    headers, and the file-system calls of [os]), and of [ConfigureUI] of
    [cmd/ui_flags.go]; followed by the properties the specification states
    about the extractor, and by further properties of the code. *)

From Stdlib Require Import ZArith Ascii String Lia.
From stdpp Require Import base gmap list strings.

Open Scope Z_scope.

(** ** Go's [strings] package (the functions the extractor calls)

    Go strings are byte strings; every separator the extractor passes is one
    byte long, so separators are of type [ascii]. *)

Module GoStrings.

Definition HasPrefix (s pre : string) : bool := String.prefix pre s.

Fixpoint drop_bytes (n : nat) (s : string) : string :=
  match n, s with
  | O, _ => s
  | S _, EmptyString => EmptyString
  | S n', String _ s' => drop_bytes n' s'
  end.

Definition TrimPrefix (s pre : string) : string :=
  if HasPrefix s pre then drop_bytes (String.length pre) s else s.

Fixpoint Contains (s : string) (sep : ascii) : bool :=
  match s with
  | EmptyString => false
  | String a s' => if Ascii.eqb a sep then true else Contains s' sep
  end.

(** [strings.Split]: all the substrings between separators; never empty
    (the empty string splits into one empty substring). *)
Fixpoint Split (s : string) (sep : ascii) : list string :=
  match s with
  | EmptyString => [EmptyString]
  | String a s' =>
      if Ascii.eqb a sep then EmptyString :: Split s' sep
      else match Split s' sep with
           | x :: r => String a x :: r
           | [] => [String a EmptyString]
           end
  end.

Fixpoint Join (elems : list string) (sep : ascii) : string :=
  match elems with
  | [] => EmptyString
  | [e] => e
  | e :: rest => e +:+ String sep (Join rest sep)
  end.

End GoStrings.

(** ** Go's [path/filepath] package on Unix *)

Module Filepath.

Definition Separator : ascii := "/"%char.

Definition rooted (s : string) : bool :=
  match s with
  | String a _ => Ascii.eqb a Separator
  | EmptyString => false
  end.

(** The lexical processing of [Clean] on the elements of a path: empty
    elements and [.] are dropped, [..] removes the element before it, a
    [..] that has nothing to remove is dropped in a rooted path and kept
    in a relative one. The stack holds the output, last element first. *)
Fixpoint clean_stack (isroot : bool) (stk : list string) (elems : list string)
  : list string :=
  match elems with
  | [] => stk
  | e :: rest =>
      if String.eqb e "" || String.eqb e "." then clean_stack isroot stk rest
      else if String.eqb e ".." then
        match stk with
        | top :: stk' =>
            if String.eqb top ".." then clean_stack isroot (e :: stk) rest
            else clean_stack isroot stk' rest
        | [] =>
            if isroot then clean_stack isroot [] rest
            else clean_stack isroot [e] rest
        end
      else clean_stack isroot (e :: stk) rest
  end.

Definition clean_elems (isroot : bool) (elems : list string) : list string :=
  rev (clean_stack isroot [] elems).

(** The string of a cleaned path: [/a/b] or [/] when rooted, [a/b] or [.]
    otherwise. *)
Definition render (isroot : bool) (out : list string) : string :=
  if isroot then String Separator (GoStrings.Join out Separator)
  else match out with
       | [] => "."
       | _ => GoStrings.Join out Separator
       end.

Definition Clean (path : string) : string :=
  match path with
  | EmptyString => "."
  | _ => render (rooted path)
           (clean_elems (rooted path) (GoStrings.Split path Separator))
  end.

(** [Join] ignores leading empty elements, joins the rest with the
    separator and cleans the result; with nothing to join it returns the
    empty string. *)
Fixpoint Join (elem : list string) : string :=
  match elem with
  | [] => EmptyString
  | e :: rest =>
      if String.eqb e "" then Join rest
      else Clean (GoStrings.Join elem Separator)
  end.

(** [path[:i+1]] for [i] the index of the last separator ([-1] if none). *)
Fixpoint upto_last_sep (path : string) : string :=
  match path with
  | EmptyString => EmptyString
  | String a s' =>
      if GoStrings.Contains s' Separator then String a (upto_last_sep s')
      else if Ascii.eqb a Separator then String a EmptyString
      else EmptyString
  end.

Definition Dir (path : string) : string := Clean (upto_last_sep path).

Fixpoint strip_trailing_seps (path : string) : string :=
  match path with
  | EmptyString => EmptyString
  | String a s' =>
      match strip_trailing_seps s' with
      | EmptyString => if Ascii.eqb a Separator then EmptyString
                       else String a EmptyString
      | r => String a r
      end
  end.

(** [path[i+1:]] for [i] the index of the last separator. *)
Fixpoint after_last_sep (path : string) : string :=
  match path with
  | EmptyString => EmptyString
  | String a s' =>
      if GoStrings.Contains s' Separator then after_last_sep s'
      else if Ascii.eqb a Separator then s'
      else path
  end.

Definition Base (path : string) : string :=
  match path with
  | EmptyString => "."
  | _ => match after_last_sep (strip_trailing_seps path) with
         | EmptyString => String Separator EmptyString
         | b => b
         end
  end.

End Filepath.

(** ** [archive/tar] headers *)

Module Tar.

(** Type flags are bytes. *)
Definition TypeReg : ascii := "0"%char.
Definition TypeRegA : ascii := Ascii.zero.
Definition TypeLink : ascii := "1"%char.
Definition TypeSymlink : ascii := "2"%char.
Definition TypeChar : ascii := "3"%char.
Definition TypeBlock : ascii := "4"%char.
Definition TypeDir : ascii := "5"%char.
Definition TypeFifo : ascii := "6"%char.

Record Header := {
  Typeflag : ascii;
  Name : string;
  Linkname : string;
  Mode : Z;          (* int64: permission and mode bits *)
  Uid : Z;
  Gid : Z;
  ModTime : Z;       (* instants, as nanoseconds *)
  AccessTime : Z
}.

(** A three-digit octal literal. *)
Definition octal (a b c : Z) : Z := a * 64 + b * 8 + c.

(** Bits of [os.FileMode] (a uint32). *)
Definition ModeDir : Z := Z.shiftl 1 31.
Definition ModeSymlink : Z := Z.shiftl 1 27.
Definition ModeDevice : Z := Z.shiftl 1 26.
Definition ModeNamedPipe : Z := Z.shiftl 1 25.
Definition ModeSocket : Z := Z.shiftl 1 24.
Definition ModeSetuid : Z := Z.shiftl 1 23.
Definition ModeSetgid : Z := Z.shiftl 1 22.
Definition ModeCharDevice : Z := Z.shiftl 1 21.
Definition ModeSticky : Z := Z.shiftl 1 20.
Definition ModePerm : Z := octal 7 7 7.

(** Mode bits of the tar format. *)
Definition c_ISUID : Z := 4 * 512.
Definition c_ISGID : Z := 2 * 512.
Definition c_ISVTX : Z := 1 * 512.
Definition c_ISDIR : Z := 4 * 4096.
Definition c_ISFIFO : Z := 1 * 4096.
Definition c_ISREG : Z := 8 * 4096.
Definition c_ISLNK : Z := 10 * 4096.
Definition c_ISBLK : Z := 6 * 4096.
Definition c_ISCHR : Z := 2 * 4096.
Definition c_ISSOCK : Z := 12 * 4096.

Definition flag_if (b : bool) (bits : Z) : Z := if b then bits else 0.

(** [header.FileInfo().Mode()]: the permission bits of the stored mode,
    the setuid, setgid and sticky bits, and the file type taken from the
    stored mode and from the type flag. *)
Definition FileInfo_Mode (h : Header) : Z :=
  let stored := Mode h mod 2 ^ 32 in
  let perm := Z.land stored ModePerm in
  let special :=
    Z.lor (flag_if (negb (Z.land (Mode h) c_ISUID =? 0)) ModeSetuid)
      (Z.lor (flag_if (negb (Z.land (Mode h) c_ISGID =? 0)) ModeSetgid)
             (flag_if (negb (Z.land (Mode h) c_ISVTX =? 0)) ModeSticky)) in
  let m := Z.land stored (Z.lnot (7 * 512 + ModePerm)) in
  let from_mode :=
    if m =? c_ISDIR then ModeDir
    else if m =? c_ISFIFO then ModeNamedPipe
    else if m =? c_ISLNK then ModeSymlink
    else if m =? c_ISBLK then ModeDevice
    else if m =? c_ISCHR then Z.lor ModeDevice ModeCharDevice
    else if m =? c_ISSOCK then ModeSocket
    else 0 in
  let t := Typeflag h in
  let from_flag :=
    if Ascii.eqb t TypeSymlink then ModeSymlink
    else if Ascii.eqb t TypeChar then Z.lor ModeDevice ModeCharDevice
    else if Ascii.eqb t TypeBlock then ModeDevice
    else if Ascii.eqb t TypeDir then ModeDir
    else if Ascii.eqb t TypeFifo then ModeNamedPipe
    else 0 in
  Z.lor (Z.lor (Z.lor perm special) from_mode) from_flag.

End Tar.

(** ** Errors *)

Inductive errno := ENOENT | ENOTDIR | EISDIR | EBUSY | EINVAL.

Inductive error :=
  | PathError (op path : string) (e : errno)      (* *os.PathError *)
  | Errorf (msg : string)                         (* fmt.Errorf *)
  | SourceError (msg : string).                   (* image source, tar reader *)

Definition errno_string (e : errno) : string :=
  match e with
  | ENOENT => "no such file or directory"
  | ENOTDIR => "not a directory"
  | EISDIR => "is a directory"
  | EBUSY => "device or resource busy"
  | EINVAL => "invalid argument"
  end.

(** [err.Error()] *)
Definition error_string (e : error) : string :=
  match e with
  | PathError op path e => op +:+ " " +:+ path +:+ ": " +:+ errno_string e
  | Errorf msg => msg
  | SourceError msg => msg
  end.

(** ** The host: a file system and the process that runs the extractor

    Paths of the file system are lists of names from the root directory.
    A node carries its attributes; [pinned] marks a node the kernel refuses
    to remove (a mount point, an immutable file). The model has no
    permission checks and no symbolic links: the extractor never creates a
    link, and a path string is resolved lexically, which is what the kernel
    does when no element is a link. The mode of a node is the mode its
    creator asked for; the kernel clears the bits of the process umask on
    top of it. *)

Abbreviation path := (list string).

Record attrs := {
  a_perm : Z;
  a_uid : Z;
  a_gid : Z;
  a_atime : Z;
  a_mtime : Z;
  a_pinned : bool
}.

Inductive node :=
  | Directory (a : attrs)
  | Regular (a : attrs) (data : string).

Definition node_attrs (n : node) : attrs :=
  match n with Directory a => a | Regular a _ => a end.

Definition set_attrs (n : node) (a : attrs) : node :=
  match n with Directory _ => Directory a | Regular _ d => Regular a d end.

(** [fi.IsDir()] *)
Definition IsDir (n : node) : bool :=
  match n with Directory _ => true | Regular _ _ => false end.

Record host := {
  nodes : gmap path node;   (* every node but the root directory *)
  cwd : path;               (* working directory of the process *)
  euid : Z;
  egid : Z;
  now : Z                   (* the clock, read when a node is created *)
}.

Definition with_nodes (h : host) (m : gmap path node) : host :=
  {| nodes := m; cwd := cwd h; euid := euid h; egid := egid h; now := now h |}.

Module Os.

(** The root directory always exists and cannot be removed. *)
Definition root_node : node :=
  Directory {| a_perm := Tar.octal 7 5 5; a_uid := 0; a_gid := 0;
               a_atime := 0; a_mtime := 0; a_pinned := true |}.

Definition node_at (m : gmap path node) (p : path) : option node :=
  match p with
  | [] => Some root_node
  | _ => m !! p
  end.

(** Lexical resolution of a path string; the empty string names nothing. *)
Definition resolve (h : host) (s : string) : option path :=
  match s with
  | EmptyString => None
  | _ => Some (Filepath.clean_elems true
                 ((if Filepath.rooted s then [] else cwd h)
                    ++ GoStrings.Split s Filepath.Separator)%list)
  end.

Inductive status :=
  | Found (n : node)
  | Missing (e : errno).

(** Walk from [above] down the names [todo]: every directory on the way
    must exist. *)
Fixpoint walk (m : gmap path node) (above todo : path) : status :=
  match todo with
  | [] => match node_at m above with
          | Some n => Found n
          | None => Missing ENOENT
          end
  | c :: todo' =>
      match node_at m above with
      | Some (Directory _) => walk m (above ++ [c])%list todo'
      | Some (Regular _ _) => Missing ENOTDIR
      | None => Missing ENOENT
      end
  end.

Definition stat (h : host) (p : path) : status := walk (nodes h) [] p.

(** [os.Lstat] *)
Definition Lstat (name : string) (h : host) : node + error :=
  match resolve h name with
  | None => inr (PathError "lstat" name ENOENT)
  | Some p =>
      match stat h p with
      | Found n => inl n
      | Missing e => inr (PathError "lstat" name e)
      end
  end.

Definition is_prefix (p q : path) : bool := bool_decide (p `prefix_of` q).

(** Some pinned node lies at or below [q]. *)
Definition blocked (m : gmap path node) (q : path) : bool :=
  match q with
  | [] => true
  | _ => existsb (fun kv => is_prefix q kv.1 && a_pinned (node_attrs kv.2))
           (map_to_list m)
  end.

(** The last two bytes are a separator and a dot. *)
Fixpoint ends_sep_dot (s : string) : bool :=
  match s with
  | EmptyString => false
  | String a s' =>
      match s' with
      | String b EmptyString => Ascii.eqb a Filepath.Separator && Ascii.eqb b "."%char
      | _ => ends_sep_dot s'
      end
  end.

Definition endsWithDot (s : string) : bool :=
  String.eqb s "." || ends_sep_dot s.

(** What is left when the tree at [p] is removed: the nodes elsewhere, and
    below [p] the pinned nodes and the directories above them. *)
Definition remove_tree (m : gmap path node) (p : path) : gmap path node :=
  filter (fun kv => is_prefix p kv.1 = true -> blocked m kv.1 = true) m.

(** [os.RemoveAll]: removes the path and everything below it; removing a
    path that does not exist is not an error. It removes all it can and
    reports the first failure: pinned nodes, and the directories above
    them, stay. *)
Definition RemoveAll (name : string) (h : host) : option error * host :=
  match resolve h name with
  | None => (None, h)
  | Some p =>
      if endsWithDot name then (Some (PathError "RemoveAll" name EINVAL), h)
      else
        match stat h p with
        | Missing ENOENT => (None, h)
        | Missing e => (Some (PathError "unlinkat" name e), h)
        | Found _ =>
            (if blocked (nodes h) p then Some (PathError "unlinkat" name EBUSY)
             else None,
             with_nodes h (remove_tree (nodes h) p))
        end
  end.

Definition fresh_attrs (h : host) (perm : Z) : attrs :=
  {| a_perm := perm; a_uid := euid h; a_gid := egid h;
     a_atime := now h; a_mtime := now h; a_pinned := false |}.

Fixpoint mkdir_walk (a : attrs) (m : gmap path node) (above todo : path)
  : option errno * gmap path node :=
  match todo with
  | [] => (None, m)
  | c :: todo' =>
      let q := (above ++ [c])%list in
      match m !! q with
      | Some (Directory _) => mkdir_walk a m q todo'
      | Some (Regular _ _) => (Some ENOTDIR, m)
      | None => mkdir_walk a (<[q := Directory a]> m) q todo'
      end
  end.

(** [os.MkdirAll]: creates the directory and the missing directories
    above it; fails when a regular file is in the way. *)
Definition MkdirAll (name : string) (perm : Z) (h : host) : option error * host :=
  match resolve h name with
  | None => (Some (PathError "mkdir" name ENOENT), h)
  | Some p =>
      match mkdir_walk (fresh_attrs h perm) (nodes h) [] p with
      | (Some e, m) => (Some (PathError "mkdir" name e), with_nodes h m)
      | (None, m) => (None, with_nodes h m)
      end
  end.

Definition parent (p : path) : path := removelast p.

(** [os.OpenFile(name, O_RDWR|O_CREATE|O_TRUNC, perm)]: an existing file
    is emptied and keeps its attributes but the modification time, a
    missing one is created with [perm]. The open file is its path. *)
Definition OpenFile (name : string) (perm : Z) (h : host) : (path + error) * host :=
  match resolve h name with
  | None => (inr (PathError "open" name ENOENT), h)
  | Some p =>
      match stat h (parent p) with
      | Missing e => (inr (PathError "open" name e), h)
      | Found (Regular _ _) => (inr (PathError "open" name ENOTDIR), h)
      | Found (Directory _) =>
          match node_at (nodes h) p with
          | Some (Directory _) => (inr (PathError "open" name EISDIR), h)
          | Some (Regular a _) =>
              let a' := {| a_perm := a_perm a; a_uid := a_uid a; a_gid := a_gid a;
                           a_atime := a_atime a; a_mtime := now h;
                           a_pinned := a_pinned a |} in
              (inl p, with_nodes h (<[p := Regular a' ""]> (nodes h)))
          | None =>
              (inl p, with_nodes h (<[p := Regular (fresh_attrs h perm) ""]> (nodes h)))
          end
      end
  end.

(** [io.Copy(file, input)] then the end of the input: the bytes read are
    written, then the error of the input, if any, is returned. *)
Definition Copy (file : path) (data : string) (input_err : option error) (h : host)
  : option error * host :=
  (input_err,
   with_nodes h (alter (fun n => match n with
                                 | Regular a _ => Regular a data
                                 | Directory a => Directory a
                                 end) file (nodes h))).

Definition update_attrs (op name : string) (f : attrs -> attrs) (h : host)
  : option error * host :=
  match resolve h name with
  | None => (Some (PathError op name ENOENT), h)
  | Some p =>
      match stat h p with
      | Missing e => (Some (PathError op name e), h)
      | Found _ =>
          (None, with_nodes h (alter (fun n => set_attrs n (f (node_attrs n))) p (nodes h)))
      end
  end.

(** [os.Lchown] *)
Definition Lchown (name : string) (uid gid : Z) (h : host) : option error * host :=
  update_attrs "lchown" name
    (fun a => {| a_perm := a_perm a; a_uid := uid; a_gid := gid;
                 a_atime := a_atime a; a_mtime := a_mtime a;
                 a_pinned := a_pinned a |}) h.

(** [os.Chtimes] *)
Definition Chtimes (name : string) (atime mtime : Z) (h : host) : option error * host :=
  update_attrs "chtimes" name
    (fun a => {| a_perm := a_perm a; a_uid := a_uid a; a_gid := a_gid a;
                 a_atime := atime; a_mtime := mtime;
                 a_pinned := a_pinned a |}) h.

End Os.

(** ** The image source and the extractor ([dir_image.go]) *)

(** A layer's uncompressed stream as [tar.Reader.Next] delivers it: headers
    with the bytes of their entry (and the error reading them ends with, if
    any), then the end of the archive or a read error. *)
Inductive tarStream :=
  | tsEOF
  | tsErr (e : error)
  | tsNext (hdr : Tar.Header) (data : string) (data_err : option error)
           (rest : tarStream).

(** [regv1.Layer] and [regv1.Image], as far as the extractor uses them. *)
Record Layer := {
  Digest : string + error;
  Uncompressed : tarStream + error
}.

Record Image := {
  Layers : list Layer + error   (* oldest layer first *)
}.

Record DirImage := {
  dirPath : string;
  img : Image;
  shouldChown : bool
}.

(** What the logger receives: digest, position and number of layers of
    [Extracting layer '%s' (%d/%d)]. *)
Abbreviation logged := (string * nat * nat)%type.

Definition GOOS : string := "linux".

Definition NewDirImage (dirPath : string) (img : Image) (h : host) : DirImage :=
  {| dirPath := dirPath; img := img; shouldChown := (euid h =? 0) |}.

Definition whiteoutPrefix : string := ".wh.".

Definition hydrateFilepath (i : DirImage) (fPath : string) : string :=
  let lPath :=
    if GoStrings.Contains fPath "\"%char
    then Filepath.Join (GoStrings.Split fPath "\"%char)
    else Filepath.Join (GoStrings.Split fPath "/"%char) in
  Filepath.Join [dirPath i; lPath].

(** The loop of [inWhiteoutDir], at most [fuel] iterations. *)
Fixpoint inWhiteoutDir_loop (fuel : nat) (fileMap : gmap string bool) (file : string)
  : option bool :=
  match fuel with
  | O => None
  | S fuel' =>
      if String.eqb file "" then Some false
      else
        let dirname := Filepath.Dir file in
        if String.eqb file dirname then Some false
        else match fileMap !! dirname with
             | Some true => Some true
             | _ => inWhiteoutDir_loop fuel' fileMap dirname
             end
  end.

Definition inWhiteoutDir_fuel (file : string) : nat :=
  (2 * String.length file + 2)%nat.

Definition inWhiteoutDir (fileMap : gmap string bool) (file : string) : bool :=
  match inWhiteoutDir_loop (inWhiteoutDir_fuel file) fileMap file with
  | Some b => b
  | None => false
  end.

Definition lchtimes (header : Tar.Header) (path : string) (h : host)
  : option error * host :=
  let aTime := Tar.AccessTime header in
  let mTime := Tar.ModTime header in
  let aTime := if aTime <? mTime then mTime else aTime in
  if Ascii.eqb (Tar.Typeflag header) Tar.TypeLink then
    match Os.Lstat (Tar.Linkname header) h with
    | inl _ => Os.Chtimes path aTime mTime h   (* no node is a symbolic link *)
    | inr _ => (None, h)
    end
  else if negb (Ascii.eqb (Tar.Typeflag header) Tar.TypeSymlink) then
    Os.Chtimes path aTime mTime h
  else (None, h).

(** The mode a created file is given: the owner bits copied to group and
    other, or the entry's mode when it has a group or other bit. *)
Definition permMode (mode : Z) : Z :=
  let userPermission := Z.land mode (Tar.octal 7 0 0) in
  let permMode :=
    Z.lor (Z.lor userPermission (Z.shiftr userPermission 3))
          (Z.shiftr userPermission 6) in
  if Z.land mode (Tar.octal 0 7 7) >? 0 then mode else permMode.

(** [%c] of a byte: the UTF-8 encoding of the code point. *)
Definition fmt_c (b : ascii) : string :=
  let n := nat_of_ascii b in
  if (n <? 128)%nat then String b EmptyString
  else String (ascii_of_nat (192 + n / 64))
         (String (ascii_of_nat (128 + n mod 64)) EmptyString).

Definition unsupported (header : Tar.Header) : error :=
  Errorf ("Unsupported tar entry type '" +:+ fmt_c (Tar.Typeflag header)
          +:+ "' for file '" +:+ Tar.Name header +:+ "'").

Definition extractTarEntry (i : DirImage) (header : Tar.Header)
    (input : string) (input_err : option error) (h : host) : option error * host :=
  let path := hydrateFilepath i (Tar.Name header) in
  let mode := Tar.FileInfo_Mode header in
  let permMode := permMode mode in
  match Os.MkdirAll (Filepath.Dir path) (Tar.octal 7 7 7) h with
  | (Some err, h) => (Some err, h)
  | (None, h) =>
      let t := Tar.Typeflag header in
      if Ascii.eqb t Tar.TypeDir then (None, h)
      else if Ascii.eqb t Tar.TypeReg || Ascii.eqb t Tar.TypeRegA then
        match Os.OpenFile path permMode h with
        | (inr err, h) => (Some err, h)
        | (inl file, h) =>
            match Os.Copy file input input_err h with
            | (Some err, h) => (Some err, h)
            | (None, h) =>
                match (if negb (String.eqb GOOS "windows") && shouldChown i
                       then Os.Lchown path (Tar.Uid header) (Tar.Gid header) h
                       else (None, h)) with
                | (Some err, h) => (Some err, h)
                | (None, h) => lchtimes header path h
                end
            end
        end
      else if Ascii.eqb t Tar.TypeLink || Ascii.eqb t Tar.TypeSymlink then (None, h)
      else if Ascii.eqb t Tar.TypeChar || Ascii.eqb t Tar.TypeBlock
              || Ascii.eqb t Tar.TypeFifo then (None, h)
      else (Some (unsupported header), h)
  end.

(** [writeLayer] mutates the map it is given; here it returns it. *)
Fixpoint writeLayer (i : DirImage) (fileMap : gmap string bool) (stream : tarStream)
    (h : host) : option error * gmap string bool * host :=
  match stream with
  | tsEOF => (None, fileMap, h)
  | tsErr err => (Some err, fileMap, h)
  | tsNext hdr data data_err rest =>
      let path := hydrateFilepath i (Tar.Name hdr) in
      let base := Filepath.Base path in
      if GoStrings.HasPrefix base whiteoutPrefix then
        let dir := Filepath.Dir path in
        match Os.RemoveAll
                (Filepath.Join [dir; GoStrings.TrimPrefix base whiteoutPrefix]) h with
        | (Some _, h) => (None, fileMap, h)
        | (None, h) => writeLayer i (<[base := true]> fileMap) rest h
        end
      else if inWhiteoutDir fileMap path then writeLayer i fileMap rest h
      else
        let extract h :=
          let fileMap := <[Tar.Name hdr := true]> fileMap in
          match extractTarEntry i hdr data data_err h with
          | (Some err, h) => (Some err, fileMap, h)
          | (None, h) => writeLayer i fileMap rest h
          end in
        match Os.Lstat path h with
        | inl fi =>
            if IsDir fi && String.eqb (Tar.Name hdr) "." then writeLayer i fileMap rest h
            else if negb (IsDir fi && Ascii.eqb (Tar.Typeflag hdr) Tar.TypeDir) then
              match Os.RemoveAll path h with
              | (Some err, h) => (Some err, fileMap, h)
              | (None, h) => extract h
              end
            else extract h
        | inr _ => extract h
        end
  end.

(** The loop of [AsDirectory] over the layers, newest first; [pos] is
    [len(layers)-idx]. The deferred [layerStream.Close()] acts on the
    image source only and is left out. *)
Fixpoint extractLayers (i : DirImage) (fileMap : gmap string bool) (total pos : nat)
    (newest_first : list Layer) (h : host) (log : list logged)
  : option error * host * list logged :=
  match newest_first with
  | [] => (None, h, log)
  | imgLayer :: older =>
      match Digest imgLayer with
      | inr err => (Some err, h, log)
      | inl digest =>
          let log := (log ++ [(digest, pos, total)])%list in
          match Uncompressed imgLayer with
          | inr err => (Some err, h, log)
          | inl layerStream =>
              match writeLayer i fileMap layerStream h with
              | (Some err, _, h) => (Some err, h, log)
              | (None, fileMap, h) =>
                  extractLayers i fileMap total (S pos) older h log
              end
          end
      end
  end.

Definition AsDirectory (i : DirImage) (h : host) : option error * host * list logged :=
  match Os.RemoveAll (dirPath i) h with
  | (Some err, h) =>
      (Some (Errorf ("Removing output directory: " +:+ error_string err)), h, [])
  | (None, h) =>
      match Os.MkdirAll (dirPath i) (Tar.octal 7 7 7) h with
      | (Some err, h) =>
          (Some (Errorf ("Creating output directory: " +:+ error_string err)), h, [])
      | (None, h) =>
          match Layers (img i) with
          | inr err => (Some err, h, [])
          | inl layers =>
              extractLayers i ∅ (length layers) 1%nat (rev layers) h []
          end
      end
  end.

(** ** The flags of the user interface ([cmd/ui_flags.go])

    [ConfigureUI] acts on a [ui.ConfUI] of the library [go-cli-ui] through
    method calls only; its effect is the sequence of these calls.
    [uitable.KeyifyHeader] belongs to the same library and is a parameter. *)

Module Cmd.

Record UIFlags := {
  TTY : bool;
  Color : bool;
  JSON : bool;
  NonInteractive : bool;
  Columns : list string
}.

(** [uitable.Header], the fields [ConfigureUI] sets. *)
Record Header := {
  Key : string;
  Hidden : bool
}.

Inductive ui_call :=
  | EnableTTY (force : bool)
  | EnableColor
  | EnableJSON
  | EnableNonInteractive
  | ShowColumns (headers : list Header).

Section WithLibrary.

Variable KeyifyHeader : string -> string.

Definition ConfigureUI (f : UIFlags) : list ui_call :=
  ([EnableTTY (TTY f)]
   ++ (if Color f then [EnableColor] else [])
   ++ (if JSON f then [EnableJSON] else [])
   ++ (if NonInteractive f then [EnableNonInteractive] else [])
   ++ (if (0 <? length (Columns f))%nat
       then
         let headers :=
           fold_left (fun headers col =>
                        headers ++ [{| Key := KeyifyHeader col; Hidden := false |}])
             (Columns f) [] in
         [ShowColumns headers]
       else []))%list.

End WithLibrary.

End Cmd.

(** ** Vocabulary of the properties *)

(** A proper name of a directory entry: not empty, not [.] or [..], without a
    separator. *)
Definition elem_ok (e : string) : bool :=
  negb (String.eqb e "") && negb (String.eqb e ".") && negb (String.eqb e "..")
  && negb (GoStrings.Contains e Filepath.Separator).

(** The string of an absolute path. *)
Definition abs_path (p : path) : string := Filepath.render true p.

(** An element that [Clean] keeps as it is or removes with its predecessor. *)
Definition kept (e : string) : bool :=
  negb (String.eqb e "") && negb (String.eqb e ".").

(** The [lPath] of [hydrateFilepath]. *)
Definition localPath (fPath : string) : string :=
  if GoStrings.Contains fPath "\"%char
  then Filepath.Join (GoStrings.Split fPath "\"%char)
  else Filepath.Join (GoStrings.Split fPath "/"%char).

(** The destination root as a path, for an absolute [dirPath]. *)
Definition root_path (i : DirImage) : path :=
  Filepath.clean_elems true (GoStrings.Split (dirPath i) Filepath.Separator).

(** The path of an entry under an absolute [dirPath]. *)
Definition entry_path (i : DirImage) (fPath : string) : path :=
  rev (Filepath.clean_stack true (rev (root_path i))
         (GoStrings.Split (localPath fPath) Filepath.Separator)).

(** The elements of an entry name, cut at both separators. *)
Definition name_elems (fPath : string) : list string :=
  concat (map (fun e => GoStrings.Split e "/"%char) (GoStrings.Split fPath "\"%char)).

(** A well-formed tree: every node lies in a directory. *)
Definition wf_nodes (m : gmap path node) : Prop :=
  forall (q : path) (c : string),
    is_Some (m !! (q ++ [c])%list) ->
    exists a, Os.node_at m q = Some (Directory a).

Definition is_regular (t : ascii) : bool :=
  Ascii.eqb t Tar.TypeReg || Ascii.eqb t Tar.TypeRegA.

(** The attributes of a file the extractor has written. *)
Definition written_attrs (i : DirImage) (header : Tar.Header) (h : host) : attrs :=
  {| a_perm := permMode (Tar.FileInfo_Mode header);
     a_uid := if shouldChown i then Tar.Uid header else euid h;
     a_gid := if shouldChown i then Tar.Gid header else egid h;
     a_atime := Z.max (Tar.AccessTime header) (Tar.ModTime header);
     a_mtime := Tar.ModTime header;
     a_pinned := false |}.

(** The types [extractTarEntry] skips without an error. *)
Definition is_skipped (t : ascii) : bool :=
  Ascii.eqb t Tar.TypeLink || Ascii.eqb t Tar.TypeSymlink
  || Ascii.eqb t Tar.TypeChar || Ascii.eqb t Tar.TypeBlock || Ascii.eqb t Tar.TypeFifo.

(** No element of the name is [..]. *)
Definition no_dotdot (fPath : string) : bool :=
  forallb (fun e => negb (String.eqb e "..")) (name_elems fPath).

(** [p] is the cleaned [root] or lies below it, as strings. *)
Definition within_root (root p : string) : bool :=
  let r := Filepath.Clean root in
  String.eqb p r
  || GoStrings.HasPrefix p (if String.eqb r "/" then r else r +:+ "/").

(** What is at a path of a host. *)
Definition file_data (name : string) (h : host) : option string :=
  match Os.Lstat name h with
  | inl (Regular _ data) => Some data
  | _ => None
  end.

Definition is_dir (name : string) (h : host) : bool :=
  match Os.Lstat name h with
  | inl n => IsDir n
  | inr _ => false
  end.

Definition exists_at (name : string) (h : host) : bool :=
  match Os.Lstat name h with
  | inl _ => true
  | inr _ => false
  end.

(** Archives, images and a host to run the extractor on. *)
Definition mk_header (t : ascii) (name : string) (mode : Z) : Tar.Header :=
  {| Tar.Typeflag := t; Tar.Name := name; Tar.Linkname := ""; Tar.Mode := mode;
     Tar.Uid := 0; Tar.Gid := 0; Tar.ModTime := 200; Tar.AccessTime := 100 |}.

Fixpoint stream_of (entries : list (Tar.Header * string)) : tarStream :=
  match entries with
  | [] => tsEOF
  | (hdr, data) :: rest => tsNext hdr data None (stream_of rest)
  end.

Definition layer_of (digest : string) (entries : list (Tar.Header * string)) : Layer :=
  {| Digest := inl digest; Uncompressed := inl (stream_of entries) |}.

Definition empty_host : host :=
  {| nodes := ∅; cwd := []; euid := 1000; egid := 1000; now := 1 |}.

Definition dir_image (dest : string) (layers : list Layer) : DirImage :=
  NewDirImage dest {| Layers := inl layers |} empty_host.

(** [m2] differs from [m1] at [p] at most, where it has no new pinned node. *)
Definition only_at (p : path) (m1 m2 : gmap path node) : Prop :=
  (forall q, q <> p -> m2 !! q = m1 !! q)
  /\ (forall n2, m2 !! p = Some n2 -> a_pinned (node_attrs n2) = true ->
        exists n1, m1 !! p = Some n1 /\ a_pinned (node_attrs n1) = true).

(** The bytes of the elements of a path and of the separators after them. *)
Definition weight (l : list string) : nat :=
  foldr (fun e n => S (String.length e + n)) 0%nat l.

(** What decreases along the loop of [inWhiteoutDir]. *)
Definition dir_measure (file : string) : nat :=
  (2 * String.length file + (if String.eqb file "." then 0 else 1))%nat.

(** Every header of a stream satisfies [P]. *)
Fixpoint stream_all (P : Tar.Header -> bool) (s : tarStream) : bool :=
  match s with
  | tsNext hdr _ _ rest => P hdr && stream_all P rest
  | _ => true
  end.

Definition layer_all (P : Tar.Header -> bool) (l : Layer) : bool :=
  match Uncompressed l with
  | inl s => stream_all P s
  | inr _ => true
  end.

Definition image_all (P : Tar.Header -> bool) (i : DirImage) : bool :=
  match Layers (img i) with
  | inl layers => forallb (layer_all P) layers
  | inr _ => true
  end.

(** The stream [s] followed, at its end, by the stream [tail]. *)
Fixpoint stream_then (s tail : tarStream) : tarStream :=
  match s with
  | tsEOF => tail
  | tsErr e => tsErr e
  | tsNext hdr data data_err rest => tsNext hdr data data_err (stream_then rest tail)
  end.

(** The name of the entry does not begin with a separator. *)
Definition relative_header (hdr : Tar.Header) : bool :=
  negb (Filepath.rooted (Tar.Name hdr)).

(** What [writeLayer] keeps on an absolute destination with relative names:
    a well-formed tree, and a map without an absolute path. *)
Definition relative_inv (fileMap : gmap string bool) (h : host) : Prop :=
  wf_nodes (nodes h)
  /\ forall k, fileMap !! k = Some true -> Filepath.rooted k = false.

(** No element of the entry's name is [..] or the whiteout of [..]: neither
    the path of the entry nor the path a whiteout removes leaves the root. *)
Definition safe_header (hdr : Tar.Header) : bool :=
  forallb (fun e => negb (String.eqb e "..") && negb (String.eqb e ".wh..."))
    (name_elems (Tar.Name hdr)).

(** What a run keeps once the root [rc] is made, in the host [S]: it works
    on [S] with other nodes, the tree is well formed, outside the root
    nothing has changed, and no node under the root is pinned. *)
Definition frame_inv (rc : path) (S : host) (h : host) : Prop :=
  h = with_nodes S (nodes h)
  /\ wf_nodes (nodes h)
  /\ (forall q, ~ rc `prefix_of` q -> nodes h !! q = nodes S !! q)
  /\ (forall q n, rc `prefix_of` q -> nodes h !! q = Some n ->
                  a_pinned (node_attrs n) = false).

(** The entry is not named as a whiteout. *)
Definition not_whiteout_header (i : DirImage) (hdr : Tar.Header) : bool :=
  negb (GoStrings.HasPrefix (Filepath.Base (hydrateFilepath i (Tar.Name hdr)))
          whiteoutPrefix).

(** The element holds neither separator. *)
Definition plain_elem (e : string) : bool :=
  negb (GoStrings.Contains e "/"%char) && negb (GoStrings.Contains e "\"%char).


(** The header with another link target. *)
Definition with_linkname (hdr : Tar.Header) (target : string) : Tar.Header :=
  {| Tar.Typeflag := Tar.Typeflag hdr; Tar.Name := Tar.Name hdr;
     Tar.Linkname := target; Tar.Mode := Tar.Mode hdr;
     Tar.Uid := Tar.Uid hdr; Tar.Gid := Tar.Gid hdr;
     Tar.ModTime := Tar.ModTime hdr; Tar.AccessTime := Tar.AccessTime hdr |}.

(** The stream with the link target of every header replaced. *)
Fixpoint retarget (f : Tar.Header -> string) (s : tarStream) : tarStream :=
  match s with
  | tsEOF => tsEOF
  | tsErr e => tsErr e
  | tsNext hdr data data_err rest =>
      tsNext (with_linkname hdr (f hdr)) data data_err (retarget f rest)
  end.

(** The path an entry acts on: the path a whiteout removes, or the path of
    the entry. *)
Definition acts_on (i : DirImage) (hdr : Tar.Header) : string :=
  let path := hydrateFilepath i (Tar.Name hdr) in
  let base := Filepath.Base path in
  if GoStrings.HasPrefix base whiteoutPrefix
  then Filepath.Join [Filepath.Dir path; GoStrings.TrimPrefix base whiteoutPrefix]
  else path.

(** The entry acts neither on [p] nor on a directory above [p]. *)
Definition leaves_alone (i : DirImage) (p : path) (hdr : Tar.Header) : bool :=
  negb (Os.is_prefix
          (Filepath.clean_elems true (GoStrings.Split (acts_on i hdr) Filepath.Separator))
          p).

(** * Properties *)

(** ** The path functions on examples *)

Section PathExamples.

Example Clean_ex1 : Filepath.Clean "/dest/../x//y/./" = "/x/y".
Proof. reflexivity. Qed.

Example Clean_ex2 : Filepath.Clean "a/../../b" = "../b".
Proof. reflexivity. Qed.

Example Clean_ex3 : Filepath.Clean "/../.." = "/".
Proof. reflexivity. Qed.

Example Join_ex1 : Filepath.Join ["/dest"; "../x"] = "/x".
Proof. reflexivity. Qed.

Example Join_ex2 : Filepath.Join [""; "etc"; "passwd"] = "etc/passwd".
Proof. reflexivity. Qed.

Example Dir_ex1 : Filepath.Dir "/dest/a/b.txt" = "/dest/a".
Proof. reflexivity. Qed.

Example Dir_ex2 : Filepath.Dir "/" = "/" /\ Filepath.Dir "a" = "." /\ Filepath.Dir "" = ".".
Proof. repeat split. Qed.

Example Base_ex1 : Filepath.Base "/dest/a/.wh.b" = ".wh.b" /\ Filepath.Base "/" = "/"
                   /\ Filepath.Base "a//" = "a".
Proof. repeat split. Qed.

End PathExamples.

(** ** Strings *)

Section StringFacts.

Import GoStrings.

Lemma append_cons (a : ascii) (s t : string) :
  String a s +:+ t = String a (s +:+ t).
Proof. reflexivity. Qed.

Lemma append_nil_l (s : string) : "" +:+ s = s.
Proof. reflexivity. Qed.

Lemma append_nil_r (s : string) : s +:+ "" = s.
Proof.
  induction s as [|a s IH]; [reflexivity|]. now rewrite append_cons, IH.
Qed.

Lemma append_assoc (s t u : string) : (s +:+ t) +:+ u = s +:+ (t +:+ u).
Proof.
  induction s as [|a s IH]; [reflexivity|]. now rewrite !append_cons, IH.
Qed.

Lemma length_append (s t : string) :
  String.length (s +:+ t) = (String.length s + String.length t)%nat.
Proof.
  induction s as [|a s IH]; [reflexivity|]. rewrite append_cons. simpl.
  now rewrite IH.
Qed.

Lemma Split_not_nil (s : string) (c : ascii) : Split s c <> [].
Proof.
  destruct s as [|a s]; simpl; [discriminate|].
  destruct (Ascii.eqb a c); [discriminate|].
  destruct (Split s c); discriminate.
Qed.

Lemma Split_cons_other (a c : ascii) (s : string) :
  Ascii.eqb a c = false ->
  exists x r, Split s c = x :: r /\ Split (String a s) c = String a x :: r.
Proof.
  intros Hac. simpl. rewrite Hac.
  destruct (Split s c) as [|x r] eqn:E; [now apply Split_not_nil in E|].
  now exists x, r.
Qed.

Lemma Contains_append (s t : string) (c : ascii) :
  Contains (s +:+ t) c = Contains s c || Contains t c.
Proof.
  induction s as [|a s IH]; [reflexivity|]. rewrite append_cons. simpl.
  destruct (Ascii.eqb a c); [reflexivity | exact IH].
Qed.

Lemma Split_no_sep (s : string) (c : ascii) :
  Contains s c = false -> Split s c = [s].
Proof.
  induction s as [|a s IH]; simpl; [reflexivity|].
  destruct (Ascii.eqb a c); [discriminate|].
  intros H. now rewrite (IH H).
Qed.

Lemma Split_elems_no_sep (s : string) (c : ascii) :
  Forall (fun e => Contains e c = false) (Split s c).
Proof.
  induction s as [|a s IH]; simpl.
  - repeat constructor.
  - destruct (Ascii.eqb a c) eqn:Hac.
    + constructor; [reflexivity | exact IH].
    + destruct (Split s c) as [|x r]; [repeat constructor; simpl; now rewrite Hac|].
      inversion IH; subst. constructor; [simpl; now rewrite Hac | assumption].
Qed.

(** Splitting what was joined with a separator: the pieces of each part. *)
Lemma Split_append_sep (s t : string) (c : ascii) :
  Split (s +:+ String c t) c = (Split s c ++ Split t c)%list.
Proof.
  induction s as [|a s IH].
  - rewrite append_nil_l. simpl. now rewrite Ascii.eqb_refl.
  - rewrite append_cons.
    destruct (Ascii.eqb a c) eqn:Hac.
    + simpl. rewrite Hac, IH. reflexivity.
    + destruct (Split_cons_other a c s Hac) as (x & r & E1 & E2).
      rewrite E2. simpl. rewrite Hac, IH, E1. reflexivity.
Qed.

Lemma Join_cons (e : string) (es : list string) (c : ascii) :
  es <> [] -> Join (e :: es) c = e +:+ String c (Join es c).
Proof. destruct es; [contradiction | reflexivity]. Qed.

Lemma Split_Join_concat (es : list string) (c : ascii) :
  es <> [] -> Split (Join es c) c = concat (map (fun e => Split e c) es).
Proof.
  induction es as [|e es IH]; [contradiction|]. intros _.
  destruct es as [|e' es].
  - simpl. now rewrite app_nil_r.
  - rewrite Join_cons by discriminate.
    rewrite Split_append_sep, IH by discriminate. reflexivity.
Qed.

Lemma Split_Join (es : list string) (c : ascii) :
  es <> [] -> Forall (fun e => Contains e c = false) es ->
  Split (Join es c) c = es.
Proof.
  intros Hne Hall. rewrite Split_Join_concat by assumption.
  clear Hne. induction Hall as [|e es He _ IH]; [reflexivity|].
  simpl. rewrite (Split_no_sep _ _ He), IH. reflexivity.
Qed.

Lemma Join_Split (s : string) (c : ascii) : Join (Split s c) c = s.
Proof.
  induction s as [|a s IH]; [reflexivity|].
  destruct (Ascii.eqb a c) eqn:Hac.
  - simpl. rewrite Hac. rewrite Join_cons by apply Split_not_nil.
    apply Ascii.eqb_eq in Hac. subst. rewrite append_nil_l. now rewrite IH.
  - destruct (Split_cons_other a c s Hac) as (x & r & E1 & E2).
    rewrite E2. rewrite E1 in IH. destruct r as [|y r].
    + simpl in *. now subst.
    + rewrite Join_cons in * by discriminate. rewrite append_cons. now rewrite IH.
Qed.

Lemma HasPrefix_append (pre s : string) : HasPrefix (pre +:+ s) pre = true.
Proof.
  unfold HasPrefix. induction pre as [|a pre IH].
  - now destruct s.
  - rewrite append_cons. simpl.
    destruct (ascii_dec a a); [exact IH | contradiction].
Qed.

Lemma HasPrefix_inv (pre s : string) :
  HasPrefix s pre = true -> exists t, s = pre +:+ t.
Proof.
  unfold HasPrefix. revert s. induction pre as [|a pre IH]; intros s H.
  - now exists s.
  - destruct s as [|b s]; simpl in H; [discriminate|].
    destruct (ascii_dec a b); [subst | discriminate].
    destruct (IH _ H) as [t ->]. now exists t.
Qed.

Lemma drop_bytes_append (pre s : string) :
  drop_bytes (String.length pre) (pre +:+ s) = s.
Proof.
  induction pre as [|a pre IH]; [reflexivity|]. rewrite append_cons. exact IH.
Qed.

Lemma TrimPrefix_append (pre s : string) : TrimPrefix (pre +:+ s) pre = s.
Proof. unfold TrimPrefix. now rewrite HasPrefix_append, drop_bytes_append. Qed.

End StringFacts.

(** ** Paths *)

Section PathFacts.

Import Filepath.

Lemma clean_stack_app (r : bool) (l1 l2 stk : list string) :
  clean_stack r stk (l1 ++ l2) = clean_stack r (clean_stack r stk l1) l2.
Proof.
  revert stk. induction l1 as [|e l1 IH]; intros stk; [reflexivity|].
  simpl. destruct (String.eqb e "" || String.eqb e "."); [apply IH|].
  destruct (String.eqb e ".."); [|apply IH].
  destruct stk as [|top stk']; [destruct r; apply IH|].
  destruct (String.eqb top ".."); apply IH.
Qed.

Lemma elem_ok_inv (e : string) :
  elem_ok e = true ->
  String.eqb e "" = false /\ String.eqb e "." = false /\ String.eqb e ".." = false
  /\ GoStrings.Contains e Separator = false.
Proof.
  unfold elem_ok. rewrite !andb_true_iff, !negb_true_iff. tauto.
Qed.

Lemma clean_stack_ok (r : bool) (l stk : list string) :
  Forall (fun e => elem_ok e = true) l ->
  clean_stack r stk l = (rev l ++ stk)%list.
Proof.
  intros H. revert stk. induction H as [|e l He _ IH]; intros stk; [reflexivity|].
  apply elem_ok_inv in He as (H1 & H2 & H3 & _).
  simpl. rewrite H1, H2, H3. simpl. rewrite IH, <- app_assoc. reflexivity.
Qed.

(** Without [..] elements cleaning only drops the empty and [.] elements. *)
Lemma clean_stack_no_dotdot (r : bool) (l stk : list string) :
  Forall (fun e => String.eqb e ".." = false) l ->
  clean_stack r stk l = (rev (List.filter kept l) ++ stk)%list.
Proof.
  intros H. revert stk. induction H as [|e l He _ IH]; intros stk; [reflexivity|].
  simpl. unfold kept at 1.
  destruct (String.eqb e "") eqn:E1; simpl; [apply IH|].
  destruct (String.eqb e ".") eqn:E2; simpl; [apply IH|].
  rewrite He, IH, <- app_assoc. reflexivity.
Qed.

(** In a rooted path every element of the output is a proper name. *)
Lemma clean_stack_rooted_ok (l stk : list string) :
  Forall (fun e => GoStrings.Contains e Separator = false) l ->
  Forall (fun e => elem_ok e = true) stk ->
  Forall (fun e => elem_ok e = true) (clean_stack true stk l).
Proof.
  intros H. revert stk. induction H as [|e l He _ IH]; intros stk Hs; [exact Hs|].
  simpl. destruct (String.eqb e "") eqn:E1; simpl; [now apply IH|].
  destruct (String.eqb e ".") eqn:E2; simpl; [now apply IH|].
  destruct (String.eqb e "..") eqn:E3.
  - destruct stk as [|top stk']; [now apply IH|].
    inversion Hs as [|? ? Htop Hs']; subst.
    destruct (elem_ok_inv _ Htop) as (_ & _ & -> & _). now apply IH.
  - apply IH. constructor; [|exact Hs].
    unfold elem_ok. now rewrite E1, E2, E3, He.
Qed.

Lemma clean_elems_rooted_ok (l : list string) :
  Forall (fun e => GoStrings.Contains e Separator = false) l ->
  Forall (fun e => elem_ok e = true) (clean_elems true l).
Proof.
  intros H. unfold clean_elems. apply Forall_rev.
  apply clean_stack_rooted_ok; [exact H | constructor].
Qed.

Lemma Forall_ok_no_sep (p : path) :
  Forall (fun e => elem_ok e = true) p ->
  Forall (fun e => GoStrings.Contains e Separator = false) p.
Proof.
  intros H. eapply Forall_impl; [exact H|].
  intros e He. now apply elem_ok_inv in He.
Qed.

(** The elements of the string of an absolute path. *)
Lemma Split_abs_path (p : path) :
  Forall (fun e => elem_ok e = true) p ->
  GoStrings.Split (abs_path p) Separator
  = match p with [] => [""; ""] | _ => "" :: p end.
Proof.
  intros H. unfold abs_path, render.
  change (String Separator (GoStrings.Join p Separator))
    with ("" +:+ String Separator (GoStrings.Join p Separator)).
  rewrite Split_append_sep. destruct p as [|e p]; [reflexivity|].
  rewrite Split_Join; [reflexivity | discriminate | now apply Forall_ok_no_sep].
Qed.

Lemma clean_elems_abs_path (p : path) :
  Forall (fun e => elem_ok e = true) p ->
  clean_elems true (GoStrings.Split (abs_path p) Separator) = p.
Proof.
  intros H. rewrite Split_abs_path by exact H. unfold clean_elems.
  destruct p as [|e p]; [reflexivity|].
  change (clean_stack true [] ("" :: e :: p)) with (clean_stack true [] (e :: p)).
  rewrite clean_stack_ok by exact H. now rewrite app_nil_r, rev_involutive.
Qed.

Lemma Clean_abs_path (p : path) :
  Forall (fun e => elem_ok e = true) p -> Clean (abs_path p) = abs_path p.
Proof.
  intros H. unfold Clean.
  change (abs_path p) with (String Separator (GoStrings.Join p Separator)) at 1 2 3.
  cbv iota. change (rooted (String Separator (GoStrings.Join p Separator))) with true.
  change (String Separator (GoStrings.Join p Separator)) with (abs_path p).
  now rewrite clean_elems_abs_path.
Qed.

Lemma Join_snoc (p : list string) (b : string) (c : ascii) :
  p <> [] ->
  GoStrings.Join (p ++ [b]) c = GoStrings.Join p c +:+ String c b.
Proof.
  induction p as [|e p IH]; [contradiction|]. intros _.
  destruct p as [|e' p]; [reflexivity|].
  change ((e :: e' :: p) ++ [b])%list with (e :: ((e' :: p) ++ [b]))%list.
  rewrite Join_cons by (simpl; discriminate).
  rewrite IH by discriminate. rewrite (Join_cons e (e' :: p)) by discriminate.
  now rewrite append_assoc.
Qed.

(** The string of a path with one more name. *)
Lemma abs_path_snoc (p : path) (b : string) :
  abs_path (p ++ [b])
  = match p with [] => "" | _ => abs_path p end +:+ String Separator b.
Proof.
  unfold abs_path, render. destruct p as [|e p]; [reflexivity|].
  rewrite Join_snoc by discriminate. reflexivity.
Qed.

Lemma upto_last_sep_append (x b : string) :
  GoStrings.Contains b Separator = false ->
  upto_last_sep (x +:+ String Separator b) = x +:+ String Separator "".
Proof.
  intros Hb. induction x as [|a x IH].
  - rewrite !append_nil_l. simpl. now rewrite Hb.
  - rewrite !append_cons. simpl.
    rewrite Contains_append. simpl. rewrite orb_true_r. now rewrite IH.
Qed.

Lemma after_last_sep_append (x b : string) :
  GoStrings.Contains b Separator = false ->
  after_last_sep (x +:+ String Separator b) = b.
Proof.
  intros Hb. induction x as [|a x IH].
  - rewrite !append_nil_l. simpl. now rewrite Hb.
  - rewrite !append_cons. simpl.
    rewrite Contains_append. simpl. rewrite orb_true_r. exact IH.
Qed.

Lemma strip_trailing_seps_no_sep (b : string) :
  GoStrings.Contains b Separator = false -> strip_trailing_seps b = b.
Proof.
  induction b as [|a b IH]; [reflexivity|]. simpl.
  destruct (Ascii.eqb a Separator) eqn:Ha; [discriminate|].
  intros Hb. rewrite (IH Hb). now destruct b.
Qed.

Lemma strip_trailing_seps_append (x y : string) :
  strip_trailing_seps y <> "" ->
  strip_trailing_seps (x +:+ y) = x +:+ strip_trailing_seps y.
Proof.
  intros Hy. induction x as [|a x IH]; [reflexivity|].
  rewrite !append_cons. simpl. rewrite IH.
  destruct (x +:+ strip_trailing_seps y) eqn:E; [|reflexivity].
  destruct x; [|discriminate]. rewrite append_nil_l in E. contradiction.
Qed.

Lemma clean_stack_abs_path (p : path) :
  Forall (fun e => elem_ok e = true) p ->
  clean_stack true [] (GoStrings.Split (abs_path p) Separator) = rev p.
Proof.
  intros H. apply clean_elems_abs_path in H. unfold clean_elems in H.
  rewrite <- H at 2. now rewrite rev_involutive.
Qed.

(** [Dir] of an absolute path is the path of the parent. *)
Lemma Dir_abs_path (p : path) :
  Forall (fun e => elem_ok e = true) p ->
  Dir (abs_path p) = abs_path (removelast p).
Proof.
  intros H. induction p as [|b p' _] using rev_ind; [reflexivity|].
  rewrite removelast_last. apply Forall_app in H as [Hp' Hb].
  inversion Hb as [|? ? Hb' _]; subst.
  apply elem_ok_inv in Hb' as (_ & _ & _ & Hb').
  unfold Dir. rewrite abs_path_snoc, upto_last_sep_append by exact Hb'.
  destruct p' as [|e p']; [reflexivity|].
  unfold Clean.
  change (abs_path (e :: p') +:+ String Separator "")
    with (String Separator (GoStrings.Join (e :: p') Separator +:+ String Separator "")).
  cbv iota. cbn [rooted]. rewrite Ascii.eqb_refl.
  change (String Separator (GoStrings.Join (e :: p') Separator +:+ String Separator ""))
    with (abs_path (e :: p') +:+ String Separator "").
  rewrite Split_append_sep. unfold clean_elems.
  rewrite clean_stack_app, clean_stack_abs_path by exact Hp'.
  change (clean_stack true (rev (e :: p')) (GoStrings.Split "" Separator))
    with (rev (e :: p')).
  now rewrite rev_involutive.
Qed.

(** [Base] of an absolute path is its last name. *)
Lemma Base_abs_path (p : path) (b : string) :
  Forall (fun e => elem_ok e = true) (p ++ [b]) ->
  Base (abs_path (p ++ [b])) = b.
Proof.
  intros H. apply Forall_app in H as [_ Hb].
  inversion Hb as [|? ? Hb' _]; subst.
  apply elem_ok_inv in Hb' as (Hne & _ & _ & Hb').
  assert (Hstrip : strip_trailing_seps (String Separator b) = String Separator b).
  { simpl. rewrite (strip_trailing_seps_no_sep _ Hb').
    destruct b; [discriminate | reflexivity]. }
  rewrite abs_path_snoc.
  set (x := match p with [] => "" | _ => abs_path p end).
  unfold Base.
  destruct (x +:+ String Separator b) eqn:E.
  { destruct x; discriminate. }
  rewrite <- E. rewrite strip_trailing_seps_append by (rewrite Hstrip; discriminate).
  rewrite Hstrip, after_last_sep_append by exact Hb'.
  destruct b; [discriminate | reflexivity].
Qed.

(** Cleaning a rooted string gives the string of an absolute path. *)
Lemma Clean_rooted (s : string) :
  rooted s = true ->
  Clean s = abs_path (clean_elems true (GoStrings.Split s Separator)).
Proof.
  intros Hs. unfold Clean. destruct s; [discriminate|]. now rewrite Hs.
Qed.

(** Joining an element to a rooted string. *)
Lemma Join_rooted (d t : string) :
  rooted d = true ->
  Join [d; t]
  = abs_path (rev (clean_stack true (clean_stack true [] (GoStrings.Split d Separator))
                     (GoStrings.Split t Separator))).
Proof.
  intros Hd. unfold Join.
  destruct (String.eqb d "") eqn:E; [apply String.eqb_eq in E; now subst|].
  rewrite Join_cons by discriminate. simpl GoStrings.Join.
  rewrite Clean_rooted by (destruct d; [discriminate | exact Hd]).
  rewrite Split_append_sep. unfold clean_elems. now rewrite clean_stack_app.
Qed.

Lemma rooted_abs_path (p : path) : rooted (abs_path p) = true.
Proof. reflexivity. Qed.

Lemma Join_abs_path (p : path) (t : string) :
  Forall (fun e => elem_ok e = true) p ->
  Join [abs_path p; t]
  = abs_path (rev (clean_stack true (rev p) (GoStrings.Split t Separator))).
Proof.
  intros H. rewrite Join_rooted by apply rooted_abs_path.
  now rewrite clean_stack_abs_path.
Qed.

End PathFacts.

(** ** [hydrateFilepath] *)

Section HydrateFacts.

Import Filepath.

Lemma hydrateFilepath_unfold (i : DirImage) (fPath : string) :
  hydrateFilepath i fPath = Join [dirPath i; localPath fPath].
Proof. reflexivity. Qed.

Lemma root_path_ok (i : DirImage) :
  Forall (fun e => elem_ok e = true) (root_path i).
Proof. apply clean_elems_rooted_ok, Split_elems_no_sep. Qed.

Lemma entry_path_ok (i : DirImage) (fPath : string) :
  Forall (fun e => elem_ok e = true) (entry_path i fPath).
Proof.
  unfold entry_path. apply Forall_rev, clean_stack_rooted_ok.
  - apply Split_elems_no_sep.
  - apply Forall_rev, root_path_ok.
Qed.

(** Under an absolute destination the hydrated name is the string of an
    absolute path. *)
Lemma hydrateFilepath_abs (i : DirImage) (fPath : string) :
  rooted (dirPath i) = true ->
  hydrateFilepath i fPath = abs_path (entry_path i fPath).
Proof.
  intros Hr. rewrite hydrateFilepath_unfold, Join_rooted by exact Hr.
  unfold entry_path, root_path, clean_elems. now rewrite rev_involutive.
Qed.

(** [filepath.Join] of a list: nothing but empty elements, or the cleaned
    join of the list from its first non-empty element. *)
Lemma Join_shape (es : list string) :
  (Join es = "" /\ Forall (fun e => e = "") es)
  \/ exists n e es', es = (replicate n "" ++ e :: es')%list /\ e <> ""
       /\ Join es = Clean (GoStrings.Join (e :: es') Separator).
Proof.
  induction es as [|e es IH]; [left; split; [reflexivity | constructor]|].
  destruct (String.eqb e "") eqn:E.
  - apply String.eqb_eq in E. subst e.
    destruct IH as [[IH1 IH2] | (n & e & es' & -> & Hne & IH)].
    + left. split; [exact IH1 | constructor; [reflexivity | exact IH2]].
    + right. exists (S n), e, es'. repeat split; [exact Hne | exact IH].
  - right. exists 0%nat, e, es. apply String.eqb_neq in E.
    repeat split; [exact E|]. simpl. apply String.eqb_neq in E. now rewrite E.
Qed.

Lemma clean_stack_kept_nil (r : bool) (l stk : list string) :
  Forall (fun e => String.eqb e ".." = false) l ->
  List.filter kept l = [] -> clean_stack r stk l = stk.
Proof.
  intros H Hf. rewrite clean_stack_no_dotdot by exact H. now rewrite Hf.
Qed.

Lemma filter_kept_ok (l : list string) :
  Forall (fun e => GoStrings.Contains e Separator = false) l ->
  Forall (fun e => String.eqb e ".." = false) l ->
  Forall (fun e => elem_ok e = true) (List.filter kept l).
Proof.
  intros H1 H2. induction H1 as [|e l He _ IH]; [constructor|].
  inversion H2; subst. simpl. destruct (kept e) eqn:K; [|now apply IH].
  constructor; [|now apply IH].
  unfold kept in K. apply andb_true_iff in K as [K1 K2].
  unfold elem_ok. rewrite K1, K2, He. simpl.
  match goal with H : String.eqb e ".." = false |- _ => now rewrite H end.
Qed.

(** Cleaning the elements of a cleaned string again, on top of a rooted
    stack: the same as cleaning the elements of the string. *)
Lemma clean_stack_Clean (s : string) (stk : list string) :
  s <> "" ->
  Forall (fun e => String.eqb e ".." = false) (GoStrings.Split s Separator) ->
  clean_stack true stk (GoStrings.Split (Clean s) Separator)
  = (rev (List.filter kept (GoStrings.Split s Separator)) ++ stk)%list.
Proof.
  intros Hs Hd. unfold Clean. destruct s as [|a s]; [contradiction|].
  set (t := String a s) in *. set (r := rooted t). clearbody r.
  unfold clean_elems.
  rewrite (clean_stack_no_dotdot r (GoStrings.Split t Separator) []) by exact Hd.
  rewrite app_nil_r, rev_involutive.
  set (ks := List.filter kept (GoStrings.Split t Separator)).
  assert (Hok : Forall (fun e => elem_ok e = true) ks)
    by (apply filter_kept_ok; [apply Split_elems_no_sep | exact Hd]).
  destruct r; simpl render.
  - change (String Separator (GoStrings.Join ks Separator)) with (abs_path ks).
    rewrite Split_abs_path by exact Hok.
    destruct ks as [|k ks']; [reflexivity|].
    change (clean_stack true stk ("" :: k :: ks'))
      with (clean_stack true stk (k :: ks')).
    now rewrite clean_stack_ok.
  - destruct ks as [|k ks'] eqn:E; [reflexivity|].
    rewrite Split_Join; [|discriminate | now apply Forall_ok_no_sep].
    now rewrite clean_stack_ok.
Qed.

Lemma concat_Split_replicate (n : nat) (l : list string) :
  List.filter kept
    (concat (map (fun e => GoStrings.Split e Separator) (replicate n "" ++ l)))
  = List.filter kept (concat (map (fun e => GoStrings.Split e Separator) l)).
Proof. induction n as [|n IH]; [reflexivity | exact IH]. Qed.

Lemma concat_Split_empties (l : list string) :
  Forall (fun e => e = "") l ->
  List.filter kept (concat (map (fun e => GoStrings.Split e Separator) l)) = [].
Proof. induction 1 as [|e l -> _ IH]; [reflexivity | exact IH]. Qed.

Lemma Forall_concat_replicate (P : string -> Prop) (n : nat) (l : list string) :
  Forall P (concat (map (fun e => GoStrings.Split e Separator) (replicate n "" ++ l))) ->
  Forall P (concat (map (fun e => GoStrings.Split e Separator) l)).
Proof.
  induction n as [|n IH]; [easy|]. simpl. intros H. apply IH.
  now inversion H.
Qed.

(** The elements [filepath.Join] leaves of a list of elements. *)
Lemma clean_stack_Join (es stk : list string) :
  Forall (fun e => String.eqb e ".." = false)
    (concat (map (fun e => GoStrings.Split e Separator) es)) ->
  clean_stack true stk (GoStrings.Split (Join es) Separator)
  = (rev (List.filter kept (concat (map (fun e => GoStrings.Split e Separator) es)))
       ++ stk)%list.
Proof.
  intros Hd. destruct (Join_shape es) as [[-> Hall] | (n & e & es' & -> & Hne & ->)].
  - now rewrite concat_Split_empties.
  - rewrite concat_Split_replicate. apply Forall_concat_replicate in Hd.
    rewrite <- Split_Join_concat in * by discriminate.
    apply clean_stack_Clean; [|exact Hd].
    destruct es'; [exact Hne|]. rewrite Join_cons by discriminate.
    destruct e; [contradiction | discriminate].
Qed.

Lemma name_elems_no_backslash (fPath : string) :
  GoStrings.Contains fPath "\"%char = false ->
  name_elems fPath = GoStrings.Split fPath Separator.
Proof.
  intros H. unfold name_elems. rewrite (Split_no_sep _ _ H). simpl.
  apply app_nil_r.
Qed.

Lemma concat_Split_Split (s : string) :
  concat (map (fun e => GoStrings.Split e Separator) (GoStrings.Split s Separator))
  = GoStrings.Split s Separator.
Proof.
  pose proof (Split_elems_no_sep s Separator) as H.
  induction H as [|e l He _ IH]; [reflexivity|].
  simpl. now rewrite (Split_no_sep _ _ He), IH.
Qed.

Lemma clean_stack_localPath (fPath : string) (stk : list string) :
  Forall (fun e => String.eqb e ".." = false) (name_elems fPath) ->
  clean_stack true stk (GoStrings.Split (localPath fPath) Separator)
  = (rev (List.filter kept (name_elems fPath)) ++ stk)%list.
Proof.
  intros Hd. unfold localPath.
  destruct (GoStrings.Contains fPath "\"%char) eqn:E.
  - now apply clean_stack_Join.
  - rewrite name_elems_no_backslash in * by exact E.
    rewrite clean_stack_Join; rewrite concat_Split_Split; [reflexivity | exact Hd].
Qed.

(** Without a [..] element the entry lies under the root: its path is the
    root's followed by the names of the entry. *)
Lemma entry_path_no_dotdot (i : DirImage) (fPath : string) :
  Forall (fun e => String.eqb e ".." = false) (name_elems fPath) ->
  entry_path i fPath = (root_path i ++ List.filter kept (name_elems fPath))%list.
Proof.
  intros Hd. unfold entry_path. rewrite clean_stack_localPath by exact Hd.
  now rewrite rev_app_distr, !rev_involutive.
Qed.

End HydrateFacts.

(** ** The file system: walking to a node *)

Section WalkFacts.

Import Os.

Lemma resolve_abs_path (h : host) (p : path) :
  Forall (fun e => elem_ok e = true) p -> resolve h (abs_path p) = Some p.
Proof.
  intros H. unfold resolve.
  change (abs_path p) with (String Filepath.Separator (GoStrings.Join p Filepath.Separator)) at 1 2.
  cbv iota. cbn [Filepath.rooted]. rewrite Ascii.eqb_refl. 
  change (String Filepath.Separator (GoStrings.Join p Filepath.Separator)) with (abs_path p).
  rewrite app_nil_l. now rewrite clean_elems_abs_path.
Qed.

Lemma node_at_snoc (m : gmap path node) (q : path) (c : string) :
  node_at m (q ++ [c]) = m !! (q ++ [c])%list.
Proof. destruct q; reflexivity. Qed.

Lemma node_at_ne (m : gmap path node) (p : path) :
  p <> [] -> node_at m p = m !! p.
Proof. destruct p; [contradiction | reflexivity]. Qed.

(** A walk that arrives has found the node at the path. *)
Lemma walk_Found (m : gmap path node) (above todo : path) (n : node) :
  walk m above todo = Found n -> node_at m (above ++ todo) = Some n.
Proof.
  revert above. induction todo as [|c todo IH]; intros above; simpl.
  - rewrite app_nil_r. destruct (node_at m above); [congruence | discriminate].
  - destruct (node_at m above) as [[a|a d]|]; try discriminate.
    intros H. apply IH in H. now rewrite <- app_assoc in H.
Qed.

(** When every directory on the way is there, the walk arrives. *)
Lemma walk_dirs (m : gmap path node) (above todo : path) :
  (forall q, above `prefix_of` q -> q `prefix_of` (above ++ todo) -> q <> (above ++ todo)%list ->
        exists a, node_at m q = Some (Directory a)) ->
  walk m above todo
  = match node_at m (above ++ todo) with Some n => Found n | None => Missing ENOENT end.
Proof.
  revert above. induction todo as [|c todo IH]; intros above H; simpl.
  - now rewrite app_nil_r.
  - destruct (H above) as [a Ha].
    + reflexivity.
    + now apply prefix_app_r.
    + intros E. apply (f_equal length) in E. rewrite length_app in E. simpl in E. lia.
    + rewrite Ha. rewrite IH; [now rewrite <- app_assoc|].
      intros q Hq1 Hq2 Hq3. rewrite <- app_assoc in *. apply H; [|assumption..].
      etrans; [|exact Hq1]. now apply prefix_app_r.
Qed.

Lemma wf_nodes_prefix (m : gmap path node) (p q : path) :
  wf_nodes m -> is_Some (node_at m p) -> q `prefix_of` p -> q <> p ->
  exists a, node_at m q = Some (Directory a).
Proof.
  intros Hwf. revert q. induction p as [|c p IH] using rev_ind; intros q Hp Hq Hne.
  - apply prefix_nil_inv in Hq. contradiction.
  - rewrite node_at_snoc in Hp. destruct (Hwf _ _ Hp) as [a Ha].
    destruct (decide (q = p)) as [-> | Hqp]; [now exists a|].
    apply IH; [now rewrite Ha | | exact Hqp].
    destruct Hq as [k Hk]. destruct k as [|x k] using rev_ind.
    + rewrite app_nil_r in Hk. congruence.
    + rewrite app_assoc in Hk. apply app_inj_tail in Hk as [-> _]. now exists k.
Qed.

(** In a well-formed tree a node that is there is found. *)
Lemma walk_wf (m : gmap path node) (p : path) (n : node) :
  wf_nodes m -> node_at m p = Some n -> walk m [] p = Found n.
Proof.
  intros Hwf Hp. rewrite walk_dirs; simpl; [now rewrite Hp|].
  intros q _ Hq Hne. eapply wf_nodes_prefix; eauto.
Qed.

Lemma walk_wf_Missing (m : gmap path node) (p : path) (e : errno) :
  wf_nodes m -> walk m [] p = Missing e -> node_at m p = None.
Proof.
  intros Hwf H. destruct (node_at m p) as [n|] eqn:E; [|reflexivity].
  rewrite (walk_wf _ _ _ Hwf E) in H. discriminate.
Qed.

End WalkFacts.

(** ** The file system: removing a tree *)

Section RemoveTree.

Import Os.

Lemma is_prefix_true (p q : path) : is_prefix p q = true <-> p `prefix_of` q.
Proof. unfold is_prefix. apply bool_decide_eq_true. Qed.

Lemma is_prefix_false (p q : path) : is_prefix p q = false <-> ~ p `prefix_of` q.
Proof. unfold is_prefix. apply bool_decide_eq_false. Qed.

Lemma blocked_spec (m : gmap path node) (q : path) :
  blocked m q = true <->
  q = [] \/ exists q' n, m !! q' = Some n /\ q `prefix_of` q'
                         /\ a_pinned (node_attrs n) = true.
Proof.
  unfold blocked. destruct q as [|c q]; [tauto|].
  rewrite existsb_exists. split.
  - intros ([q' n] & Hin & H). right. apply andb_true_iff in H as [H1 H2].
    exists q', n. apply list_elem_of_In, elem_of_map_to_list in Hin.
    split; [exact Hin|]. split; [now apply is_prefix_true | exact H2].
  - intros [? | (q' & n & Hl & Hp & Ha)]; [discriminate|].
    exists (q', n). split.
    + now apply list_elem_of_In, elem_of_map_to_list.
    + apply andb_true_iff. split; [now apply is_prefix_true | exact Ha].
Qed.

Lemma blocked_below (m : gmap path node) (p q : path) :
  blocked m p = false -> p `prefix_of` q -> blocked m q = false.
Proof.
  intros Hp Hpq. destruct (blocked m q) eqn:E; [|reflexivity].
  apply blocked_spec in E as [-> | (q' & n & Hl & Hq & Ha)].
  - apply prefix_nil_inv in Hpq. subst. discriminate.
  - assert (blocked m p = true); [|congruence].
    apply blocked_spec. right. exists q', n. repeat split; try assumption.
    now transitivity q.
Qed.

Lemma lookup_remove_tree (m : gmap path node) (p q : path) :
  remove_tree m p !! q
  = if is_prefix p q && negb (blocked m q) then None else m !! q.
Proof.
  unfold remove_tree.
  destruct (is_prefix p q && negb (blocked m q)) eqn:E.
  - apply map_lookup_filter_None. right. intros n _ H. simpl in H.
    apply andb_true_iff in E as [E1 E2]. rewrite (H E1) in E2. discriminate.
  - destruct (m !! q) as [n|] eqn:Hq.
    + apply map_lookup_filter_Some. split; [exact Hq|]. simpl. intros H.
      rewrite H in E. simpl in E. now apply negb_false_iff in E.
    + apply map_lookup_filter_None. now left.
Qed.

(** A removal that succeeds leaves nothing at or below the path. *)
Lemma lookup_remove_tree_ok (m : gmap path node) (p q : path) :
  blocked m p = false ->
  remove_tree m p !! q = if is_prefix p q then None else m !! q.
Proof.
  intros Hp. rewrite lookup_remove_tree.
  destruct (is_prefix p q) eqn:E; [|reflexivity].
  apply is_prefix_true in E. now rewrite (blocked_below _ _ _ Hp E).
Qed.

Lemma remove_tree_subseteq (m : gmap path node) (p q : path) (n : node) :
  remove_tree m p !! q = Some n -> m !! q = Some n.
Proof.
  rewrite lookup_remove_tree. destruct (_ && _); [discriminate | auto].
Qed.

Lemma blocked_up (m : gmap path node) (q c : path) :
  blocked m (q ++ c) = true -> blocked m q = true.
Proof.
  intros H. apply blocked_spec in H. apply blocked_spec.
  destruct H as [H | (q' & n & Hl & Hp & Ha)].
  - left. now apply app_eq_nil in H.
  - right. exists q', n. repeat split; try assumption.
    etrans; [|exact Hp]. now apply prefix_app_r.
Qed.

Lemma wf_remove_tree (m : gmap path node) (p : path) :
  wf_nodes m -> wf_nodes (remove_tree m p).
Proof.
  intros Hwf q c [n Hn]. pose proof Hn as Hn'. apply remove_tree_subseteq in Hn'.
  destruct (Hwf q c (ex_intro _ n Hn')) as [a Ha]. exists a.
  destruct q as [|c0 q0]; [exact Ha|]. set (q := c0 :: q0) in *.
  change (remove_tree m p !! q = Some (Directory a)).
  change (m !! q = Some (Directory a)) in Ha.
  rewrite lookup_remove_tree in Hn |- *.
  destruct (is_prefix p q && negb (blocked m q)) eqn:E; [|exact Ha].
  apply andb_true_iff in E as [E1 E2]. apply negb_true_iff in E2.
  destruct (is_prefix p (q ++ [c]) && negb (blocked m (q ++ [c]))) eqn:E'; [discriminate|].
  apply andb_false_iff in E' as [E' | E'].
  - apply is_prefix_false in E'. apply is_prefix_true in E1.
    exfalso. apply E'. now apply prefix_app_r.
  - apply negb_false_iff in E'. apply blocked_up in E'. congruence.
Qed.

Lemma blocked_remove_tree (m : gmap path node) (p q : path) :
  p `prefix_of` q -> blocked (remove_tree m p) q = blocked m q.
Proof.
  intros Hpq. apply eq_true_iff_eq. rewrite !blocked_spec. split.
  - intros [-> | (q' & n & Hl & Hq & Ha)]; [now left|]. right.
    exists q', n. split; [now apply remove_tree_subseteq in Hl | now split].
  - intros [-> | (q' & n & Hl & Hq & Ha)]; [now left|]. right.
    exists q', n. split; [|now split].
    rewrite lookup_remove_tree.
    assert (blocked m q' = true) as ->.
    { apply blocked_spec. right. exists q', n. repeat split; [exact Hl | | exact Ha].
      reflexivity. }
    now rewrite andb_false_r.
Qed.

Lemma remove_tree_idemp (m : gmap path node) (p : path) :
  remove_tree (remove_tree m p) p = remove_tree m p.
Proof.
  apply map_eq. intros q. rewrite lookup_remove_tree.
  destruct (is_prefix p q) eqn:E; [|reflexivity]. simpl.
  rewrite blocked_remove_tree by now apply is_prefix_true.
  destruct (blocked m q) eqn:B; [reflexivity|]. simpl.
  rewrite lookup_remove_tree, E, B. reflexivity.
Qed.

End RemoveTree.

(** ** The file system: creating directories *)

Section MakeDirs.

Import Os.

Lemma prefix_snoc_between (above q todo : path) (c : string) :
  above `prefix_of` q -> q `prefix_of` (above ++ c :: todo) -> q <> above ->
  (above ++ [c]) `prefix_of` q.
Proof.
  intros [k ->] H Hne. apply prefix_app_inv in H.
  destruct k as [|c' k]; [now rewrite app_nil_r in Hne|].
  apply prefix_cons_inv_1 in H. subst c'. exists k. now rewrite <- app_assoc.
Qed.

Lemma prefix_longer_ne (above q : path) (c : string) :
  (above ++ [c]) `prefix_of` q -> q <> above.
Proof.
  intros H ->. apply prefix_length in H. rewrite length_app in H. simpl in H. lia.
Qed.

(** [mkdir_walk] only adds directories, on the way down. *)
Lemma mkdir_walk_lookup (a : attrs) (todo : path) :
  forall (m : gmap path node) (above : path) r m',
    mkdir_walk a m above todo = (r, m') ->
    forall q, m' !! q = m !! q
              \/ (m !! q = None /\ m' !! q = Some (Directory a)
                  /\ above `prefix_of` q /\ q `prefix_of` (above ++ todo)
                  /\ q <> above).
Proof.
  induction todo as [|c todo IH]; intros m above r m' H q; simpl in H.
  - inversion H; subst. now left.
  - destruct (m !! (above ++ [c])) as [[a0|a0 d]|] eqn:E.
    + destruct (IH _ _ _ _ H q) as [Hq | (H1 & H2 & H3 & H4 & H5)]; [now left|].
      right. rewrite <- app_assoc in H4. repeat split; try assumption.
      * etrans; [|exact H3]. now apply prefix_app_r.
      * now apply prefix_longer_ne in H3.
    + inversion H; subst. now left.
    + destruct (IH _ _ _ _ H q) as [Hq | (H1 & H2 & H3 & H4 & H5)].
      * destruct (decide (q = above ++ [c])) as [-> | Hne].
        -- right. rewrite lookup_insert_eq in Hq. repeat split; try assumption.
           ++ now apply prefix_app_r.
           ++ apply prefix_app, prefix_cons, prefix_nil.
           ++ apply (prefix_longer_ne _ _ c). reflexivity.
        -- left. now rewrite lookup_insert_ne in Hq.
      * right. rewrite lookup_insert_ne in H1 by congruence.
        rewrite <- app_assoc in H4. repeat split; try assumption.
        -- etrans; [|exact H3]. now apply prefix_app_r.
        -- now apply prefix_longer_ne in H3.
Qed.

Lemma mkdir_walk_keeps (a : attrs) (todo : path) (m : gmap path node)
    (above : path) r m' (q : path) (n : node) :
  mkdir_walk a m above todo = (r, m') -> m !! q = Some n -> m' !! q = Some n.
Proof.
  intros H Hq. destruct (mkdir_walk_lookup _ _ _ _ _ _ H q) as [-> | (H1 & _)];
    congruence.
Qed.

(** When it succeeds, every directory on the way is there. *)
Lemma mkdir_walk_ok (a : attrs) (todo : path) :
  forall (m : gmap path node) (above : path) m',
    mkdir_walk a m above todo = (None, m') ->
    forall q, above `prefix_of` q -> q `prefix_of` (above ++ todo) -> q <> above ->
              exists a', m' !! q = Some (Directory a').
Proof.
  induction todo as [|c todo IH]; intros m above m' H q Hq1 Hq2 Hne.
  - rewrite app_nil_r in Hq2. exfalso. apply Hne.
    now apply (anti_symm prefix).
  - pose proof (prefix_snoc_between _ _ _ _ Hq1 Hq2 Hne) as Hq0.
    simpl in H. destruct (m !! (above ++ [c])) as [[a0|a0 d]|] eqn:E;
      [| discriminate |].
    + destruct (decide (q = above ++ [c])) as [-> | Hne'].
      * exists a0. eapply mkdir_walk_keeps; eauto.
      * eapply IH; eauto. now rewrite <- app_assoc.
    + destruct (decide (q = above ++ [c])) as [-> | Hne'].
      * exists a. eapply mkdir_walk_keeps; eauto. apply lookup_insert_eq.
      * eapply IH; eauto. now rewrite <- app_assoc.
Qed.

Lemma snoc_ne (q : path) (c : string) : q <> (q ++ [c])%list.
Proof.
  intros E. apply (f_equal length) in E. rewrite length_app in E. simpl in E. lia.
Qed.

Lemma node_at_insert_ne (m : gmap path node) (k q : path) (n : node) :
  q <> k -> node_at (<[k := n]> m) q = node_at m q.
Proof.
  intros Hne. destruct q; [reflexivity|]. simpl. now rewrite lookup_insert_ne.
Qed.

Lemma wf_nodes_insert_dir (m : gmap path node) (above : path) (c : string) (a : attrs) :
  wf_nodes m -> (exists a0, node_at m above = Some (Directory a0)) ->
  m !! (above ++ [c]) = None ->
  wf_nodes (<[(above ++ [c])%list := Directory a]> m).
Proof.
  intros Hwf [a0 Ha0] Hnone q c' Hs.
  destruct (decide (q ++ [c'] = above ++ [c])) as [E | Hne].
  - apply app_inj_tail in E as [-> ->]. exists a0.
    rewrite node_at_insert_ne; [exact Ha0 | apply snoc_ne].
  - rewrite lookup_insert_ne in Hs by congruence.
    destruct (Hwf _ _ Hs) as [a' Ha']. exists a'.
    rewrite node_at_insert_ne; [exact Ha'|].
    intros ->. rewrite node_at_snoc in Ha'. congruence.
Qed.

Lemma mkdir_walk_wf (a : attrs) (todo : path) :
  forall (m : gmap path node) (above : path) r m',
    wf_nodes m -> (exists a0, node_at m above = Some (Directory a0)) ->
    mkdir_walk a m above todo = (r, m') -> wf_nodes m'.
Proof.
  induction todo as [|c todo IH]; intros m above r m' Hwf Ha H; simpl in H.
  - now inversion H; subst.
  - destruct (m !! (above ++ [c])) as [[a0|a0 d]|] eqn:E.
    + eapply IH; [exact Hwf | | exact H]. exists a0. now rewrite node_at_snoc.
    + now inversion H; subst.
    + eapply IH; [| | exact H].
      * now apply wf_nodes_insert_dir.
      * exists a. rewrite node_at_snoc. apply lookup_insert_eq.
Qed.

(** Where every directory on the way is there, nothing is done. *)
Lemma mkdir_walk_noop (a : attrs) (todo : path) :
  forall (m : gmap path node) (above : path),
    (forall q, above `prefix_of` q -> q `prefix_of` (above ++ todo) -> q <> above ->
               exists a', m !! q = Some (Directory a')) ->
    mkdir_walk a m above todo = (None, m).
Proof.
  induction todo as [|c todo IH]; intros m above H; [reflexivity|]. simpl.
  destruct (H (above ++ [c])) as [a' ->].
  - now apply prefix_app_r.
  - apply prefix_app, prefix_cons, prefix_nil.
  - apply (prefix_longer_ne _ _ c). reflexivity.
  - apply IH. intros q Hq1 Hq2 Hne. rewrite <- app_assoc in Hq2.
    apply H; [|exact Hq2|].
    + etrans; [|exact Hq1]. now apply prefix_app_r.
    + now apply prefix_longer_ne in Hq1.
Qed.


End MakeDirs.

(** ** The file-system calls on absolute paths *)

Section HostCalls.

Import Os.

Lemma nodes_with_nodes (h : host) (m : gmap path node) : nodes (with_nodes h m) = m.
Proof. reflexivity. Qed.

Lemma with_nodes_with_nodes (h : host) (m m' : gmap path node) :
  with_nodes (with_nodes h m) m' = with_nodes h m'.
Proof. reflexivity. Qed.

Lemma with_nodes_id (h : host) : with_nodes h (nodes h) = h.
Proof. now destruct h. Qed.

Lemma fresh_attrs_with_nodes (h : host) (m : gmap path node) (perm : Z) :
  fresh_attrs (with_nodes h m) perm = fresh_attrs h perm.
Proof. reflexivity. Qed.

Lemma MkdirAll_abs (p : path) (perm : Z) (h : host) :
  Forall (fun e => elem_ok e = true) p ->
  MkdirAll (abs_path p) perm h
  = match mkdir_walk (fresh_attrs h perm) (nodes h) [] p with
    | (Some e, m) => (Some (PathError "mkdir" (abs_path p) e), with_nodes h m)
    | (None, m) => (None, with_nodes h m)
    end.
Proof. intros H. unfold MkdirAll. now rewrite resolve_abs_path. Qed.

Lemma Lstat_abs (p : path) (h : host) :
  Forall (fun e => elem_ok e = true) p ->
  Lstat (abs_path p) h
  = match stat h p with
    | Found n => inl n
    | Missing e => inr (PathError "lstat" (abs_path p) e)
    end.
Proof. intros H. unfold Lstat. now rewrite resolve_abs_path. Qed.

Lemma ends_sep_dot_no_sep (b : string) :
  GoStrings.Contains b Filepath.Separator = false -> ends_sep_dot b = false.
Proof.
  induction b as [|a b IH]; [reflexivity|]. simpl.
  destruct (Ascii.eqb a Filepath.Separator) eqn:Ha; [discriminate|].
  intros Hb. destruct b as [|b1 [|b2 b]]; [reflexivity | reflexivity|].
  exact (IH Hb).
Qed.

Lemma ends_sep_dot_append (x b : string) :
  elem_ok b = true -> ends_sep_dot (x +:+ String Filepath.Separator b) = false.
Proof.
  intros Hb. apply elem_ok_inv in Hb as (Hb1 & Hb2 & _ & Hb4).
  induction x as [|a x IH].
  - rewrite append_nil_l. destruct b as [|b1 [|b2 b]]; [discriminate| |].
    + simpl. destruct (Ascii.eqb b1 "."%char) eqn:E; [|reflexivity].
      apply Ascii.eqb_eq in E. subst. discriminate.
    + change (ends_sep_dot (String b1 (String b2 b)) = false).
      now apply ends_sep_dot_no_sep.
  - rewrite append_cons.
    destruct (x +:+ String Filepath.Separator b) as [|c1 [|c2 r]] eqn:E.
    + destruct x; discriminate.
    + destruct x as [|x1 x]; [|destruct x; discriminate].
      rewrite append_nil_l in E. inversion E; subst. discriminate.
    + exact IH.
Qed.

Lemma endsWithDot_abs (p : path) :
  Forall (fun e => elem_ok e = true) p -> endsWithDot (abs_path p) = false.
Proof.
  intros H. unfold endsWithDot. apply orb_false_iff. split; [reflexivity|].
  induction p as [|b p _] using rev_ind; [reflexivity|].
  apply Forall_app in H as [_ Hb]. inversion Hb as [|? ? Hb' _]; subst.
  rewrite abs_path_snoc. now apply ends_sep_dot_append.
Qed.

Lemma RemoveAll_abs (p : path) (h : host) :
  Forall (fun e => elem_ok e = true) p ->
  RemoveAll (abs_path p) h
  = match stat h p with
    | Missing ENOENT => (None, h)
    | Missing e => (Some (PathError "unlinkat" (abs_path p) e), h)
    | Found _ =>
        (if blocked (nodes h) p then Some (PathError "unlinkat" (abs_path p) EBUSY)
         else None,
         with_nodes h (remove_tree (nodes h) p))
    end.
Proof.
  intros H. unfold RemoveAll. now rewrite resolve_abs_path, endsWithDot_abs.
Qed.

Lemma OpenFile_abs (p : path) (perm : Z) (h : host) :
  Forall (fun e => elem_ok e = true) p ->
  OpenFile (abs_path p) perm h
  = match stat h (parent p) with
    | Missing e => (inr (PathError "open" (abs_path p) e), h)
    | Found (Regular _ _) => (inr (PathError "open" (abs_path p) ENOTDIR), h)
    | Found (Directory _) =>
        match node_at (nodes h) p with
        | Some (Directory _) => (inr (PathError "open" (abs_path p) EISDIR), h)
        | Some (Regular a _) =>
            let a' := {| a_perm := a_perm a; a_uid := a_uid a; a_gid := a_gid a;
                         a_atime := a_atime a; a_mtime := now h;
                         a_pinned := a_pinned a |} in
            (inl p, with_nodes h (<[p := Regular a' ""]> (nodes h)))
        | None =>
            (inl p, with_nodes h (<[p := Regular (fresh_attrs h perm) ""]> (nodes h)))
        end
    end.
Proof. intros H. unfold OpenFile. now rewrite resolve_abs_path. Qed.

Lemma update_attrs_abs (op : string) (p : path) (f : attrs -> attrs) (h : host) :
  Forall (fun e => elem_ok e = true) p ->
  update_attrs op (abs_path p) f h
  = match stat h p with
    | Missing e => (Some (PathError op (abs_path p) e), h)
    | Found _ =>
        (None, with_nodes h (alter (fun n => set_attrs n (f (node_attrs n))) p (nodes h)))
    end.
Proof. intros H. unfold update_attrs. now rewrite resolve_abs_path. Qed.

End HostCalls.

(** ** [extractTarEntry] *)

Section ExtractFacts.

Import Os.

Lemma extractTarEntry_abs (i : DirImage) (header : Tar.Header) (input : string)
    (ierr : option error) (h : host) :
  Filepath.rooted (dirPath i) = true ->
  extractTarEntry i header input ierr h
  = let p := entry_path i (Tar.Name header) in
    match MkdirAll (abs_path (parent p)) (Tar.octal 7 7 7) h with
    | (Some err, h) => (Some err, h)
    | (None, h) =>
        let t := Tar.Typeflag header in
        if Ascii.eqb t Tar.TypeDir then (None, h)
        else if is_regular t then
          match OpenFile (abs_path p) (permMode (Tar.FileInfo_Mode header)) h with
          | (inr err, h) => (Some err, h)
          | (inl file, h) =>
              match Copy file input ierr h with
              | (Some err, h) => (Some err, h)
              | (None, h) =>
                  match (if shouldChown i
                         then Lchown (abs_path p) (Tar.Uid header) (Tar.Gid header) h
                         else (None, h)) with
                  | (Some err, h) => (Some err, h)
                  | (None, h) => lchtimes header (abs_path p) h
                  end
              end
          end
        else if Ascii.eqb t Tar.TypeLink || Ascii.eqb t Tar.TypeSymlink then (None, h)
        else if Ascii.eqb t Tar.TypeChar || Ascii.eqb t Tar.TypeBlock
                || Ascii.eqb t Tar.TypeFifo then (None, h)
        else (Some (unsupported header), h)
    end.
Proof.
  intros Hr. unfold extractTarEntry.
  rewrite (hydrateFilepath_abs _ _ Hr), Dir_abs_path by apply entry_path_ok.
  reflexivity.
Qed.

Lemma parent_ok (p : path) :
  Forall (fun e => elem_ok e = true) p -> Forall (fun e => elem_ok e = true) (parent p).
Proof.
  intros H. induction p as [|b p _] using rev_ind; [constructor|].
  unfold parent. rewrite removelast_last. now apply Forall_app in H as [H _].
Qed.

Lemma not_prefix_parent (p : path) : p <> [] -> ~ p `prefix_of` parent p.
Proof.
  intros Hne H. induction p as [|b p _] using rev_ind; [contradiction|].
  unfold parent in H. rewrite removelast_last in H.
  apply prefix_length in H. rewrite length_app in H. simpl in H. lia.
Qed.

Lemma lchtimes_regular (header : Tar.Header) (s : string) (h : host) :
  is_regular (Tar.Typeflag header) = true ->
  lchtimes header s h
  = Chtimes s (Z.max (Tar.AccessTime header) (Tar.ModTime header)) (Tar.ModTime header) h.
Proof.
  intros Ht. unfold lchtimes.
  assert (Hmax : (if Tar.AccessTime header <? Tar.ModTime header
                  then Tar.ModTime header else Tar.AccessTime header)
                 = Z.max (Tar.AccessTime header) (Tar.ModTime header)).
  { destruct (Z.ltb_spec (Tar.AccessTime header) (Tar.ModTime header)); lia. }
  rewrite Hmax. unfold is_regular in Ht.
  apply orb_true_iff in Ht as [Ht | Ht]; apply Ascii.eqb_eq in Ht; rewrite Ht;
    reflexivity.
Qed.

Lemma stat_with_nodes (h : host) (m : gmap path node) (p : path) :
  stat (with_nodes h m) p = walk m [] p.
Proof. reflexivity. Qed.

(** A regular entry written where nothing was: the file has the bytes of the
    entry and the attributes the extractor computes. *)
Lemma extractTarEntry_regular_created (i : DirImage) (header : Tar.Header)
    (input : string) (ierr : option error) (h h' : host) :
  Filepath.rooted (dirPath i) = true ->
  is_regular (Tar.Typeflag header) = true ->
  nodes h !! entry_path i (Tar.Name header) = None ->
  extractTarEntry i header input ierr h = (None, h') ->
  nodes h' !! entry_path i (Tar.Name header)
  = Some (Regular (written_attrs i header h) input).
Proof.
  intros Hr Ht Hnone. rewrite extractTarEntry_abs by exact Hr.
  set (p := entry_path i (Tar.Name header)) in *. cbv zeta.
  assert (Hok : Forall (fun e => elem_ok e = true) p) by apply entry_path_ok.
  rewrite MkdirAll_abs by now apply parent_ok.
  destruct (mkdir_walk _ (nodes h) [] (parent p)) as [[e|] m1] eqn:Hmk;
    [discriminate|].
  assert (Hdir : Ascii.eqb (Tar.Typeflag header) Tar.TypeDir = false).
  { unfold is_regular in Ht. apply orb_true_iff in Ht as [Ht | Ht];
      apply Ascii.eqb_eq in Ht; now rewrite Ht. }
  rewrite Hdir, Ht. rewrite OpenFile_abs by exact Hok.
  rewrite stat_with_nodes. destruct (walk m1 [] (parent p)) as [[ad|ar dr]|e];
    [|discriminate..].
  rewrite nodes_with_nodes.
  destruct p as [|c0 p0] eqn:Ep; [discriminate|]. rewrite <- Ep in *.
  assert (Hp : p <> []) by (rewrite Ep; discriminate).
  assert (Hm1 : m1 !! p = None).
  { destruct (mkdir_walk_lookup _ _ _ _ _ _ Hmk p) as [-> | (_ & _ & _ & H & _)];
      [exact Hnone|]. now apply not_prefix_parent in H. }
  rewrite (node_at_ne _ _ Hp), Hm1. rewrite with_nodes_with_nodes.
  unfold Copy. rewrite nodes_with_nodes, with_nodes_with_nodes.
  destruct ierr as [e|]; [discriminate|].
  rewrite alter_insert_eq.
  assert (Hfin : forall m a,
    lchtimes header (abs_path p) (with_nodes h (<[p := Regular a input]> m)) = (None, h') ->
    nodes h' !! p
    = Some (Regular {| a_perm := a_perm a; a_uid := a_uid a; a_gid := a_gid a;
                       a_atime := Z.max (Tar.AccessTime header) (Tar.ModTime header);
                       a_mtime := Tar.ModTime header;
                       a_pinned := a_pinned a |} input)).
  { intros m a. rewrite lchtimes_regular by exact Ht.
    unfold Chtimes. rewrite update_attrs_abs by exact Hok.
    rewrite stat_with_nodes. destruct (walk _ [] p) as [n|e]; [|discriminate].
    intros H. inversion H; subst h'. rewrite nodes_with_nodes.
    now rewrite alter_insert_eq, lookup_insert_eq. }
  unfold written_attrs. destruct (shouldChown i) eqn:Hch.
  - unfold Lchown. rewrite update_attrs_abs by exact Hok.
    rewrite stat_with_nodes. destruct (walk _ [] p) as [n|e]; [|discriminate].
    rewrite nodes_with_nodes, with_nodes_with_nodes, alter_insert_eq.
    intros H. now rewrite (Hfin _ _ H).
  - intros H. now rewrite (Hfin _ _ H).
Qed.

End ExtractFacts.

(** ** Containment of [hydrateFilepath] *)

Section Containment.

Import Filepath.

Lemma Join_app (a b : list string) (c : ascii) :
  a <> [] -> b <> [] ->
  GoStrings.Join (a ++ b) c = GoStrings.Join a c +:+ String c (GoStrings.Join b c).
Proof.
  intros Ha Hb. induction a as [|e a IH]; [contradiction|].
  destruct a as [|e' a].
  - simpl app. now rewrite Join_cons.
  - change ((e :: e' :: a) ++ b) with (e :: ((e' :: a) ++ b)).
    rewrite Join_cons by (simpl; discriminate).
    rewrite IH by discriminate.
    rewrite (Join_cons e (e' :: a)) by discriminate. now rewrite append_assoc.
Qed.

Lemma abs_path_app (p q : path) :
  q <> [] ->
  abs_path (p ++ q)
  = match p with [] => "" | _ => abs_path p end
      +:+ String Separator (GoStrings.Join q Separator).
Proof.
  intros Hq. unfold abs_path, render. destruct p as [|e p]; [reflexivity|].
  rewrite Join_app by (assumption || discriminate). reflexivity.
Qed.

Lemma abs_path_not_slash (e : string) (p : path) :
  elem_ok e = true -> String.eqb (abs_path (e :: p)) "/" = false.
Proof.
  intros He. apply elem_ok_inv in He as (He & _). apply String.eqb_neq in He.
  apply String.eqb_neq. unfold abs_path, render. intros E. inversion E as [E'].
  destruct p as [|e' p]; [now simpl in E'|].
  change (e +:+ String Separator (GoStrings.Join (e' :: p) Separator) = "") in E'.
  destruct e; [contradiction | now rewrite append_cons in E'].
Qed.

Lemma no_dotdot_Forall (fPath : string) :
  no_dotdot fPath = true ->
  Forall (fun e => String.eqb e ".." = false) (name_elems fPath).
Proof.
  unfold no_dotdot. rewrite forallb_forall. intros H. apply List.Forall_forall.
  intros e He. apply H in He. now apply negb_true_iff in He.
Qed.

(** C1, as amended. For an absolute destination and an entry name none of
    whose elements (cut at [/] and at [\]) is [..], also a name that looks
    absolute, [hydrateFilepath] gives the destination root followed by the
    names of the entry: the root itself or a path below it. No name is
    rejected. *)
Theorem hydrateFilepath_contained (i : DirImage) (fPath : string) :
  rooted (dirPath i) = true ->
  no_dotdot fPath = true ->
  hydrateFilepath i fPath
  = abs_path (root_path i ++ List.filter kept (name_elems fPath))
  /\ within_root (dirPath i) (hydrateFilepath i fPath) = true.
Proof.
  intros Hr Hd. apply no_dotdot_Forall in Hd.
  rewrite (hydrateFilepath_abs _ _ Hr), (entry_path_no_dotdot _ _ Hd).
  split; [reflexivity|]. unfold within_root.
  rewrite (Clean_rooted _ Hr). fold (root_path i).
  destruct (List.filter kept (name_elems fPath)) as [|k ks] eqn:Ek.
  - rewrite app_nil_r, String.eqb_refl. reflexivity.
  - apply orb_true_iff. right. rewrite abs_path_app by discriminate.
    pose proof (root_path_ok i) as Hok.
    destruct (root_path i) as [|e rc] eqn:Erc.
    + rewrite append_nil_l.
      change (GoStrings.HasPrefix ("/" +:+ GoStrings.Join (k :: ks) Separator) "/" = true).
      apply HasPrefix_append.
    + inversion Hok; subst. rewrite abs_path_not_slash by assumption.
      change (String Separator (GoStrings.Join (k :: ks) Separator))
        with ("/" +:+ GoStrings.Join (k :: ks) Separator).
      rewrite <- append_assoc. apply HasPrefix_append.
Qed.

Lemma hydrateFilepath_contained_witness :
  hydrateFilepath (dir_image "/dest" []) "/etc\..a\.\passwd" = "/dest/etc/..a/passwd"
  /\ within_root "/dest" (hydrateFilepath (dir_image "/dest" []) "/etc\..a\.\passwd") = true.
Proof.
  destruct (hydrateFilepath_contained (dir_image "/dest" []) "/etc\..a\.\passwd")
    as [H1 H2]; [reflexivity | reflexivity |].
  split; [rewrite H1; reflexivity | exact H2].
Defined.

(** C1 as stated fails: a name with a [..] element resolves outside the
    destination root, no error is raised, and the entry is written there. *)
Lemma traversal_escapes_root :
  let i := dir_image "/dest" [layer_of "sha256:1" [(mk_header Tar.TypeReg "../evil" 420, "X")]] in
  hydrateFilepath i "../evil" = "/evil"
  /\ within_root "/dest" (hydrateFilepath i "../evil") = false
  /\ (AsDirectory i empty_host).1.1 = None
  /\ file_data "/evil" (AsDirectory i empty_host).1.2 = Some "X".
Proof. vm_compute. repeat split. Qed.

End Containment.

(** ** Entry types *)

Section EntryTypes.

Import Os.

(** Creating the parent directories leaves the node at the path as it was. *)
Lemma mkdir_parent_keeps (a : attrs) (m m' : gmap path node) (p : path) r :
  mkdir_walk a m [] (parent p) = (r, m') -> m' !! p = m !! p.
Proof.
  intros H. destruct (mkdir_walk_lookup _ _ _ _ _ _ H p) as [-> | (_ & _ & _ & H1 & H2)];
    [reflexivity|].
  destruct (decide (p = [])) as [-> | Hne]; [contradiction|].
  now apply not_prefix_parent in H1.
Qed.

Lemma MkdirAll_parent_keeps (p : path) (perm : Z) (h : host) :
  Forall (fun e => elem_ok e = true) p ->
  nodes (MkdirAll (abs_path (parent p)) perm h).2 !! p = nodes h !! p.
Proof.
  intros Hok. rewrite MkdirAll_abs by now apply parent_ok.
  destruct (mkdir_walk _ (nodes h) [] (parent p)) as [[e|] m1] eqn:Hmk; simpl;
    eapply mkdir_parent_keeps; eauto.
Qed.

Lemma is_skipped_inv (t : ascii) :
  is_skipped t = true ->
  Ascii.eqb t Tar.TypeDir = false /\ is_regular t = false
  /\ (Ascii.eqb t Tar.TypeLink || Ascii.eqb t Tar.TypeSymlink
      || (Ascii.eqb t Tar.TypeChar || Ascii.eqb t Tar.TypeBlock
          || Ascii.eqb t Tar.TypeFifo)) = true.
Proof.
  unfold is_skipped. intros H. rewrite !orb_true_iff, !Ascii.eqb_eq in H.
  destruct H as [[[[-> | ->] | ->] | ->] | ->]; vm_compute; repeat split; reflexivity.
Qed.

Lemma extractTarEntry_skipped (i : DirImage) (header : Tar.Header)
    (input : string) (ierr : option error) (h : host) :
  is_skipped (Tar.Typeflag header) = true ->
  extractTarEntry i header input ierr h
  = MkdirAll (Filepath.Dir (hydrateFilepath i (Tar.Name header))) (Tar.octal 7 7 7) h.
Proof.
  intros Ht. apply is_skipped_inv in Ht as (H1 & H2 & H3).
  unfold extractTarEntry.
  destruct (MkdirAll _ _ h) as [[e|] h1]; [reflexivity|].
  rewrite H1. unfold is_regular in H2. rewrite H2.
  apply orb_true_iff in H3 as [-> | ->]; [reflexivity|].
  destruct (Ascii.eqb _ Tar.TypeLink || _); reflexivity.
Qed.

Lemma extractTarEntry_dir (i : DirImage) (header : Tar.Header)
    (input : string) (ierr : option error) (h : host) :
  Tar.Typeflag header = Tar.TypeDir ->
  extractTarEntry i header input ierr h
  = MkdirAll (Filepath.Dir (hydrateFilepath i (Tar.Name header))) (Tar.octal 7 7 7) h.
Proof.
  intros Ht. unfold extractTarEntry.
  destruct (MkdirAll _ _ h) as [[e|] h1]; [reflexivity|].
  now rewrite Ht.
Qed.

Lemma Dir_hydrateFilepath (i : DirImage) (fPath : string) :
  Filepath.rooted (dirPath i) = true ->
  Filepath.Dir (hydrateFilepath i fPath) = abs_path (parent (entry_path i fPath)).
Proof.
  intros Hr. rewrite (hydrateFilepath_abs _ _ Hr). apply Dir_abs_path, entry_path_ok.
Qed.

(** C6, as amended. For an entry of directory type [extractTarEntry] does
    what [MkdirAll] does on the parent of the entry's path and nothing more:
    under an absolute destination the node at the entry's own path is what
    it was, so the directory is there afterwards only if it was before. *)
Theorem directory_entry_creates_parents_only (i : DirImage) (header : Tar.Header)
    (input : string) (ierr : option error) (h : host) :
  Tar.Typeflag header = Tar.TypeDir ->
  Filepath.rooted (dirPath i) = true ->
  extractTarEntry i header input ierr h
  = MkdirAll (Filepath.Dir (hydrateFilepath i (Tar.Name header))) (Tar.octal 7 7 7) h
  /\ nodes (extractTarEntry i header input ierr h).2 !! entry_path i (Tar.Name header)
     = nodes h !! entry_path i (Tar.Name header).
Proof.
  intros Ht Hr. rewrite (extractTarEntry_dir _ _ _ _ _ Ht). split; [reflexivity|].
  rewrite (Dir_hydrateFilepath _ _ Hr). apply MkdirAll_parent_keeps, entry_path_ok.
Qed.

Lemma directory_entry_creates_parents_only_witness :
  let i := dir_image "/dest" [] in
  let header := mk_header Tar.TypeDir "a/b" 493 in
  extractTarEntry i header "" None empty_host
  = MkdirAll "/dest/a" 511 empty_host
  /\ nodes (extractTarEntry i header "" None empty_host).2 !! ["dest"; "a"; "b"] = None.
Proof.
  destruct (directory_entry_creates_parents_only (dir_image "/dest" [])
              (mk_header Tar.TypeDir "a/b" 493) "" None empty_host)
    as [H1 H2]; [reflexivity | reflexivity |].
  split; [exact H1 | exact H2].
Defined.

(** C6 as stated fails: after a run over a layer with the directory entry
    [a/b], the parent [a] is there and the directory [a/b] is not. *)
Lemma directory_entry_not_created :
  let i := dir_image "/dest" [layer_of "sha256:1" [(mk_header Tar.TypeDir "a/b" 493, "")]] in
  (AsDirectory i empty_host).1.1 = None
  /\ is_dir "/dest/a" (AsDirectory i empty_host).1.2 = true
  /\ exists_at "/dest/a/b" (AsDirectory i empty_host).1.2 = false.
Proof. vm_compute. repeat split. Qed.

(** C8, as amended. For a symbolic link, hard link, character device, block
    device or FIFO, [extractTarEntry] does what [MkdirAll] does on the parent
    of the entry's path and nothing more: no node appears at the path of the
    entry, and the only error is that of creating the parents. For a type
    that is neither one of these nor a directory nor a regular file it
    returns an error: the unsupported-type error, naming the type and the
    name, once the parents are created, the error of creating them
    otherwise. *)
Theorem skipped_and_unsupported_types (i : DirImage) (header : Tar.Header)
    (input : string) (ierr : option error) (h : host) :
  let t := Tar.Typeflag header in
  let dir := Filepath.Dir (hydrateFilepath i (Tar.Name header)) in
  (is_skipped t = true ->
   extractTarEntry i header input ierr h = MkdirAll dir (Tar.octal 7 7 7) h
   /\ (Filepath.rooted (dirPath i) = true ->
       nodes (extractTarEntry i header input ierr h).2 !! entry_path i (Tar.Name header)
       = nodes h !! entry_path i (Tar.Name header)))
  /\ (is_skipped t = false -> is_regular t = false -> t <> Tar.TypeDir ->
      exists err, (extractTarEntry i header input ierr h).1 = Some err
        /\ ((MkdirAll dir (Tar.octal 7 7 7) h).1 = None ->
            err = Errorf ("Unsupported tar entry type '" +:+ fmt_c t
                          +:+ "' for file '" +:+ Tar.Name header +:+ "'"))).
Proof.
  intros t dir. split.
  - intros Ht. rewrite (extractTarEntry_skipped _ _ _ _ _ Ht). split; [reflexivity|].
    intros Hr. unfold dir. rewrite (Dir_hydrateFilepath _ _ Hr).
    apply MkdirAll_parent_keeps, entry_path_ok.
  - intros H1 H2 H3. unfold extractTarEntry. fold dir.
    destruct (MkdirAll dir _ h) as [[e|] h1].
    + exists e. split; [reflexivity | discriminate].
    + fold t. apply Ascii.eqb_neq in H3. rewrite H3.
      unfold is_regular in H2. rewrite H2.
      unfold is_skipped in H1. rewrite !orb_false_iff in H1.
      destruct H1 as [[[[-> ->] ->] ->] ->]. simpl.
      exists (unsupported header). split; reflexivity.
Qed.

Lemma skipped_and_unsupported_types_witness :
  extractTarEntry (dir_image "/dest" []) (mk_header Tar.TypeSymlink "a/b" 511) "" None empty_host
  = MkdirAll "/dest/a" 511 empty_host
  /\ (extractTarEntry (dir_image "/dest" []) (mk_header "7"%char "a/b" 420) "" None empty_host).1
     = Some (Errorf "Unsupported tar entry type '7' for file 'a/b'").
Proof.
  pose proof (skipped_and_unsupported_types (dir_image "/dest" [])
                (mk_header Tar.TypeSymlink "a/b" 511) "" None empty_host) as [H1 _].
  pose proof (skipped_and_unsupported_types (dir_image "/dest" [])
                (mk_header "7"%char "a/b" 420) "" None empty_host) as [_ H2].
  split.
  - exact (proj1 (H1 eq_refl)).
  - destruct H2 as (err & He & Hm); [reflexivity | reflexivity | discriminate |].
    rewrite He. f_equal. exact (Hm eq_refl).
Defined.

(** C8 as stated fails twice. A symbolic-link entry below a regular file
    fails the run, which succeeds without that entry; and an entry of an
    unsupported type whose name makes it a whiteout does not fail the run. *)
Lemma skipped_type_can_fail_the_run :
  let file := (mk_header Tar.TypeReg "a" 420, "X") in
  let link := (mk_header Tar.TypeSymlink "a/b" 511, "") in
  let odd := (mk_header "7"%char ".wh.x" 420, "") in
  (AsDirectory (dir_image "/dest" [layer_of "sha256:1" [file; link]]) empty_host).1.1
  = Some (PathError "mkdir" "/dest/a" ENOTDIR)
  /\ (AsDirectory (dir_image "/dest" [layer_of "sha256:1" [file]]) empty_host).1.1 = None
  /\ (AsDirectory (dir_image "/dest" [layer_of "sha256:1" [odd]]) empty_host).1.1 = None.
Proof. vm_compute. repeat split. Qed.

End EntryTypes.

(** ** File modes *)

Section FileModes.

Import Os.

(** For a regular entry whose stored mode is made of permission bits only,
    [FileInfo().Mode()] is the stored mode. *)
Lemma FileInfo_Mode_perm (header : Tar.Header) :
  is_regular (Tar.Typeflag header) = true ->
  0 <= Tar.Mode header < 512 ->
  Tar.FileInfo_Mode header = Tar.Mode header.
Proof.
  intros Ht Hm. unfold Tar.FileInfo_Mode.
  assert (Hones : Tar.Mode header = Z.land (Tar.Mode header) (Z.ones 9)).
  { rewrite Z.land_ones by lia. symmetry. apply Z.mod_small. exact Hm. }
  assert (Hzero : forall b, Z.land (Z.ones 9) b = 0 -> Z.land (Tar.Mode header) b = 0).
  { intros b Hb. rewrite Hones, <- Z.land_assoc, Hb. apply Z.land_0_r. }
  rewrite (Z.mod_small (Tar.Mode header)) by lia.
  rewrite (Hzero Tar.c_ISUID eq_refl), (Hzero Tar.c_ISGID eq_refl),
    (Hzero Tar.c_ISVTX eq_refl), (Hzero (Z.lnot (7 * 512 + Tar.ModePerm)) eq_refl).
  cbn [negb Tar.flag_if Z.eqb].
  assert (Hperm : Z.land (Tar.Mode header) Tar.ModePerm = Tar.Mode header).
  { change Tar.ModePerm with (Z.ones 9). now rewrite <- Hones. }
  rewrite Hperm.
  assert (Hflag : forall (A : Type) (a b c d e z : A),
    (if Ascii.eqb (Tar.Typeflag header) Tar.TypeSymlink then a
     else if Ascii.eqb (Tar.Typeflag header) Tar.TypeChar then b
     else if Ascii.eqb (Tar.Typeflag header) Tar.TypeBlock then c
     else if Ascii.eqb (Tar.Typeflag header) Tar.TypeDir then d
     else if Ascii.eqb (Tar.Typeflag header) Tar.TypeFifo then e
     else z) = z).
  { intros. unfold is_regular in Ht.
    apply orb_true_iff in Ht as [Ht | Ht]; apply Ascii.eqb_eq in Ht; rewrite Ht;
      reflexivity. }
  rewrite Hflag. cbn. now rewrite !Z.lor_0_r.
Qed.

(** C5. A file that [extractTarEntry] creates for a regular entry, where
    nothing was, has the bytes of the entry and this mode: the entry's mode
    itself when the mode has a group or other permission bit, and otherwise
    the owner bits of the mode, copied to the group and other positions. *)
Theorem created_file_mode (i : DirImage) (header : Tar.Header) (input : string)
    (ierr : option error) (h h' : host) :
  Filepath.rooted (dirPath i) = true ->
  is_regular (Tar.Typeflag header) = true ->
  nodes h !! entry_path i (Tar.Name header) = None ->
  extractTarEntry i header input ierr h = (None, h') ->
  let mode := Tar.FileInfo_Mode header in
  let owner := Z.land mode (Tar.octal 7 0 0) in
  exists a, nodes h' !! entry_path i (Tar.Name header) = Some (Regular a input)
    /\ (Z.land mode (Tar.octal 0 7 7) > 0 -> a_perm a = mode)
    /\ (~ Z.land mode (Tar.octal 0 7 7) > 0 ->
        a_perm a = Z.lor (Z.lor owner (Z.shiftr owner 3)) (Z.shiftr owner 6)).
Proof.
  intros Hr Ht Hnone Hex mode owner.
  exists (written_attrs i header h).
  split; [eapply extractTarEntry_regular_created; eauto|].
  unfold written_attrs, a_perm, permMode. fold mode.
  destruct (Z.gtb_spec (Z.land mode (Tar.octal 0 7 7)) 0); split; intros; try lia;
    reflexivity.
Qed.

Lemma created_file_mode_witness :
  exists a,
    nodes (extractTarEntry (dir_image "/dest" []) (mk_header Tar.TypeReg "a/b" 384)
             "X" None empty_host).2 !! ["dest"; "a"; "b"]
    = Some (Regular a "X")
    /\ a_perm a = 438.
Proof.
  destruct (created_file_mode (dir_image "/dest" []) (mk_header Tar.TypeReg "a/b" 384)
              "X" None empty_host
              (extractTarEntry (dir_image "/dest" []) (mk_header Tar.TypeReg "a/b" 384)
                 "X" None empty_host).2)
    as (a & H1 & _ & H3); [reflexivity | reflexivity | reflexivity | reflexivity |].
  exists a. split; [exact H1|]. rewrite H3; [reflexivity | vm_compute; discriminate].
Defined.

(** The examples of the specification: 0750 stays, 0600 gives 0666 and 0700
    gives 0777. *)
Example permMode_examples :
  permMode (Tar.octal 7 5 0) = Tar.octal 7 5 0
  /\ permMode (Tar.octal 6 0 0) = Tar.octal 6 6 6
  /\ permMode (Tar.octal 7 0 0) = Tar.octal 7 7 7.
Proof. repeat split. Qed.

End FileModes.

(** ** What [extractTarEntry] changes *)

Section Effects.

Import Os.

Lemma only_at_refl (p : path) (m : gmap path node) : only_at p m m.
Proof. split; [reflexivity | eauto]. Qed.

Lemma only_at_trans (p : path) (m1 m2 m3 : gmap path node) :
  only_at p m1 m2 -> only_at p m2 m3 -> only_at p m1 m3.
Proof.
  intros [H1 H2] [H3 H4]. split.
  - intros q Hq. now rewrite H3, H1.
  - intros n3 Hn3 Hp. destruct (H4 _ Hn3 Hp) as (n2 & Hn2 & Hp2). eauto.
Qed.

Lemma only_at_insert (p : path) (m : gmap path node) (n : node) :
  (a_pinned (node_attrs n) = true ->
   exists n1, m !! p = Some n1 /\ a_pinned (node_attrs n1) = true) ->
  only_at p m (<[p := n]> m).
Proof.
  intros H. split.
  - intros q Hq. now rewrite lookup_insert_ne.
  - intros n2. rewrite lookup_insert_eq. intros [= <-]. exact H.
Qed.

Lemma only_at_alter (p : path) (m : gmap path node) (f : node -> node) :
  (forall n, a_pinned (node_attrs (f n)) = a_pinned (node_attrs n)) ->
  only_at p m (alter f p m).
Proof.
  intros H. split.
  - intros q Hq. now rewrite lookup_alter_ne.
  - intros n2. rewrite lookup_alter_eq. destruct (m !! p) as [n1|]; [|discriminate].
    simpl. intros [= <-]. rewrite H. eauto.
Qed.

Lemma update_attrs_only_at (op : string) (p : path) (f : attrs -> attrs) (h : host) :
  Forall (fun e => elem_ok e = true) p ->
  (forall a, a_pinned (f a) = a_pinned a) ->
  exists m, (update_attrs op (abs_path p) f h).2 = with_nodes h m
            /\ only_at p (nodes h) m.
Proof.
  intros Hok Hf. rewrite update_attrs_abs by exact Hok.
  destruct (stat h p).
  - eexists. split; [reflexivity|]. apply only_at_alter.
    intros [a|a d]; simpl; apply Hf.
  - exists (nodes h). split; [now rewrite with_nodes_id | apply only_at_refl].
Qed.

Lemma lchtimes_only_at (header : Tar.Header) (p : path) (h : host) :
  Forall (fun e => elem_ok e = true) p ->
  exists m, (lchtimes header (abs_path p) h).2 = with_nodes h m
            /\ only_at p (nodes h) m.
Proof.
  intros Hok. unfold lchtimes, Chtimes.
  assert (Hno : exists m, (@None error, h).2 = with_nodes h m /\ only_at p (nodes h) m).
  { exists (nodes h). split; [now rewrite with_nodes_id | apply only_at_refl]. }
  destruct (Ascii.eqb _ Tar.TypeLink).
  - destruct (Lstat _ h); [|exact Hno]. now apply update_attrs_only_at.
  - destruct (negb _); [|exact Hno]. now apply update_attrs_only_at.
Qed.

Lemma OpenFile_only_at (p : path) (perm : Z) (h : host) :
  Forall (fun e => elem_ok e = true) p ->
  exists m, (OpenFile (abs_path p) perm h).2 = with_nodes h m
            /\ only_at p (nodes h) m
            /\ forall file, (OpenFile (abs_path p) perm h).1 = inl file ->
                            file = p /\ p <> [].
Proof.
  intros Hok. rewrite OpenFile_abs by exact Hok.
  assert (Hno : forall e : error, exists m,
             (@inr path error e, h).2 = with_nodes h m /\ only_at p (nodes h) m
             /\ forall file, (@inr path error e, h).1 = inl file -> file = p /\ p <> []).
  { intros e. exists (nodes h).
    split; [now rewrite with_nodes_id | split; [apply only_at_refl | discriminate]]. }
  destruct (stat h (parent p)) as [[a|a d]|e]; [|apply Hno..].
  destruct (decide (p = [])) as [-> | Hp]; [apply Hno|].
  rewrite (node_at_ne _ _ Hp).
  destruct (nodes h !! p) as [[a1|a1 d1]|] eqn:E; [apply Hno| |].
  - eexists. split; [reflexivity|]. split.
    + apply only_at_insert. simpl. intros Hpin. eauto.
    + intros file [= <-]. now split.
  - eexists. split; [reflexivity|]. split.
    + apply only_at_insert. discriminate.
    + intros file [= <-]. now split.
Qed.

(** What [extractTarEntry] changes, whatever it returns: the directories
    [MkdirAll] adds above the entry, and the node of the entry. *)
Lemma extractTarEntry_effect (i : DirImage) (header : Tar.Header) (input : string)
    (ierr : option error) (h : host) :
  Filepath.rooted (dirPath i) = true ->
  let p := entry_path i (Tar.Name header) in
  let h1 := (MkdirAll (abs_path (parent p)) (Tar.octal 7 7 7) h).2 in
  exists m, (extractTarEntry i header input ierr h).2 = with_nodes h m
            /\ only_at p (nodes h1) m
            /\ ((extractTarEntry i header input ierr h).1 = None ->
                (MkdirAll (abs_path (parent p)) (Tar.octal 7 7 7) h).1 = None
                /\ (nodes h1 = m \/ p <> [])).
Proof.
  intros Hr p h1. rewrite extractTarEntry_abs by exact Hr. fold p. cbv zeta.
  assert (Hok : Forall (fun e => elem_ok e = true) p) by apply entry_path_ok.
  assert (Hh1 : h1 = with_nodes h (nodes h1)).
  { unfold h1. rewrite MkdirAll_abs by now apply parent_ok.
    now destruct (mkdir_walk _ _ _ _) as [[e|] m1]. }
  unfold h1 in *. destruct (MkdirAll _ _ h) as [[e|] h1'] eqn:Hmk; cbn [fst snd] in *.
  { exists (nodes h1'). split; [exact Hh1 | split; [apply only_at_refl | discriminate]]. }
  assert (Hstop : forall r : option error,
            exists m, (r, h1').2 = with_nodes h m /\ only_at p (nodes h1') m
                      /\ ((r, h1').1 = None -> @None error = None /\ (nodes h1' = m \/ p <> []))).
  { intros r. exists (nodes h1'). split; [exact Hh1 | split; [apply only_at_refl | auto]]. }
  destruct (Ascii.eqb _ Tar.TypeDir); [apply Hstop|].
  destruct (is_regular _).
  2:{ destruct (_ || _); [apply Hstop|]. destruct (_ || _); apply Hstop. }
  destruct (OpenFile_only_at p (permMode (Tar.FileInfo_Mode header)) h1' Hok)
    as (m2 & E2 & O2 & F2).
  destruct (OpenFile _ _ h1') as [[file|e] h2]; cbn [fst snd] in E2.
  2:{ exists m2. rewrite Hh1 in E2. split; [exact E2 | split; [exact O2 | discriminate]]. }
  destruct (F2 file eq_refl) as [-> Hp]. subst h2.
  assert (O3 : only_at p m2 (nodes (Copy p input ierr (with_nodes h1' m2)).2)).
  { unfold Copy. cbn [fst snd]. apply only_at_alter. now intros [a|a d]. }
  assert (E3 : (Copy p input ierr (with_nodes h1' m2)).2
               = with_nodes h (nodes (Copy p input ierr (with_nodes h1' m2)).2)).
  { unfold Copy. cbn [fst snd]. now rewrite Hh1. }
  destruct (Copy p input ierr (with_nodes h1' m2)) as [[e|] h3]; cbn [fst snd] in *.
  { exists (nodes h3). split; [exact E3|]. split; [|discriminate].
    eapply only_at_trans; [exact O2 | exact O3]. }
  assert (E4 : exists m4, (if shouldChown i
                           then Lchown (abs_path p) (Tar.Uid header) (Tar.Gid header) h3
                           else (None, h3)).2 = with_nodes h m4
                          /\ only_at p (nodes h3) m4).
  { destruct (shouldChown i).
    - destruct (update_attrs_only_at "lchown" p
                  (fun a => {| a_perm := a_perm a; a_uid := Tar.Uid header;
                               a_gid := Tar.Gid header; a_atime := a_atime a;
                               a_mtime := a_mtime a; a_pinned := a_pinned a |}) h3 Hok)
        as (m4 & E & O); [reflexivity|].
      exists m4. split; [|exact O]. unfold Lchown. rewrite E, E3. reflexivity.
    - exists (nodes h3). split; [exact E3 | apply only_at_refl]. }
  destruct E4 as (m4 & E4 & O4).
  assert (O14 : only_at p (nodes h1') m4).
  { eapply only_at_trans; [exact O2|]. eapply only_at_trans; [exact O3 | exact O4]. }
  destruct (if shouldChown i then _ else _) as [[e|] h4]; cbn [fst snd] in E4.
  { exists m4. split; [exact E4 | split; [exact O14 | discriminate]]. }
  destruct (lchtimes_only_at header p h4 Hok) as (m5 & E5 & O5).
  exists m5. split; [now rewrite E5, E4|]. split.
  - eapply only_at_trans; [exact O14|]. now rewrite E4 in O5.
  - intros _. split; [reflexivity | now right].
Qed.

End Effects.

(** ** Parent directories *)

Section Parents.

Import Os.

(** A walk looks at the nodes on its way only. *)
Lemma walk_ext (m m' : gmap path node) (todo above : path) :
  (forall q, above `prefix_of` q -> q `prefix_of` (above ++ todo) ->
             node_at m q = node_at m' q) ->
  walk m above todo = walk m' above todo.
Proof.
  revert above. induction todo as [|c todo IH]; intros above H; simpl.
  - rewrite (H above); [reflexivity | reflexivity | now rewrite app_nil_r].
  - rewrite (H above); [|reflexivity | now apply prefix_app_r].
    destruct (node_at m' above) as [[a|a d]|]; try reflexivity.
    apply IH. intros q Hq1 Hq2. rewrite <- app_assoc in Hq2. apply H; [|exact Hq2].
    etrans; [|exact Hq1]. now apply prefix_app_r.
Qed.

Lemma MkdirAll_makes_dir (q : path) (perm : Z) (h h1 : host) :
  Forall (fun e => elem_ok e = true) q ->
  MkdirAll (abs_path q) perm h = (None, h1) ->
  exists a, stat h1 q = Found (Directory a).
Proof.
  intros Hok. rewrite MkdirAll_abs by exact Hok.
  destruct (mkdir_walk _ (nodes h) [] q) as [[e|] m1] eqn:Hmk; [discriminate|].
  intros [= <-]. rewrite stat_with_nodes.
  assert (Hdirs : forall q', q' `prefix_of` q ->
            exists a, node_at m1 q' = Some (Directory a)).
  { intros q' Hq'. destruct (decide (q' = [])) as [-> | Hne]; [now eexists|].
    rewrite (node_at_ne _ _ Hne).
    eapply (mkdir_walk_ok _ _ _ _ _ Hmk); [apply prefix_nil | exact Hq' | exact Hne]. }
  rewrite walk_dirs.
  - rewrite app_nil_l. destruct (Hdirs q) as [a ->]; [reflexivity | now exists a].
  - intros q' _ Hq' _. now apply Hdirs.
Qed.

Lemma only_at_walk_parent (p : path) (m1 m2 : gmap path node) :
  p <> [] -> only_at p m1 m2 -> walk m2 [] (parent p) = walk m1 [] (parent p).
Proof.
  intros Hp [Ho _]. apply walk_ext. intros q _ Hq.
  destruct q as [|c q]; [reflexivity|]. simpl. apply Ho.
  intros E. rewrite E in Hq. now apply not_prefix_parent in Hq.
Qed.

(** C10, as amended. [extractTarEntry] creates the parent directories of the
    entry's path before it looks at the type: when creating them fails it
    returns that error for every type, and when it returns without an error
    the parent of the entry's path is a directory, also for an entry of a
    type it skips, which it then returns for without an error. *)
Theorem parents_created_for_every_type (i : DirImage) (header : Tar.Header)
    (input : string) (ierr : option error) (h : host) :
  Filepath.rooted (dirPath i) = true ->
  let dir := Filepath.Dir (hydrateFilepath i (Tar.Name header)) in
  (forall err h1, MkdirAll dir (Tar.octal 7 7 7) h = (Some err, h1) ->
                  extractTarEntry i header input ierr h = (Some err, h1))
  /\ (forall h', extractTarEntry i header input ierr h = (None, h') ->
                 is_dir dir h' = true)
  /\ (is_skipped (Tar.Typeflag header) = true ->
      forall h1, MkdirAll dir (Tar.octal 7 7 7) h = (None, h1) ->
                 extractTarEntry i header input ierr h = (None, h1)).
Proof.
  intros Hr dir. split; [|split].
  - intros err h1 Hmk. unfold extractTarEntry. fold dir. now rewrite Hmk.
  - intros h' Hex. unfold dir. rewrite (Dir_hydrateFilepath _ _ Hr).
    set (p := entry_path i (Tar.Name header)).
    assert (Hpar : Forall (fun e => elem_ok e = true) (parent p))
      by apply parent_ok, entry_path_ok.
    destruct (extractTarEntry_effect i header input ierr h Hr) as (m & E & O & S).
    fold p in E, O, S. rewrite Hex in E, S. cbn [fst snd] in E, S.
    destruct (S eq_refl) as [Hmk Hcase].
    destruct (MkdirAll (abs_path (parent p)) (Tar.octal 7 7 7) h) as [r h1] eqn:Emk.
    cbn [fst snd] in *. subst r.
    destruct (MkdirAll_makes_dir _ _ _ _ Hpar Emk) as [a Ha].
    unfold is_dir. rewrite Lstat_abs by exact Hpar. rewrite E, stat_with_nodes.
    assert (Hw : walk m [] (parent p) = walk (nodes h1) [] (parent p)).
    { destruct Hcase as [<- | Hp]; [reflexivity | now apply only_at_walk_parent]. }
    rewrite Hw. unfold stat in Ha. now rewrite Ha.
  - intros Ht h1 Hmk. rewrite (extractTarEntry_skipped _ _ _ _ _ Ht). exact Hmk.
Qed.

Lemma parents_created_for_every_type_witness :
  is_dir "/dest/a/b"
    (extractTarEntry (dir_image "/dest" []) (mk_header Tar.TypeSymlink "a/b/link" 511)
       "" None empty_host).2 = true.
Proof.
  destruct (parents_created_for_every_type (dir_image "/dest" [])
              (mk_header Tar.TypeSymlink "a/b/link" 511) "" None empty_host eq_refl)
    as (_ & H2 & _).
  apply H2. reflexivity.
Defined.

(** C10 as stated fails for the final tree: a later entry can remove the
    parent a skipped entry has made. Here the whiteout [.wh.a] that follows
    the symbolic link [a/b] removes the directory [a]. *)
Lemma parent_of_skipped_entry_removed_later :
  let link := (mk_header Tar.TypeSymlink "a/b" 511, "") in
  let whiteout := (mk_header Tar.TypeReg ".wh.a" 420, "") in
  let i := dir_image "/dest" [layer_of "sha256:1" [link; whiteout]] in
  is_dir "/dest/a" (AsDirectory (dir_image "/dest" [layer_of "sha256:1" [link]]) empty_host).1.2
  = true
  /\ (AsDirectory i empty_host).1.1 = None
  /\ exists_at "/dest/a" (AsDirectory i empty_host).1.2 = false.
Proof. vm_compute. repeat split. Qed.

End Parents.

(** ** [inWhiteoutDir] *)

Section WhiteoutDir.

Import Filepath.

Lemma weight_cons (e : string) (l : list string) :
  weight (e :: l) = S (String.length e + weight l).
Proof. reflexivity. Qed.

Lemma weight_app (l1 l2 : list string) : weight (l1 ++ l2) = (weight l1 + weight l2)%nat.
Proof.
  induction l1 as [|e l1 IH]; [reflexivity|].
  change ((e :: l1) ++ l2) with (e :: (l1 ++ l2)). rewrite !weight_cons, IH. lia.
Qed.

Lemma weight_rev (l : list string) : weight (rev l) = weight l.
Proof.
  induction l as [|e l IH]; [reflexivity|].
  change (rev (e :: l)) with (rev l ++ [e]).
  rewrite weight_app, IH, !weight_cons. change (weight []) with 0%nat. lia.
Qed.

Lemma length_Join_weight (l : list string) (c : ascii) :
  l <> [] -> S (String.length (GoStrings.Join l c)) = weight l.
Proof.
  induction l as [|e l IH]; [contradiction|]. intros _.
  destruct l as [|e' l].
  - rewrite weight_cons. change (weight []) with 0%nat.
    change (GoStrings.Join [e] c) with e. lia.
  - rewrite Join_cons by discriminate. rewrite length_append.
    rewrite (weight_cons e). rewrite <- IH by discriminate.
    change (String.length (String c (GoStrings.Join (e' :: l) c)))
      with (S (String.length (GoStrings.Join (e' :: l) c))). lia.
Qed.

Lemma length_Split_weight (s : string) (c : ascii) :
  weight (GoStrings.Split s c) = S (String.length s).
Proof.
  rewrite <- (length_Join_weight _ c) by apply Split_not_nil. now rewrite Join_Split.
Qed.

Lemma clean_stack_weight (r : bool) (l stk : list string) :
  (weight (clean_stack r stk l) <= weight stk + weight l)%nat.
Proof.
  revert stk. induction l as [|e l IH]; intros stk.
  { change (weight []) with 0%nat. simpl clean_stack. lia. }
  rewrite weight_cons. simpl clean_stack.
  destruct (String.eqb e "" || String.eqb e ".").
  { specialize (IH stk). lia. }
  destruct (String.eqb e "..").
  - destruct stk as [|top stk'].
    + destruct r; [specialize (IH []) | specialize (IH [e])];
        rewrite ?weight_cons in *; change (weight []) with 0%nat in *; lia.
    + destruct (String.eqb top "..");
        [specialize (IH (e :: top :: stk')) | specialize (IH stk')];
        rewrite ?weight_cons in *; lia.
  - specialize (IH (e :: stk)). rewrite ?weight_cons in *. lia.
Qed.

(** [Clean] never makes a path longer. *)
Lemma length_Clean (s : string) :
  s <> "" -> (String.length (Clean s) <= String.length s)%nat.
Proof.
  intros Hs. unfold Clean. destruct s as [|a s]; [contradiction|].
  set (t := String a s). unfold clean_elems.
  destruct (rooted t) eqn:Hr.
  - simpl in Hr. apply Ascii.eqb_eq in Hr. subst a.
    assert (E : GoStrings.Split t Separator = "" :: GoStrings.Split s Separator)
      by reflexivity.
    rewrite E. change (clean_stack true [] ("" :: GoStrings.Split s Separator))
      with (clean_stack true [] (GoStrings.Split s Separator)).
    pose proof (clean_stack_weight true (GoStrings.Split s Separator) []) as Hw.
    rewrite length_Split_weight in Hw. rewrite <- weight_rev in Hw.
    destruct (rev _) as [|o out] eqn:Eo; [simpl; lia|].
    unfold render. simpl String.length.
    pose proof (length_Join_weight (o :: out) Separator) as Hj.
    rewrite <- Hj in Hw by discriminate. simpl in Hw. lia.
  - pose proof (clean_stack_weight false (GoStrings.Split t Separator) []) as Hw.
    rewrite length_Split_weight in Hw. rewrite <- weight_rev in Hw.
    destruct (rev _) as [|o out] eqn:Eo; [simpl; lia|].
    unfold render.
    pose proof (length_Join_weight (o :: out) Separator) as Hj.
    rewrite <- Hj in Hw by discriminate. simpl in Hw. simpl String.length. lia.
Qed.

Lemma split_at_last_sep (s : string) (c : ascii) :
  GoStrings.Contains s c = true ->
  exists x y, s = x +:+ String c y /\ GoStrings.Contains y c = false.
Proof.
  induction s as [|a s IH]; [discriminate|]. simpl.
  destruct (GoStrings.Contains s c) eqn:Hs.
  - intros _. destruct (IH eq_refl) as (x & y & -> & Hy).
    exists (String a x), y. now rewrite append_cons.
  - destruct (Ascii.eqb a c) eqn:Ha; [|discriminate]. intros _.
    apply Ascii.eqb_eq in Ha. subst. now exists "", s.
Qed.

Lemma upto_last_sep_no_sep (s : string) :
  GoStrings.Contains s Separator = false -> upto_last_sep s = "".
Proof.
  destruct s as [|a s]; [reflexivity|]. simpl.
  destruct (Ascii.eqb a Separator); [discriminate|]. now intros ->.
Qed.

Lemma rooted_append (x y : string) : x <> "" -> rooted (x +:+ y) = rooted x.
Proof. destruct x; [contradiction | reflexivity]. Qed.

(** A separator at the end does not change the cleaned path. *)
Lemma Clean_trailing_sep (x : string) :
  x <> "" -> Clean (x +:+ String Separator "") = Clean x.
Proof.
  intros Hx. unfold Clean.
  destruct x as [|a x]; [contradiction|]. rewrite append_cons.
  rewrite <- append_cons.
  rewrite rooted_append by discriminate.
  rewrite Split_append_sep. unfold clean_elems. rewrite clean_stack_app.
  reflexivity.
Qed.

Lemma dir_measure_Dir (file : string) :
  file <> "" -> Dir file <> file -> (dir_measure (Dir file) < dir_measure file)%nat.
Proof.
  intros Hne Hd. unfold dir_measure.
  destruct (GoStrings.Contains file Separator) eqn:Hc.
  - destruct (split_at_last_sep _ _ Hc) as (x & y & -> & Hy).
    unfold Dir in *. rewrite upto_last_sep_append in * by exact Hy.
    rewrite length_append. simpl String.length.
    destruct x as [|a x].
    + rewrite append_nil_l in *. change (Clean "/") with "/" in *.
      destruct y; [contradiction|]. simpl. lia.
    + rewrite Clean_trailing_sep in * by discriminate.
      pose proof (length_Clean (String a x)) as Hl.
      assert (Hl' : (String.length (Clean (String a x)) <= String.length (String a x))%nat)
        by (apply Hl; discriminate).
      destruct (String.eqb (Clean (String a x)) ".");
        destruct (String.eqb (String a x +:+ String Separator y) "."); lia.
  - unfold Dir in *. rewrite upto_last_sep_no_sep in * by exact Hc.
    change (Clean "") with "." in *. simpl.
    destruct (String.eqb file ".") eqn:E; [apply String.eqb_eq in E; congruence|].
    destruct file; [contradiction | simpl; lia].
Qed.

(** The loop of [inWhiteoutDir] ends within its fuel. *)
Lemma inWhiteoutDir_loop_total (fileMap : gmap string bool) (n : nat) :
  forall file, (dir_measure file < n)%nat ->
               exists b, inWhiteoutDir_loop n fileMap file = Some b.
Proof.
  induction n as [|n IH]; intros file Hn; [lia|]. simpl.
  destruct (String.eqb file "") eqn:E1; [now eexists|].
  destruct (String.eqb file (Dir file)) eqn:E2; [now eexists|].
  destruct (fileMap !! Dir file) as [[|]|]; [now eexists | |];
    apply IH; apply String.eqb_neq in E1, E2;
    pose proof (dir_measure_Dir file E1 (not_eq_sym E2)); lia.
Qed.

Lemma inWhiteoutDir_total (fileMap : gmap string bool) (file : string) :
  inWhiteoutDir_loop (inWhiteoutDir_fuel file) fileMap file
  = Some (inWhiteoutDir fileMap file).
Proof.
  destruct (inWhiteoutDir_loop_total fileMap (inWhiteoutDir_fuel file) file) as [b Hb].
  - unfold dir_measure, inWhiteoutDir_fuel. destruct (String.eqb file "."); lia.
  - unfold inWhiteoutDir. now rewrite Hb.
Qed.

Lemma rooted_Dir (s : string) : rooted s = true -> rooted (Dir s) = true.
Proof.
  intros Hs. unfold Dir. destruct s as [|a s]; [discriminate|].
  simpl in Hs. apply Ascii.eqb_eq in Hs. subst a.
  assert (H : exists u, upto_last_sep (String Separator s) = String Separator u).
  { simpl. destruct (GoStrings.Contains s Separator); eauto. }
  destruct H as [u ->]. reflexivity.
Qed.

(** Under an absolute destination the walk up the parents of an entry only
    meets absolute paths: when no recorded name is one, it finds nothing. *)
Lemma inWhiteoutDir_loop_rooted (fileMap : gmap string bool) (n : nat) :
  (forall k, fileMap !! k = Some true -> rooted k = false) ->
  forall file, rooted file = true -> inWhiteoutDir_loop n fileMap file <> Some true.
Proof.
  intros Hk. induction n as [|n IH]; intros file Hr; [discriminate|]. simpl.
  destruct (String.eqb file ""); [discriminate|].
  destruct (String.eqb file (Dir file)); [discriminate|].
  pose proof (rooted_Dir _ Hr) as Hd.
  destruct (fileMap !! Dir file) as [[|]|] eqn:E; [|now apply IH..].
  apply Hk in E. congruence.
Qed.

Lemma inWhiteoutDir_rooted (fileMap : gmap string bool) (file : string) :
  (forall k, fileMap !! k = Some true -> rooted k = false) ->
  rooted file = true -> inWhiteoutDir fileMap file = false.
Proof.
  intros Hk Hr. pose proof (inWhiteoutDir_total fileMap file) as Ht.
  destruct (inWhiteoutDir fileMap file); [|reflexivity].
  now apply inWhiteoutDir_loop_rooted in Ht.
Qed.

End WhiteoutDir.

(** ** Whiteouts on the code *)

Section Whiteouts.

(** C2 on the code. The newer layer has the whiteout [a/.wh.b.txt], the
    older layer the regular file [a/b.txt]. The whiteout is recorded under its
    own base name [.wh.b.txt], which no later check looks up, and the entry of
    the older layer is written: after the run the file is there. *)
Theorem whiteout_does_not_hide_older_file :
  let older := layer_of "sha256:1" [(mk_header Tar.TypeReg "a/b.txt" 420, "X")] in
  let newer := layer_of "sha256:2" [(mk_header Tar.TypeReg "a/.wh.b.txt" 420, "")] in
  let run := AsDirectory (dir_image "/dest" [older; newer]) empty_host in
  run.1.1 = None
  /\ file_data "/dest/a/b.txt" run.1.2 = Some "X"
  /\ (writeLayer (dir_image "/dest" [older; newer]) ∅
        (stream_of [(mk_header Tar.TypeReg "a/.wh.b.txt" 420, "")])
        (Os.MkdirAll "/dest" 511 empty_host).2).1.2
     = {[ ".wh.b.txt" := true ]}.
Proof. vm_compute. repeat split. Qed.

(** C3 on the code. The newer layer has the whiteout [.wh.d] of the
    directory [d], the older layer the file [d/f]. The parents that
    [inWhiteoutDir] looks up are [/dest/d], [/dest] and [/]; the map holds
    [.wh.d]; the entry is written. *)
Theorem whiteout_does_not_hide_older_descendants :
  let older := layer_of "sha256:1" [(mk_header Tar.TypeReg "d/f" 420, "X")] in
  let newer := layer_of "sha256:2" [(mk_header Tar.TypeReg ".wh.d" 420, "")] in
  let run := AsDirectory (dir_image "/dest" [older; newer]) empty_host in
  run.1.1 = None
  /\ file_data "/dest/d/f" run.1.2 = Some "X"
  /\ inWhiteoutDir {[ ".wh.d" := true ]} "/dest/d/f" = false.
Proof. vm_compute. repeat split. Qed.

(** C4 on the code. The removal for the whiteout [a/.wh.b] fails, because
    [a] is a regular file; [writeLayer] returns without an error at once, and
    the entry [c] that follows in the same layer is never written, while
    the older layer is still processed. *)
Theorem failed_whiteout_removal_drops_rest_of_layer :
  let older := layer_of "sha256:1" [(mk_header Tar.TypeReg "d" 420, "Z")] in
  let newer := layer_of "sha256:2" [(mk_header Tar.TypeReg "a" 420, "X");
                                    (mk_header Tar.TypeReg "a/.wh.b" 420, "");
                                    (mk_header Tar.TypeReg "c" 420, "Y")] in
  let run := AsDirectory (dir_image "/dest" [older; newer]) empty_host in
  run.1.1 = None
  /\ (Os.RemoveAll "/dest/a/b" run.1.2).1 = Some (PathError "unlinkat" "/dest/a/b" ENOTDIR)
  /\ exists_at "/dest/c" run.1.2 = false
  /\ file_data "/dest/d" run.1.2 = Some "Z".
Proof. vm_compute. repeat split. Qed.

(** The parts of C4 the code does: removing a path that is not there is not
    an error, and the entries after such a whiteout are processed. *)
Lemma whiteout_of_absent_path_continues :
  let layer := layer_of "sha256:1" [(mk_header Tar.TypeReg "a/.wh.b" 420, "");
                                    (mk_header Tar.TypeReg "c" 420, "Y")] in
  let run := AsDirectory (dir_image "/dest" [layer]) empty_host in
  run.1.1 = None /\ file_data "/dest/c" run.1.2 = Some "Y".
Proof. vm_compute. repeat split. Qed.

(** The same with a removal the kernel refuses: [/mnt] is pinned (a mount
    point), the whiteout [../.wh.mnt] asks for its removal. *)
Lemma failed_whiteout_removal_pinned :
  let mnt := Directory {| a_perm := 493; a_uid := 0; a_gid := 0; a_atime := 0;
                          a_mtime := 0; a_pinned := true |} in
  let h := with_nodes empty_host {[ ["mnt"] := mnt ]} in
  let layer := layer_of "sha256:1" [(mk_header Tar.TypeReg "../.wh.mnt" 420, "");
                                    (mk_header Tar.TypeReg "c" 420, "Y")] in
  let run := AsDirectory (dir_image "/dest" [layer]) h in
  run.1.1 = None /\ exists_at "/dest/c" run.1.2 = false.
Proof. vm_compute. repeat split. Qed.

End Whiteouts.

(** ** Well-formed trees are kept *)

Section WellFormed.

Import Os.

Lemma wf_nodes_empty : wf_nodes ∅.
Proof. intros q c [n Hn]. now rewrite lookup_empty in Hn. Qed.

Lemma parent_snoc (q : path) (c : string) : parent (q ++ [c]) = q.
Proof. apply removelast_last. Qed.

Lemma wf_nodes_insert_regular (m : gmap path node) (p : path) (a : attrs) (d : string) :
  wf_nodes m -> p <> [] ->
  (exists a0, node_at m (parent p) = Some (Directory a0)) ->
  (forall a1, m !! p <> Some (Directory a1)) ->
  wf_nodes (<[p := Regular a d]> m).
Proof.
  intros Hwf Hp [a0 Ha0] Hnd q c Hs.
  destruct (decide (q ++ [c] = p)) as [E | Hne].
  - subst p. rewrite parent_snoc in Ha0. exists a0.
    rewrite node_at_insert_ne; [exact Ha0 | apply snoc_ne].
  - rewrite lookup_insert_ne in Hs by congruence.
    destruct (Hwf _ _ Hs) as [a' Ha']. exists a'.
    rewrite node_at_insert_ne; [exact Ha'|].
    intros ->. rewrite (node_at_ne _ _ Hp) in Ha'. now apply Hnd in Ha'.
Qed.

Lemma wf_nodes_alter (m : gmap path node) (p : path) (f : node -> node) :
  (forall n, IsDir (f n) = IsDir n) -> wf_nodes m -> wf_nodes (alter f p m).
Proof.
  intros Hf Hwf q c Hs.
  assert (Hs' : is_Some (m !! (q ++ [c]))).
  { destruct (decide (p = q ++ [c])) as [-> | Hne].
    - rewrite lookup_alter_eq in Hs. destruct (m !! (q ++ [c])); [eauto|].
      now destruct Hs.
    - now rewrite lookup_alter_ne in Hs. }
  destruct (Hwf _ _ Hs') as [a Ha].
  destruct q as [|x q]; [now exists a|]. simpl in *.
  destruct (decide (p = x :: q)) as [-> | Hne].
  - rewrite lookup_alter_eq, Ha. simpl.
    specialize (Hf (Directory a)). destruct (f (Directory a)); [eauto | discriminate].
  - rewrite lookup_alter_ne by exact Hne. eauto.
Qed.

Lemma RemoveAll_wf (name : string) (h : host) :
  wf_nodes (nodes h) -> wf_nodes (nodes (RemoveAll name h).2).
Proof.
  intros Hwf. unfold RemoveAll. destruct (resolve h name) as [p|]; [|exact Hwf].
  destruct (endsWithDot name); [exact Hwf|].
  destruct (stat h p) as [n|[]]; try exact Hwf. simpl. now apply wf_remove_tree.
Qed.

Lemma MkdirAll_wf (name : string) (perm : Z) (h : host) :
  wf_nodes (nodes h) -> wf_nodes (nodes (MkdirAll name perm h).2).
Proof.
  intros Hwf. unfold MkdirAll. destruct (resolve h name) as [p|]; [|exact Hwf].
  destruct (mkdir_walk _ (nodes h) [] p) as [r m] eqn:E.
  assert (wf_nodes m) by (eapply mkdir_walk_wf with (above := []); [exact Hwf | eexists; reflexivity | exact E]).
  now destruct r.
Qed.

Lemma OpenFile_wf (name : string) (perm : Z) (h : host) :
  wf_nodes (nodes h) -> wf_nodes (nodes (OpenFile name perm h).2).
Proof.
  intros Hwf. unfold OpenFile. destruct (resolve h name) as [p|]; [|exact Hwf].
  destruct (stat h (parent p)) as [[a|a d]|e] eqn:Es; try exact Hwf.
  apply walk_Found in Es. rewrite app_nil_l in Es.
  destruct (decide (p = [])) as [-> | Hp]; [exact Hwf|].
  rewrite (node_at_ne _ _ Hp).
  destruct (nodes h !! p) as [[a1|a1 d1]|] eqn:E; [exact Hwf| |]; simpl;
    (apply wf_nodes_insert_regular; [exact Hwf | exact Hp | now exists a | congruence]).
Qed.

Lemma Copy_wf (file : path) (data : string) (ierr : option error) (h : host) :
  wf_nodes (nodes h) -> wf_nodes (nodes (Copy file data ierr h).2).
Proof. intros Hwf. unfold Copy. simpl. apply wf_nodes_alter; [now intros []|exact Hwf]. Qed.

Lemma update_attrs_wf (op name : string) (f : attrs -> attrs) (h : host) :
  wf_nodes (nodes h) -> wf_nodes (nodes (update_attrs op name f h).2).
Proof.
  intros Hwf. unfold update_attrs. destruct (resolve h name) as [p|]; [|exact Hwf].
  destruct (stat h p); [|exact Hwf]. simpl.
  apply wf_nodes_alter; [now intros []|exact Hwf].
Qed.

Lemma lchtimes_wf (header : Tar.Header) (name : string) (h : host) :
  wf_nodes (nodes h) -> wf_nodes (nodes (lchtimes header name h).2).
Proof.
  intros Hwf. unfold lchtimes, Chtimes. destruct (Ascii.eqb _ Tar.TypeLink).
  - destruct (Lstat _ h); [now apply update_attrs_wf | exact Hwf].
  - destruct (negb _); [now apply update_attrs_wf | exact Hwf].
Qed.

Lemma extractTarEntry_wf (i : DirImage) (header : Tar.Header) (input : string)
    (ierr : option error) (h : host) :
  wf_nodes (nodes h) -> wf_nodes (nodes (extractTarEntry i header input ierr h).2).
Proof.
  intros Hwf. unfold extractTarEntry.
  pose proof (MkdirAll_wf (Filepath.Dir (hydrateFilepath i (Tar.Name header)))
                (Tar.octal 7 7 7) h Hwf) as H1.
  destruct (MkdirAll _ _ h) as [[e|] h1]; [exact H1|]. cbn [fst snd] in H1.
  destruct (Ascii.eqb _ Tar.TypeDir); [exact H1|].
  destruct (_ || _).
  2:{ destruct (_ || _); [exact H1|]. destruct (_ || _); exact H1. }
  pose proof (OpenFile_wf (hydrateFilepath i (Tar.Name header))
                (permMode (Tar.FileInfo_Mode header)) h1 H1) as H2.
  destruct (OpenFile _ _ h1) as [[file|e] h2]; [|exact H2]. cbn [fst snd] in H2.
  pose proof (Copy_wf file input ierr h2 H2) as H3.
  destruct (Copy file input ierr h2) as [[e|] h3]; [exact H3|]. cbn [fst snd] in H3.
  assert (H4 : wf_nodes (nodes (if negb (String.eqb GOOS "windows") && shouldChown i
                                then Lchown (hydrateFilepath i (Tar.Name header))
                                       (Tar.Uid header) (Tar.Gid header) h3
                                else (None, h3)).2)).
  { destruct (_ && _); [now apply update_attrs_wf | exact H3]. }
  destruct (if _ && _ then _ else _) as [[e|] h4]; [exact H4|]. cbn [fst snd] in H4.
  now apply lchtimes_wf.
Qed.

End WellFormed.

(** ** Invariants of [writeLayer] *)

Section Invariants.

Variable i : DirImage.
Variable P : Tar.Header -> bool.
Variable Inv : gmap string bool -> host -> Prop.

Hypothesis Inv_whiteout :
  forall fileMap h hdr,
    P hdr = true -> Inv fileMap h ->
    let path := hydrateFilepath i (Tar.Name hdr) in
    let base := Filepath.Base path in
    GoStrings.HasPrefix base whiteoutPrefix = true ->
    let r := Os.RemoveAll
               (Filepath.Join [Filepath.Dir path;
                               GoStrings.TrimPrefix base whiteoutPrefix]) h in
    Inv fileMap r.2 /\ Inv (<[base := true]> fileMap) r.2.

Hypothesis Inv_replace :
  forall fileMap h hdr,
    P hdr = true -> Inv fileMap h ->
    let path := hydrateFilepath i (Tar.Name hdr) in
    GoStrings.HasPrefix (Filepath.Base path) whiteoutPrefix = false ->
    Inv fileMap (Os.RemoveAll path h).2.

Hypothesis Inv_extract :
  forall fileMap h hdr data data_err,
    P hdr = true -> Inv fileMap h ->
    GoStrings.HasPrefix (Filepath.Base (hydrateFilepath i (Tar.Name hdr)))
      whiteoutPrefix = false ->
    Inv (<[Tar.Name hdr := true]> fileMap) (extractTarEntry i hdr data data_err h).2.

(** An invariant of the three steps of [writeLayer] holds when it returns. *)
Lemma writeLayer_invariant (stream : tarStream) :
  forall fileMap h,
    stream_all P stream = true -> Inv fileMap h ->
    Inv (writeLayer i fileMap stream h).1.2 (writeLayer i fileMap stream h).2.
Proof.
  induction stream as [|e|hdr data data_err rest IH]; intros fileMap h Hall HI;
    [exact HI | exact HI |].
  simpl in Hall. apply andb_true_iff in Hall as [HP Hall].
  cbn [writeLayer].
  destruct (GoStrings.HasPrefix _ whiteoutPrefix) eqn:Hw.
  - destruct (Inv_whiteout _ _ _ HP HI Hw) as [I1 I2].
    destruct (Os.RemoveAll _ h) as [[e|] h1]; [exact I1|]. now apply IH.
  - destruct (inWhiteoutDir fileMap _); [now apply IH|].
    pose proof (Inv_extract fileMap h hdr data data_err HP HI Hw) as IE.
    assert (Hex : forall h0, Inv (<[Tar.Name hdr := true]> fileMap)
                               (extractTarEntry i hdr data data_err h0).2 ->
              Inv (match extractTarEntry i hdr data data_err h0 with
                   | (Some err, h1) => (Some err, <[Tar.Name hdr := true]> fileMap, h1)
                   | (None, h1) => writeLayer i (<[Tar.Name hdr := true]> fileMap) rest h1
                   end).1.2
                  (match extractTarEntry i hdr data data_err h0 with
                   | (Some err, h1) => (Some err, <[Tar.Name hdr := true]> fileMap, h1)
                   | (None, h1) => writeLayer i (<[Tar.Name hdr := true]> fileMap) rest h1
                   end).2).
    { intros h0 H0. destruct (extractTarEntry i hdr data data_err h0) as [[e|] h1];
        [exact H0 | now apply IH]. }
    destruct (Os.Lstat _ h) as [fi|e]; [|now apply Hex].
    destruct (IsDir fi && String.eqb (Tar.Name hdr) "."); [now apply IH|].
    destruct (negb _); [|now apply Hex].
    pose proof (Inv_replace _ _ _ HP HI Hw) as IR.
    destruct (Os.RemoveAll _ h) as [[e|] h1]; [exact IR|].
    apply Hex. now apply Inv_extract.
Qed.

(** A stream without whiteouts that is processed without an error is
    processed to its end: what follows it is processed from a state in
    which the invariant holds. *)
Lemma writeLayer_then_invariant (pre tail : tarStream) :
  forall fileMap h fileMap' h',
    stream_all P (stream_then pre tail) = true ->
    stream_all (not_whiteout_header i) pre = true ->
    Inv fileMap h ->
    writeLayer i fileMap (stream_then pre tail) h = (None, fileMap', h') ->
    exists fileMap1 h1,
      Inv fileMap1 h1 /\ stream_all P tail = true
      /\ writeLayer i fileMap1 tail h1 = (None, fileMap', h').
Proof.
  induction pre as [|e|hdr data data_err rest IH];
    intros fileMap h fileMap' h' Hall Hnw HI Hrun.
  - now exists fileMap, h.
  - discriminate.
  - cbn [stream_then stream_all] in Hall, Hnw.
    apply andb_true_iff in Hall as [HP Hall]. apply andb_true_iff in Hnw as [Hw Hnw].
    unfold not_whiteout_header in Hw. apply negb_true_iff in Hw.
    cbn [stream_then writeLayer] in Hrun. rewrite Hw in Hrun.
    destruct (inWhiteoutDir fileMap _); [now apply (IH fileMap h)|].
    assert (Hex : forall h0, Inv fileMap h0 ->
              match extractTarEntry i hdr data data_err h0 with
              | (Some err, h1) => (Some err, <[Tar.Name hdr := true]> fileMap, h1)
              | (None, h1) =>
                  writeLayer i (<[Tar.Name hdr := true]> fileMap) (stream_then rest tail) h1
              end = (None, fileMap', h') ->
              exists fileMap1 h1,
                Inv fileMap1 h1 /\ stream_all P tail = true
                /\ writeLayer i fileMap1 tail h1 = (None, fileMap', h')).
    { intros h0 H0 Hrun0.
      pose proof (Inv_extract fileMap h0 hdr data data_err HP H0 Hw) as IE.
      destruct (extractTarEntry i hdr data data_err h0) as [[e|] h1]; [discriminate|].
      now apply (IH (<[Tar.Name hdr := true]> fileMap) h1). }
    destruct (Os.Lstat _ h) as [fi|e]; [|now apply (Hex h)].
    destruct (IsDir fi && String.eqb (Tar.Name hdr) "."); [now apply (IH fileMap h)|].
    destruct (negb _); [|now apply (Hex h)].
    pose proof (Inv_replace _ _ _ HP HI Hw) as IR.
    destruct (Os.RemoveAll _ h) as [[e|] h1]; [discriminate|].
    now apply (Hex h1).
Qed.

(** And when the loop over the layers returns, for some map. *)
Lemma extractLayers_invariant (layers : list Layer) :
  forall fileMap total pos h log,
    forallb (layer_all P) layers = true -> Inv fileMap h ->
    exists fileMap', Inv fileMap' (extractLayers i fileMap total pos layers h log).1.2.
Proof.
  induction layers as [|l layers IH]; intros fileMap total pos h log Hall HI;
    [now exists fileMap|].
  simpl in Hall. apply andb_true_iff in Hall as [Hl Hall]. cbn [extractLayers].
  destruct (Digest l) as [d|e]; [|now exists fileMap].
  unfold layer_all in Hl.
  destruct (Uncompressed l) as [s|e]; [|now exists fileMap].
  pose proof (writeLayer_invariant s fileMap h Hl HI) as HW.
  destruct (writeLayer i fileMap s h) as [[[e|] fm1] h1]; [now exists fm1|].
  now apply IH.
Qed.

End Invariants.

(** ** Skipped entries and well-formedness over a run *)

Section RunFacts.

Import Os.

Lemma exists_at_absent (p : path) (h : host) :
  Forall (fun e => elem_ok e = true) p -> p <> [] -> nodes h !! p = None ->
  exists_at (abs_path p) h = false.
Proof.
  intros Hok Hp Hnone. unfold exists_at. rewrite Lstat_abs by exact Hok.
  destruct (stat h p) as [n|e] eqn:Es; [|reflexivity].
  apply walk_Found in Es. rewrite app_nil_l, (node_at_ne _ _ Hp) in Es. congruence.
Qed.

(** X1. An entry of a skipped type (symbolic link, hard link, device,
    FIFO) that [writeLayer] processes without an error leaves nothing at its
    path: what was there, such as a file of a newer layer, is removed, and
    nothing is created. *)
Lemma writeLayer_skipped_leaves_nothing (i : DirImage)
    (fileMap fileMap' : gmap string bool) (hdr : Tar.Header) (data : string)
    (data_err : option error) (h h' : host) :
  Filepath.rooted (dirPath i) = true ->
  wf_nodes (nodes h) ->
  is_skipped (Tar.Typeflag hdr) = true ->
  not_whiteout_header i hdr = true ->
  inWhiteoutDir fileMap (hydrateFilepath i (Tar.Name hdr)) = false ->
  Tar.Name hdr <> "." ->
  writeLayer i fileMap (tsNext hdr data data_err tsEOF) h = (None, fileMap', h') ->
  exists_at (hydrateFilepath i (Tar.Name hdr)) h' = false.
Proof.
  intros Hr Hwf Ht Hw Hin Hname. unfold not_whiteout_header in Hw.
  apply negb_true_iff in Hw. cbn [writeLayer]. rewrite Hw, Hin.
  assert (Hsk : forall h0, extractTarEntry i hdr data data_err h0
             = MkdirAll (abs_path (parent (entry_path i (Tar.Name hdr))))
                 (Tar.octal 7 7 7) h0).
  { intros h0. rewrite (extractTarEntry_skipped _ _ _ _ _ Ht).
    now rewrite (Dir_hydrateFilepath _ _ Hr). }
  rewrite (hydrateFilepath_abs _ _ Hr).
  set (p := entry_path i (Tar.Name hdr)).
  assert (Hok : Forall (fun e => elem_ok e = true) p) by apply entry_path_ok.
  assert (Hdir : Ascii.eqb (Tar.Typeflag hdr) Tar.TypeDir = false)
    by now apply is_skipped_inv in Ht.
  assert (Hex : forall h0, nodes h0 !! p = None -> p <> [] ->
              match MkdirAll (abs_path (parent p)) (Tar.octal 7 7 7) h0 with
              | (Some err, h1) => (Some err, <[Tar.Name hdr := true]> fileMap, h1)
              | (None, h1) => (None, <[Tar.Name hdr := true]> fileMap, h1)
              end = (None, fileMap', h') ->
              exists_at (abs_path p) h' = false).
  { intros h0 Hnone Hp Hrun.
    pose proof (MkdirAll_parent_keeps p (Tar.octal 7 7 7) h0 Hok) as Hkeep.
    destruct (MkdirAll _ _ h0) as [[e|] h1]; [discriminate|].
    inversion Hrun; subst. cbn [snd] in Hkeep.
    apply exists_at_absent; [exact Hok | exact Hp | congruence]. }
  rewrite Lstat_abs by exact Hok.
  destruct (stat h p) as [fi|e] eqn:Es.
  - apply String.eqb_neq in Hname. rewrite Hname, Hdir, !andb_false_r. cbn [negb].
    rewrite RemoveAll_abs by exact Hok. rewrite Es.
    destruct (blocked (nodes h) p) eqn:Hb; [discriminate|].
    rewrite Hsk. apply Hex.
    + cbn [nodes with_nodes]. rewrite lookup_remove_tree_ok by exact Hb.
      assert (is_prefix p p = true) as -> by now apply is_prefix_true. reflexivity.
    + intros E. now rewrite E in Hb.
  - apply walk_wf_Missing in Es; [|exact Hwf].
    rewrite Hsk. apply Hex; destruct p; try discriminate; exact Es.
Qed.

Lemma writeLayer_skipped_leaves_nothing_witness :
  let i := dir_image "/dest" [] in
  let h := (extractTarEntry i (mk_header Tar.TypeReg "bin/sh" 493) "v2" None
              empty_host).2 in
  let run := writeLayer i ∅ (tsNext (mk_header Tar.TypeSymlink "bin/sh" 511) "" None tsEOF)
               h in
  file_data "/dest/bin/sh" h = Some "v2"
  /\ run.1.1 = None
  /\ exists_at "/dest/bin/sh" run.2 = false.
Proof.
  intros i h run. split; [reflexivity|]. split; [reflexivity|].
  exact (writeLayer_skipped_leaves_nothing i ∅ run.1.2
           (mk_header Tar.TypeSymlink "bin/sh" 511) "" None h run.2 eq_refl
           (extractTarEntry_wf i (mk_header Tar.TypeReg "bin/sh" 493) "v2" None
              empty_host wf_nodes_empty)
           eq_refl eq_refl eq_refl ltac:(discriminate) ltac:(vm_compute; reflexivity)).
Defined.

(** A run keeps the tree well formed. *)
Lemma writeLayer_wf (i : DirImage) (stream : tarStream)
    (fileMap : gmap string bool) (h : host) :
  wf_nodes (nodes h) -> wf_nodes (nodes (writeLayer i fileMap stream h).2).
Proof.
  intros Hwf.
  apply (writeLayer_invariant i (fun _ => true) (fun _ h => wf_nodes (nodes h)));
    try assumption.
  - intros fm h0 hdr _ HI path base _ r. split; now apply RemoveAll_wf.
  - intros fm h0 hdr _ HI path _. now apply RemoveAll_wf.
  - intros fm h0 hdr data derr _ HI _. now apply extractTarEntry_wf.
  - clear. induction stream as [| |hdr data derr rest IH]; try reflexivity. exact IH.
Qed.

Lemma AsDirectory_wf (i : DirImage) (h : host) :
  wf_nodes (nodes h) -> wf_nodes (nodes (AsDirectory i h).1.2).
Proof.
  intros Hwf. unfold AsDirectory.
  pose proof (RemoveAll_wf (dirPath i) h Hwf) as HwfA.
  destruct (RemoveAll (dirPath i) h) as [[e|] hA]; [exact HwfA|].
  pose proof (MkdirAll_wf (dirPath i) (Tar.octal 7 7 7) hA HwfA) as HwfS.
  destruct (MkdirAll (dirPath i) (Tar.octal 7 7 7) hA) as [[e|] hS]; [exact HwfS|].
  destruct (Layers (img i)) as [layers|e]; [|exact HwfS].
  cbn [snd] in HwfS. generalize (rev layers) (∅ : gmap string bool) 1%nat
    (@nil logged) hS HwfS.
  intros ls. induction ls as [|l ls IH]; intros fm pos log h0 H0; [exact H0|].
  cbn [extractLayers]. destruct (Digest l); [|exact H0].
  destruct (Uncompressed l) as [st|e]; [|exact H0].
  pose proof (writeLayer_wf i st fm h0 H0) as HW.
  destruct (writeLayer i fm st h0) as [[[e|] fm1] h1]; [exact HW|]. now apply IH.
Qed.

End RunFacts.

(** ** The last entry of a run *)

Section OlderWins.

Import Os.

Lemma HasPrefix_whiteout_relative (s : string) :
  GoStrings.HasPrefix s whiteoutPrefix = true -> Filepath.rooted s = false.
Proof. intros H. apply HasPrefix_inv in H as [t ->]. reflexivity. Qed.

Lemma relative_inv_insert (fileMap : gmap string bool) (h : host) (k : string) :
  relative_inv fileMap h -> Filepath.rooted k = false ->
  relative_inv (<[k := true]> fileMap) h.
Proof.
  intros [H1 H2] Hk. split; [exact H1|]. intros k' Hk'.
  destruct (decide (k = k')) as [<- | Hne]; [exact Hk|].
  rewrite lookup_insert_ne in Hk' by exact Hne. now apply H2.
Qed.

Lemma relative_inv_host (fileMap : gmap string bool) (h h' : host) :
  relative_inv fileMap h -> wf_nodes (nodes h') -> relative_inv fileMap h'.
Proof. intros [_ H2] H. now split. Qed.

Lemma writeLayer_relative_inv (i : DirImage) (stream : tarStream)
    (fileMap : gmap string bool) (h : host) :
  stream_all relative_header stream = true -> relative_inv fileMap h ->
  relative_inv (writeLayer i fileMap stream h).1.2 (writeLayer i fileMap stream h).2.
Proof.
  apply writeLayer_invariant.
  - intros fm h0 hdr _ HI path base Hw r. split.
    + eapply relative_inv_host; [exact HI | apply RemoveAll_wf, HI].
    + apply relative_inv_insert; [|now apply HasPrefix_whiteout_relative].
      eapply relative_inv_host; [exact HI | apply RemoveAll_wf, HI].
  - intros fm h0 hdr _ HI path _.
    eapply relative_inv_host; [exact HI | apply RemoveAll_wf, HI].
  - intros fm h0 hdr data derr HP HI _.
    apply relative_inv_insert; [|now apply negb_true_iff in HP].
    eapply relative_inv_host; [exact HI | apply extractTarEntry_wf, HI].
Qed.

(** The layers before the last: what is left for the last layer to do. *)
Lemma extractLayers_app_relative (i : DirImage) (l1 l2 : list Layer) :
  forall fileMap total pos h log h' log',
    forallb (layer_all relative_header) l1 = true -> relative_inv fileMap h ->
    extractLayers i fileMap total pos (l1 ++ l2) h log = (None, h', log') ->
    exists fileMap1 pos1 h1 log1,
      relative_inv fileMap1 h1
      /\ extractLayers i fileMap1 total pos1 l2 h1 log1 = (None, h', log').
Proof.
  induction l1 as [|l l1 IH]; intros fileMap total pos h log h' log' Hall HI Hrun.
  - now exists fileMap, pos, h, log.
  - simpl in Hall. apply andb_true_iff in Hall as [Hl Hall].
    change ((l :: l1) ++ l2) with (l :: (l1 ++ l2)) in Hrun. cbn [extractLayers] in Hrun.
    destruct (Digest l) as [d|e]; [|discriminate].
    unfold layer_all in Hl. destruct (Uncompressed l) as [s|e]; [|discriminate].
    pose proof (writeLayer_relative_inv i s fileMap h Hl HI) as HW.
    destruct (writeLayer i fileMap s h) as [[[e|] fm1] h1]; [discriminate|].
    eapply IH; eauto.
Qed.

Lemma extractTarEntry_regular_nonroot (i : DirImage) (header : Tar.Header)
    (input : string) (ierr : option error) (h h' : host) :
  Filepath.rooted (dirPath i) = true ->
  is_regular (Tar.Typeflag header) = true ->
  extractTarEntry i header input ierr h = (None, h') ->
  entry_path i (Tar.Name header) <> [].
Proof.
  intros Hr Ht. rewrite extractTarEntry_abs by exact Hr. cbv zeta.
  intros Hex Hp. rewrite Hp in Hex.
  destruct (MkdirAll _ _ h) as [[e|] h1]; [discriminate|].
  assert (Hdir : Ascii.eqb (Tar.Typeflag header) Tar.TypeDir = false).
  { unfold is_regular in Ht. apply orb_true_iff in Ht as [Ht | Ht];
      apply Ascii.eqb_eq in Ht; now rewrite Ht. }
  rewrite Hdir, Ht in Hex. rewrite OpenFile_abs in Hex by constructor.
  cbn [parent removelast node_at] in Hex.
  destruct (stat h1 []) as [[a|a d]|e]; discriminate.
Qed.

(** The last entry of the run, a regular one that is no whiteout: where it
    returns without an error the file of the entry is there. *)
Lemma writeLayer_regular_last (i : DirImage) (fileMap fileMap' : gmap string bool)
    (hdr : Tar.Header) (data : string) (h h' : host) :
  Filepath.rooted (dirPath i) = true ->
  relative_inv fileMap h ->
  is_regular (Tar.Typeflag hdr) = true ->
  GoStrings.HasPrefix (Filepath.Base (hydrateFilepath i (Tar.Name hdr)))
    whiteoutPrefix = false ->
  Tar.Name hdr <> "." ->
  writeLayer i fileMap (tsNext hdr data None tsEOF) h = (None, fileMap', h') ->
  wf_nodes (nodes h')
  /\ nodes h' !! entry_path i (Tar.Name hdr)
     = Some (Regular (written_attrs i hdr h) data)
  /\ entry_path i (Tar.Name hdr) <> [].
Proof.
  intros Hr [Hwf Hkeys] Ht Hw Hname. cbn [writeLayer]. rewrite Hw.
  rewrite inWhiteoutDir_rooted;
    [|exact Hkeys | rewrite (hydrateFilepath_abs _ _ Hr); apply rooted_abs_path].
  set (p := entry_path i (Tar.Name hdr)).
  assert (Hok : Forall (fun e => elem_ok e = true) p) by apply entry_path_ok.
  assert (Hdir : Ascii.eqb (Tar.Typeflag hdr) Tar.TypeDir = false).
  { unfold is_regular in Ht. apply orb_true_iff in Ht as [Ht | Ht];
      apply Ascii.eqb_eq in Ht; now rewrite Ht. }
  assert (Hex : forall h0, wf_nodes (nodes h0) -> nodes h0 !! p = None ->
              written_attrs i hdr h0 = written_attrs i hdr h ->
              match extractTarEntry i hdr data None h0 with
              | (Some err, h1) => (Some err, <[Tar.Name hdr := true]> fileMap, h1)
              | (None, h1) => (None, <[Tar.Name hdr := true]> fileMap, h1)
              end = (None, fileMap', h') ->
              wf_nodes (nodes h')
              /\ nodes h' !! p = Some (Regular (written_attrs i hdr h) data)
              /\ p <> []).
  { intros h0 Hwf0 Hnone Hattrs Hrun.
    pose proof (extractTarEntry_wf i hdr data None h0 Hwf0) as Hwf1.
    destruct (extractTarEntry i hdr data None h0) as [[e|] h1] eqn:E; [discriminate|].
    inversion Hrun; subst. split; [exact Hwf1|]. split.
    - rewrite <- Hattrs. eapply extractTarEntry_regular_created; eauto.
    - eapply extractTarEntry_regular_nonroot; eauto. }
  rewrite (hydrateFilepath_abs _ _ Hr). fold p. rewrite Lstat_abs by exact Hok.
  destruct (stat h p) as [fi|e] eqn:Es.
  - apply String.eqb_neq in Hname. rewrite Hname, Hdir, !andb_false_r. cbn [negb].
    rewrite RemoveAll_abs by exact Hok. rewrite Es.
    destruct (blocked (nodes h) p) eqn:Hb; [discriminate|].
    apply Hex; [now apply wf_remove_tree | | reflexivity].
    cbn [nodes with_nodes]. rewrite lookup_remove_tree_ok by exact Hb.
    assert (is_prefix p p = true) as -> by now apply is_prefix_true. reflexivity.
  - apply Hex; [exact Hwf | | reflexivity].
    apply walk_wf_Missing in Es; [|exact Hwf].
    destruct p; [discriminate | exact Es].
Qed.

End OlderWins.

(** ** The layer processed last wins *)

Section OlderWinsTheorem.

Import Os.

Lemma forallb_rev {A : Type} (f : A -> bool) (l : list A) :
  forallb f (rev l) = forallb f l.
Proof.
  induction l as [|x l IH]; [reflexivity|]. simpl.
  rewrite forallb_app, IH. simpl. rewrite andb_true_r. apply andb_comm.
Qed.

Lemma writeLayer_then_relative (i : DirImage) (pre tail : tarStream)
    (fileMap fileMap' : gmap string bool) (h h' : host) :
  stream_all relative_header (stream_then pre tail) = true ->
  stream_all (not_whiteout_header i) pre = true ->
  relative_inv fileMap h ->
  writeLayer i fileMap (stream_then pre tail) h = (None, fileMap', h') ->
  exists fileMap1 h1,
    relative_inv fileMap1 h1 /\ stream_all relative_header tail = true
    /\ writeLayer i fileMap1 tail h1 = (None, fileMap', h').
Proof.
  apply writeLayer_then_invariant.
  - intros fm h0 hdr _ HI path _.
    eapply relative_inv_host; [exact HI | apply RemoveAll_wf, HI].
  - intros fm h0 hdr data derr HP HI _.
    apply relative_inv_insert; [|now apply negb_true_iff in HP].
    eapply relative_inv_host; [exact HI | apply extractTarEntry_wf, HI].
Qed.



End OlderWinsTheorem.

(** ** Everything stays under the root *)

Section Frame.

Import Os.

Variable i : DirImage.
Hypothesis Hrooted : Filepath.rooted (dirPath i) = true.
Hypothesis Hbase :
  GoStrings.HasPrefix (Filepath.Base (Filepath.Clean (dirPath i))) whiteoutPrefix = false.

Lemma safe_header_no_dotdot (hdr : Tar.Header) :
  safe_header hdr = true ->
  Forall (fun e => String.eqb e ".." = false) (name_elems (Tar.Name hdr)).
Proof.
  unfold safe_header. rewrite forallb_forall. intros H. apply List.Forall_forall.
  intros e He. apply H in He. apply andb_true_iff in He as [He _].
  now apply negb_true_iff in He.
Qed.

Lemma safe_header_entry_path (hdr : Tar.Header) :
  safe_header hdr = true ->
  entry_path i (Tar.Name hdr)
  = root_path i ++ List.filter kept (name_elems (Tar.Name hdr)).
Proof. intros H. apply entry_path_no_dotdot. now apply safe_header_no_dotdot. Qed.

Lemma safe_header_under_root (hdr : Tar.Header) :
  safe_header hdr = true -> root_path i `prefix_of` entry_path i (Tar.Name hdr).
Proof. intros H. rewrite (safe_header_entry_path _ H). now apply prefix_app_r. Qed.

(** The path a whiteout asks to remove lies under the root. *)
Lemma whiteout_target_under_root (hdr : Tar.Header) :
  safe_header hdr = true ->
  let path := hydrateFilepath i (Tar.Name hdr) in
  let base := Filepath.Base path in
  GoStrings.HasPrefix base whiteoutPrefix = true ->
  exists tp, Forall (fun e => elem_ok e = true) tp
             /\ root_path i `prefix_of` tp
             /\ Filepath.Join [Filepath.Dir path; GoStrings.TrimPrefix base whiteoutPrefix]
                = abs_path tp.
Proof.
  intros Hsafe path base Hw. unfold base, path in *.
  rewrite (hydrateFilepath_abs _ _ Hrooted) in *.
  pose proof (entry_path_ok i (Tar.Name hdr)) as Hok.
  rewrite (safe_header_entry_path _ Hsafe) in *.
  set (ks := List.filter kept (name_elems (Tar.Name hdr))) in *.
  assert (Hks : Forall (fun e => In e (name_elems (Tar.Name hdr))) ks).
  { apply List.Forall_forall. intros e He. unfold ks in He.
    now apply filter_In in He. }
  clearbody ks. induction ks as [|b ks' _] using rev_ind.
  - rewrite app_nil_r in Hw. unfold root_path in Hw.
    rewrite <- (Clean_rooted _ Hrooted) in Hw. congruence.
  - rewrite app_assoc in *. rewrite Base_abs_path in * by exact Hok.
    rewrite Dir_abs_path by exact Hok. rewrite removelast_last.
    apply Forall_app in Hok as [Hok' Hb]. inversion Hb as [|? ? Hb' _]; subst.
    apply HasPrefix_inv in Hw as [t ->]. rewrite TrimPrefix_append.
    rewrite Join_abs_path by exact Hok'.
    apply elem_ok_inv in Hb' as (_ & _ & _ & Hsep).
    rewrite Contains_append in Hsep. apply orb_false_iff in Hsep as [_ Hsep].
    rewrite (Split_no_sep _ _ Hsep).
    assert (Hnd : String.eqb t ".." = false).
    { apply Forall_app in Hks as [_ Hin]. inversion Hin as [|? ? Hin' _]; subst.
      unfold safe_header in Hsafe. rewrite forallb_forall in Hsafe.
      apply Hsafe in Hin'. apply andb_true_iff in Hin' as [_ Hin'].
      apply negb_true_iff in Hin'. apply String.eqb_neq in Hin'.
      apply String.eqb_neq. intros ->. now apply Hin'. }
    cbn [Filepath.clean_stack]. rewrite Hnd.
    destruct (String.eqb t "" || String.eqb t ".") eqn:E.
    + exists (root_path i ++ ks'). rewrite rev_involutive.
      split; [exact Hok' | split; [now apply prefix_app_r | reflexivity]].
    + exists ((root_path i ++ ks') ++ [t]).
      change (rev (t :: rev (root_path i ++ ks')))
        with (rev (rev (root_path i ++ ks')) ++ [t]). rewrite rev_involutive.
      apply orb_false_iff in E as [E1 E2].
      split; [|split; [rewrite <- app_assoc; now apply prefix_app_r | reflexivity]].
      apply Forall_app. split; [exact Hok'|]. constructor; [|constructor].
      unfold elem_ok. now rewrite E1, E2, Hnd, Hsep.
Qed.

Variable S : host.
Hypothesis Hancestors :
  forall q, q `prefix_of` root_path i -> q <> root_path i -> q <> [] ->
            exists a, nodes S !! q = Some (Directory a).

Lemma frame_inv_RemoveAll (tp : path) (h : host) :
  Forall (fun e => elem_ok e = true) tp -> root_path i `prefix_of` tp ->
  frame_inv (root_path i) S h ->
  frame_inv (root_path i) S (RemoveAll (abs_path tp) h).2.
Proof.
  intros Hok Hu HI. rewrite RemoveAll_abs by exact Hok.
  destruct (stat h tp) as [n|[]]; try exact HI. cbn [snd].
  destruct HI as (Hf & Hwf & Hout & Hpin). split; [|split; [|split]].
  - rewrite Hf. reflexivity.
  - now apply wf_remove_tree.
  - intros q Hq. cbn [nodes with_nodes]. rewrite lookup_remove_tree.
    destruct (is_prefix tp q) eqn:E; [|now apply Hout].
    apply is_prefix_true in E. exfalso. apply Hq. now transitivity tp.
  - intros q n' Hq Hn. cbn [nodes with_nodes] in Hn.
    apply remove_tree_subseteq in Hn. eapply Hpin; eauto.
Qed.

Lemma prefix_of_parent_cases (q p : path) :
  root_path i `prefix_of` p -> q `prefix_of` parent p ->
  root_path i `prefix_of` q \/ (q `prefix_of` root_path i /\ q <> root_path i).
Proof.
  intros Hp Hq.
  assert (Hqp : q `prefix_of` p).
  { etrans; [exact Hq|]. induction p as [|b p _] using rev_ind; [reflexivity|].
    rewrite parent_snoc. now apply prefix_app_r. }
  destruct (prefix_weak_total _ _ _ Hp Hqp) as [H | H]; [now left|].
  destruct (decide (q = root_path i)) as [-> | Hne]; [now left | now right].
Qed.

Lemma frame_inv_extractTarEntry (hdr : Tar.Header) (data : string)
    (data_err : option error) (h : host) :
  safe_header hdr = true ->
  frame_inv (root_path i) S h ->
  frame_inv (root_path i) S (extractTarEntry i hdr data data_err h).2.
Proof.
  intros Hsafe HI. pose proof (safe_header_under_root _ Hsafe) as Hu.
  destruct (extractTarEntry_effect i hdr data data_err h Hrooted) as (m & E & [O1 O2] & _).
  set (p := entry_path i (Tar.Name hdr)) in *.
  pose proof (extractTarEntry_wf i hdr data data_err h) as Hwf'.
  destruct HI as (Hf & Hwf & Hout & Hpin).
  assert (Hpar : Forall (fun e => elem_ok e = true) (parent p))
    by apply parent_ok, entry_path_ok.
  rewrite MkdirAll_abs in O1, O2 by exact Hpar.
  destruct (mkdir_walk (fresh_attrs h (Tar.octal 7 7 7)) (nodes h) [] (parent p))
    as [r m1] eqn:Hmk.
  assert (Hm1 : nodes (match r with
                       | Some e => (Some (PathError "mkdir" (abs_path (parent p)) e),
                                    with_nodes h m1)
                       | None => (None, with_nodes h m1)
                       end).2 = m1) by now destruct r.
  rewrite Hm1 in O1, O2. clear Hm1.
  rewrite E. split; [|split; [|split]].
  - rewrite Hf. reflexivity.
  - rewrite <- E. now apply Hwf'.
  - intros q Hq. cbn [nodes with_nodes]. rewrite O1 by (intros ->; contradiction).
    destruct (mkdir_walk_lookup _ _ _ _ _ _ Hmk q) as [-> | (Hnone & _ & _ & Hqp & Hne)];
      [now apply Hout|].
    exfalso. rewrite app_nil_l in Hqp.
    destruct (prefix_of_parent_cases q p Hu Hqp) as [H | [H1 H2]]; [contradiction|].
    destruct (Hancestors q H1 H2 Hne) as [a Ha].
    rewrite (Hout q Hq) in Hnone. congruence.
  - intros q n' Hq Hn. cbn [nodes with_nodes] in Hn.
    assert (Hm1 : forall n1, m1 !! q = Some n1 -> a_pinned (node_attrs n1) = false).
    { intros n1 Hn1.
      destruct (mkdir_walk_lookup _ _ _ _ _ _ Hmk q) as [Hsame | (_ & Hnew & _)].
      - rewrite Hsame in Hn1. eapply Hpin; eauto.
      - rewrite Hnew in Hn1. now inversion Hn1. }
    destruct (decide (q = p)) as [-> | Hne].
    + destruct (a_pinned (node_attrs n')) eqn:Ep; [|reflexivity].
      destruct (O2 _ Hn Ep) as (n1 & Hn1 & Hp1). apply Hm1 in Hn1. congruence.
    + rewrite O1 in Hn by exact Hne. now apply Hm1.
Qed.

(** [writeLayer] keeps the frame on a stream of safe headers. *)
Lemma writeLayer_frame_inv (stream : tarStream) (fileMap : gmap string bool) (h : host) :
  stream_all safe_header stream = true ->
  frame_inv (root_path i) S h ->
  frame_inv (root_path i) S (writeLayer i fileMap stream h).2.
Proof.
  apply (writeLayer_invariant i safe_header (fun _ h => frame_inv (root_path i) S h)).
  - intros fm h0 hdr Hsafe HI path base Hw r.
    destruct (whiteout_target_under_root hdr Hsafe Hw) as (tp & Hok & Hu & Htp).
    subst r base path. cbv beta. rewrite Htp.
    split; now apply frame_inv_RemoveAll.
  - intros fm h0 hdr Hsafe HI path _. subst path. cbv beta.
    rewrite (hydrateFilepath_abs _ _ Hrooted).
    apply frame_inv_RemoveAll; [apply entry_path_ok | | exact HI].
    now apply safe_header_under_root.
  - intros fm h0 hdr data derr Hsafe HI _. now apply frame_inv_extractTarEntry.
Qed.


End Frame.

(** ** The wipe and the root *)

Section Rerun.

Import Os.

Lemma resolve_rooted (h : host) (s : string) :
  Filepath.rooted s = true ->
  resolve h s = Some (Filepath.clean_elems true (GoStrings.Split s Filepath.Separator)).
Proof.
  intros Hs. unfold resolve. destruct s; [discriminate|]. now rewrite Hs.
Qed.







End Rerun.

(** ** Running twice *)

Section RerunTheorem.

Import Os.




End RerunTheorem.

(** * Further properties of the code *)

(** ** [hydrateFilepath]: separators and the form of its result *)

Section Separators.

Import GoStrings.

Lemma forallb_Forall_true {A : Type} (f : A -> bool) (l : list A) :
  forallb f l = true <-> Forall (fun x => f x = true) l.
Proof.
  rewrite forallb_forall, List.Forall_forall. reflexivity.
Qed.

Lemma Contains_Join (es : list string) (c d : ascii) :
  Forall (fun e => Contains e c = false) es -> Ascii.eqb d c = false ->
  Contains (Join es d) c = false.
Proof.
  intros Hall Hd. induction Hall as [|e es He _ IH]; [reflexivity|].
  destruct es as [|e' es]; [exact He|].
  rewrite Join_cons by discriminate. rewrite Contains_append, He. simpl.
  now rewrite Hd.
Qed.

Lemma Contains_Join_sep (e e' : string) (es : list string) (c : ascii) :
  Contains (Join (e :: e' :: es) c) c = true.
Proof.
  rewrite Join_cons by discriminate. rewrite Contains_append. simpl.
  rewrite Ascii.eqb_refl. apply orb_true_r.
Qed.

(** X2. Names written with backslashes and names written with slashes
    give the same path: for elements that hold neither separator,
    [hydrateFilepath] of the elements joined with a backslash is
    [hydrateFilepath] of the elements joined with a slash, for every
    destination. *)
Theorem hydrateFilepath_either_separator (i : DirImage) (elems : list string) :
  forallb plain_elem elems = true ->
  hydrateFilepath i (Join elems "\"%char) = hydrateFilepath i (Join elems "/"%char).
Proof.
  intros Hall. apply forallb_Forall_true in Hall.
  assert (H1 : Forall (fun e => Contains e "/"%char = false) elems).
  { eapply Forall_impl; [exact Hall|]. intros e He.
    unfold plain_elem in He. apply andb_true_iff in He as [He _].
    now apply negb_true_iff in He. }
  assert (H2 : Forall (fun e => Contains e "\"%char = false) elems).
  { eapply Forall_impl; [exact Hall|]. intros e He.
    unfold plain_elem in He. apply andb_true_iff in He as [_ He].
    now apply negb_true_iff in He. }
  destruct elems as [|e [|e' es]]; [reflexivity | reflexivity |].
  unfold hydrateFilepath.
  rewrite Contains_Join_sep.
  rewrite (Contains_Join _ "\"%char "/"%char H2 eq_refl).
  rewrite !Split_Join by (try discriminate; assumption). reflexivity.
Qed.

Lemma hydrateFilepath_either_separator_witness :
  let i := dir_image "/dest" [] in
  hydrateFilepath i "conf\app\a.yml" = hydrateFilepath i "conf/app/a.yml"
  /\ hydrateFilepath i "conf\app\a.yml" = "/dest/conf/app/a.yml".
Proof.
  intros i. split; [|reflexivity].
  exact (hydrateFilepath_either_separator i ["conf"; "app"; "a.yml"] eq_refl).
Defined.

End Separators.

Section CleanPaths.

Import Filepath.

(** X3. With an absolute destination [hydrateFilepath] returns, for every
    entry name, an absolute path in the form [Clean] gives: cleaning it again
    changes nothing, and it is the string of a list of proper names (none
    empty, [.] or [..], none with a separator). *)
Theorem hydrateFilepath_clean_absolute (i : DirImage) (fPath : string) :
  rooted (dirPath i) = true ->
  rooted (hydrateFilepath i fPath) = true
  /\ Clean (hydrateFilepath i fPath) = hydrateFilepath i fPath
  /\ exists p, forallb elem_ok p = true
               /\ hydrateFilepath i fPath = String Separator (GoStrings.Join p Separator).
Proof.
  intros Hr. rewrite (hydrateFilepath_abs _ _ Hr).
  pose proof (entry_path_ok i fPath) as Hok.
  split; [reflexivity|]. split; [now apply Clean_abs_path|].
  exists (entry_path i fPath). split; [|reflexivity].
  now apply forallb_Forall_true.
Qed.

Lemma hydrateFilepath_clean_absolute_witness :
  let i := dir_image "/srv//out/" [] in
  let s := hydrateFilepath i "a//./b/../c/" in
  s = "/srv/out/a/c" /\ rooted s = true /\ Clean s = s.
Proof.
  intros i s. split; [reflexivity|].
  destruct (hydrateFilepath_clean_absolute i "a//./b/../c/" eq_refl) as (H1 & H2 & _).
  exact (conj H1 H2).
Defined.

End CleanPaths.

(** ** The loop of [inWhiteoutDir] *)

Section WhiteoutLoop.

Import Filepath.

(** More fuel does not change what the loop returns. *)
Lemma inWhiteoutDir_loop_more (fileMap : gmap string bool) (n : nat) :
  forall m file b, (n <= m)%nat ->
    inWhiteoutDir_loop n fileMap file = Some b ->
    inWhiteoutDir_loop m fileMap file = Some b.
Proof.
  induction n as [|n IH]; intros m file b Hle; [discriminate|].
  destruct m as [|m]; [lia|]. simpl.
  destruct (String.eqb file ""); [auto|].
  destruct (String.eqb file (Dir file)); [auto|].
  destruct (fileMap !! Dir file) as [[|]|]; [auto | |]; apply IH; lia.
Qed.

(** X4. The loop of [inWhiteoutDir] ends on every input: every path string
    and every map give an answer within [2 * len(file) + 2] iterations, and
    the answer is the same with every larger bound. *)
Theorem inWhiteoutDir_terminates (fileMap : gmap string bool) (file : string)
    (n : nat) :
  (inWhiteoutDir_fuel file <= n)%nat ->
  inWhiteoutDir_loop n fileMap file = Some (inWhiteoutDir fileMap file).
Proof.
  intros Hn. eapply inWhiteoutDir_loop_more; [exact Hn|]. apply inWhiteoutDir_total.
Qed.

Lemma inWhiteoutDir_terminates_witness :
  inWhiteoutDir_loop 100 {[ "/dest/d" := true ]} "/dest/d/e/f" = Some true
  /\ inWhiteoutDir {[ "/dest/d" := true ]} "/dest/d/e/f" = true.
Proof.
  split; [|reflexivity].
  exact (inWhiteoutDir_terminates {[ "/dest/d" := true ]} "/dest/d/e/f" 100
           ltac:(vm_compute; lia)).
Defined.

(** X5. One turn of the loop of [inWhiteoutDir], without a bound: for a
    path that is not empty and not its own parent directory, the answer is
    yes when the map holds the parent with value true, and otherwise the
    answer for the parent; a parent recorded with value false is passed
    over like an absent one. *)
Theorem inWhiteoutDir_parent (fileMap : gmap string bool) (file : string) :
  file <> "" -> Dir file <> file ->
  inWhiteoutDir fileMap file
  = match fileMap !! Dir file with
    | Some true => true
    | _ => inWhiteoutDir fileMap (Dir file)
    end.
Proof.
  intros Hne Hd. pose proof (inWhiteoutDir_total fileMap file) as Ht.
  unfold inWhiteoutDir_fuel in Ht.
  replace (2 * String.length file + 2)%nat
    with (Datatypes.S (2 * String.length file + 1)) in Ht by lia.
  cbn [inWhiteoutDir_loop] in Ht.
  apply String.eqb_neq in Hne. rewrite Hne in Ht.
  assert (E : String.eqb file (Dir file) = false)
    by (apply String.eqb_neq; congruence).
  rewrite E in Ht.
  assert (Hsub : inWhiteoutDir_loop (2 * String.length file + 1) fileMap (Dir file)
                 = Some (inWhiteoutDir fileMap (Dir file))).
  { destruct (inWhiteoutDir_loop_total fileMap (2 * String.length file + 1) (Dir file))
      as [b Hb].
    - apply String.eqb_neq in Hne.
      pose proof (dir_measure_Dir file Hne Hd) as Hm. unfold dir_measure in Hm at 2.
      destruct (String.eqb file "."); lia.
    - rewrite Hb. f_equal.
      set (k := Nat.max (inWhiteoutDir_fuel (Dir file)) (2 * String.length file + 1)).
      assert (H1 : inWhiteoutDir_loop k fileMap (Dir file)
                   = Some (inWhiteoutDir fileMap (Dir file)))
        by (eapply inWhiteoutDir_loop_more; [|apply inWhiteoutDir_total]; lia).
      assert (H2 : inWhiteoutDir_loop k fileMap (Dir file) = Some b)
        by (eapply inWhiteoutDir_loop_more; [|exact Hb]; lia).
      congruence. }
  destruct (fileMap !! Dir file) as [[|]|]; [congruence | |]; congruence.
Qed.

Lemma inWhiteoutDir_parent_witness :
  inWhiteoutDir {[ "a" := true; "a/b" := false ]} "a/b/c"
  = match ({[ "a" := true; "a/b" := false ]} : gmap string bool) !! Dir "a/b/c" with
    | Some true => true
    | _ => inWhiteoutDir {[ "a" := true; "a/b" := false ]} (Dir "a/b/c")
    end.
Proof.
  exact (inWhiteoutDir_parent {[ "a" := true; "a/b" := false ]} "a/b/c"
           ltac:(discriminate) ltac:(vm_compute; discriminate)).
Defined.

End WhiteoutLoop.

Section WhiteoutKeys.

(** X6. With an absolute destination and entry names that do not begin
    with a separator, [writeLayer] never records an absolute path in the map
    of seen names (it records the base names of whiteouts and the names of
    the headers), while [inWhiteoutDir] is asked about the absolute paths
    [hydrateFilepath] returns and looks up their parent directories: after
    any stream, the check answers no for the path of every entry name. *)
Theorem ancestor_check_never_matches (i : DirImage) (stream : tarStream)
    (fileMap : gmap string bool) (h : host) (name : string) :
  Filepath.rooted (dirPath i) = true ->
  stream_all relative_header stream = true ->
  (forall k, fileMap !! k = Some true -> Filepath.rooted k = false) ->
  inWhiteoutDir (writeLayer i fileMap stream h).1.2 (hydrateFilepath i name) = false.
Proof.
  intros Hr Hall Hfm.
  apply inWhiteoutDir_rooted;
    [|rewrite (hydrateFilepath_abs _ _ Hr); apply rooted_abs_path].
  assert (Hins : forall (fm : gmap string bool) k0,
            (forall k, fm !! k = Some true -> Filepath.rooted k = false) ->
            Filepath.rooted k0 = false ->
            forall k, <[k0 := true]> fm !! k = Some true -> Filepath.rooted k = false).
  { intros fm k0 H H0 k Hk. destruct (decide (k0 = k)) as [<- | Hne]; [exact H0|].
    rewrite lookup_insert_ne in Hk by exact Hne. now apply H. }
  apply (writeLayer_invariant i relative_header
           (fun fm _ => forall k, fm !! k = Some true -> Filepath.rooted k = false));
    try assumption.
  - intros fm h0 hdr _ HI path base Hw r. split; [exact HI|].
    apply Hins; [exact HI | now apply HasPrefix_whiteout_relative].
  - intros fm h0 hdr _ HI path _. exact HI.
  - intros fm h0 hdr data derr HP HI _.
    apply Hins; [exact HI | now apply negb_true_iff in HP].
Qed.

Lemma ancestor_check_never_matches_witness :
  let i := dir_image "/dest" [] in
  let stream := stream_of [(mk_header Tar.TypeReg ".wh.d" 420, "");
                           (mk_header Tar.TypeDir "e" 493, "")] in
  (writeLayer i ∅ stream empty_host).1.2 = {[ ".wh.d" := true; "e" := true ]}
  /\ inWhiteoutDir (writeLayer i ∅ stream empty_host).1.2 (hydrateFilepath i "d/f") = false.
Proof.
  intros i stream. split; [vm_compute; reflexivity|].
  exact (ancestor_check_never_matches i stream ∅ empty_host "d/f" eq_refl eq_refl
           ltac:(intros k Hk; rewrite lookup_empty in Hk; discriminate)).
Defined.

End WhiteoutKeys.

(** ** The computed mode *)

Section ModeAlgebra.

Lemma land_owner_mod (mode : Z) : Z.land mode 448 = Z.land (mode mod 512) 448.
Proof.
  change 512 with (2 ^ 9). rewrite <- Z.land_ones by lia.
  rewrite <- Z.land_assoc. reflexivity.
Qed.

Lemma below_512_cases (P : Z -> bool) :
  forallb P (map Z.of_nat (seq 0 512)) = true ->
  forall r, 0 <= r < 512 -> P r = true.
Proof.
  intros H r Hr. rewrite forallb_forall in H. apply H.
  apply in_map_iff. exists (Z.to_nat r). split; [lia|].
  apply in_seq. lia.
Qed.

(** The owner bits of a mode are [64 * k] for some [k] below 8. *)
Lemma owner_bits_cases (mode : Z) :
  exists k, 0 <= k < 8 /\ Z.land mode 448 = 64 * k.
Proof.
  rewrite land_owner_mod. set (r := mode mod 512).
  assert (Hr : 0 <= r < 512) by (apply Z.mod_pos_bound; lia).
  exists (r / 64). split; [split; [apply Z.div_pos; lia | apply Z.div_lt_upper_bound; lia]|].
  apply Z.eqb_eq.
  apply (below_512_cases (fun r => Z.land r 448 =? 64 * (r / 64))); [|exact Hr].
  vm_compute. reflexivity.
Qed.

Lemma land_group_other_nonneg (mode : Z) : 0 <= Z.land mode 63.
Proof. apply Z.land_nonneg. right. lia. Qed.

(** X7. The mode [extractTarEntry] computes for a file never changes the
    owner's permission bits; it never leaves a file with permissions for its
    owner alone (a computed mode without group and other bits comes from a
    mode without any permission bit); and computing the mode of a computed
    mode changes nothing. *)
Theorem permMode_owner_kept (mode : Z) :
  Z.land (permMode mode) (Tar.octal 7 0 0) = Z.land mode (Tar.octal 7 0 0)
  /\ (Z.land (permMode mode) (Tar.octal 0 7 7) = 0 ->
      Z.land mode (Tar.octal 7 7 7) = 0)
  /\ permMode (permMode mode) = permMode mode.
Proof.
  unfold permMode.
  change (Tar.octal 7 0 0) with 448. change (Tar.octal 0 7 7) with 63.
  change (Tar.octal 7 7 7) with 511.
  pose proof (land_group_other_nonneg mode) as Hnn.
  destruct (Z.gtb_spec (Z.land mode 63) 0) as [Hgt | Hle].
  - split; [reflexivity|]. split; [intros H; lia|].
    destruct (Z.gtb_spec (Z.land mode 63) 0); [reflexivity | lia].
  - assert (H63 : Z.land mode 63 = 0) by lia.
    destruct (owner_bits_cases mode) as (k & Hk & E). rewrite E.
    assert (Hcases : k = 0 \/ k = 1 \/ k = 2 \/ k = 3 \/ k = 4 \/ k = 5 \/ k = 6 \/ k = 7)
      by lia.
    split; [|split].
    + clear E. destruct Hcases as [-> | [-> | [-> | [-> | [-> | [-> | [-> | ->]]]]]]];
        reflexivity.
    + intros H.
      assert (Hk0 : k = 0).
      { clear E. destruct Hcases as [-> | [-> | [-> | [-> | [-> | [-> | [-> | ->]]]]]]];
          [reflexivity | vm_compute in H; discriminate..]. }
      subst k. change 511 with (Z.lor 448 63).
      rewrite Z.land_lor_distr_r, E, H63. reflexivity.
    + clear E. destruct Hcases as [-> | [-> | [-> | [-> | [-> | [-> | [-> | ->]]]]]]];
        reflexivity.
Qed.

End ModeAlgebra.

(** ** The file [extractTarEntry] writes *)

Section WrittenFiles.

Import Os.

(** A regular entry that [extractTarEntry] writes, whether or not a file
    was there: the bytes are those of the entry, the times those of the
    header, the owner the header's when the extractor changes owners; the
    mode and, without a change of owner, the owner are those of the file
    that [OpenFile] opened or created. *)
Lemma extractTarEntry_regular_written (i : DirImage) (header : Tar.Header)
    (input : string) (ierr : option error) (h h' : host) :
  Filepath.rooted (dirPath i) = true ->
  is_regular (Tar.Typeflag header) = true ->
  extractTarEntry i header input ierr h = (None, h') ->
  let p := entry_path i (Tar.Name header) in
  p <> [] /\
  exists a0,
    nodes h' !! p
    = Some (Regular {| a_perm := a_perm a0;
                       a_uid := if shouldChown i then Tar.Uid header else a_uid a0;
                       a_gid := if shouldChown i then Tar.Gid header else a_gid a0;
                       a_atime := Z.max (Tar.AccessTime header) (Tar.ModTime header);
                       a_mtime := Tar.ModTime header;
                       a_pinned := a_pinned a0 |} input)
    /\ match nodes h !! p with
       | None => a0 = fresh_attrs h (permMode (Tar.FileInfo_Mode header))
       | Some n => a_perm a0 = a_perm (node_attrs n)
                   /\ a_uid a0 = a_uid (node_attrs n)
                   /\ a_gid a0 = a_gid (node_attrs n)
       end.
Proof.
  intros Hr Ht. rewrite extractTarEntry_abs by exact Hr.
  set (p := entry_path i (Tar.Name header)) in *. cbv zeta.
  assert (Hok : Forall (fun e => elem_ok e = true) p) by apply entry_path_ok.
  rewrite MkdirAll_abs by now apply parent_ok.
  destruct (mkdir_walk _ (nodes h) [] (parent p)) as [[e|] m1] eqn:Hmk;
    [discriminate|].
  assert (Hdir : Ascii.eqb (Tar.Typeflag header) Tar.TypeDir = false).
  { unfold is_regular in Ht. apply orb_true_iff in Ht as [Ht | Ht];
      apply Ascii.eqb_eq in Ht; now rewrite Ht. }
  rewrite Hdir, Ht. rewrite OpenFile_abs by exact Hok.
  rewrite stat_with_nodes. destruct (walk m1 [] (parent p)) as [[ad|ar dr]|e];
    [|discriminate..].
  rewrite nodes_with_nodes.
  destruct p as [|c0 p0] eqn:Ep; [discriminate|]. rewrite <- Ep in *.
  assert (Hp : p <> []) by (rewrite Ep; discriminate).
  assert (Hm1 : m1 !! p = nodes h !! p).
  { destruct (mkdir_walk_lookup _ _ _ _ _ _ Hmk p) as [-> | (_ & _ & _ & H & _)];
      [reflexivity|]. now apply not_prefix_parent in H. }
  rewrite (node_at_ne _ _ Hp), Hm1.
  assert (Hfin : forall m a,
    lchtimes header (abs_path p) (with_nodes h (<[p := Regular a input]> m)) = (None, h') ->
    nodes h' !! p
    = Some (Regular {| a_perm := a_perm a; a_uid := a_uid a; a_gid := a_gid a;
                       a_atime := Z.max (Tar.AccessTime header) (Tar.ModTime header);
                       a_mtime := Tar.ModTime header;
                       a_pinned := a_pinned a |} input)).
  { intros m a. rewrite lchtimes_regular by exact Ht.
    unfold Chtimes. rewrite update_attrs_abs by exact Hok.
    rewrite stat_with_nodes. destruct (walk _ [] p) as [n|e]; [|discriminate].
    intros H. inversion H; subst h'. rewrite nodes_with_nodes.
    now rewrite alter_insert_eq, lookup_insert_eq. }
  assert (Hrun : forall a0,
    match Copy p input ierr (with_nodes h (<[p := Regular a0 ""]> m1)) with
    | (Some err, h0) => (Some err, h0)
    | (None, h0) =>
        match (if shouldChown i
               then Lchown (abs_path p) (Tar.Uid header) (Tar.Gid header) h0
               else (None, h0)) with
        | (Some err, h1) => (Some err, h1)
        | (None, h1) => lchtimes header (abs_path p) h1
        end
    end = (None, h') ->
    nodes h' !! p
    = Some (Regular {| a_perm := a_perm a0;
                       a_uid := if shouldChown i then Tar.Uid header else a_uid a0;
                       a_gid := if shouldChown i then Tar.Gid header else a_gid a0;
                       a_atime := Z.max (Tar.AccessTime header) (Tar.ModTime header);
                       a_mtime := Tar.ModTime header;
                       a_pinned := a_pinned a0 |} input)).
  { intros a0. unfold Copy. rewrite nodes_with_nodes, with_nodes_with_nodes.
    destruct ierr as [e|]; [discriminate|]. rewrite alter_insert_eq.
    destruct (shouldChown i).
    - unfold Lchown. rewrite update_attrs_abs by exact Hok.
      rewrite stat_with_nodes. destruct (walk _ [] p) as [n|e]; [|discriminate].
      rewrite nodes_with_nodes, with_nodes_with_nodes, alter_insert_eq.
      intros H. now rewrite (Hfin _ _ H).
    - intros H. now rewrite (Hfin _ _ H). }
  destruct (nodes h !! p) as [[a|a d]|] eqn:En.
  - discriminate.
  - cbv zeta. rewrite with_nodes_with_nodes. intros H. split; [exact Hp|].
    eexists. split; [exact (Hrun _ H)|]. repeat split.
  - rewrite with_nodes_with_nodes. intros H. split; [exact Hp|].
    eexists. split; [exact (Hrun _ H)|]. reflexivity.
Qed.

(** X8. After [extractTarEntry] has written a regular entry without an
    error, [os.Lstat] of the entry's path finds a regular file that holds
    exactly the bytes of the entry, whatever the path held before; its
    modification time is the header's, and its access time is the later of
    the header's access and modification times ([lchtimes]), so never before
    the modification time. *)
Theorem written_file_bytes_and_times (i : DirImage) (header : Tar.Header)
    (input : string) (ierr : option error) (h h' : host) :
  Filepath.rooted (dirPath i) = true ->
  wf_nodes (nodes h) ->
  is_regular (Tar.Typeflag header) = true ->
  extractTarEntry i header input ierr h = (None, h') ->
  exists a, Lstat (hydrateFilepath i (Tar.Name header)) h' = inl (Regular a input)
            /\ a_mtime a = Tar.ModTime header
            /\ a_atime a = Z.max (Tar.AccessTime header) (Tar.ModTime header)
            /\ a_mtime a <= a_atime a.
Proof.
  intros Hr Hwf Ht Hrun.
  destruct (extractTarEntry_regular_written _ _ _ _ _ _ Hr Ht Hrun)
    as (Hp & a0 & Hnode & _).
  pose proof (extractTarEntry_wf i header input ierr h Hwf) as Hwf'.
  rewrite Hrun in Hwf'. cbn [snd] in Hwf'.
  eexists. split.
  - rewrite (hydrateFilepath_abs _ _ Hr), Lstat_abs by apply entry_path_ok.
    unfold stat. erewrite walk_wf; [reflexivity | exact Hwf' |].
    rewrite node_at_ne by exact Hp. exact Hnode.
  - cbn [a_mtime a_atime]. repeat split; lia.
Qed.

Lemma written_file_bytes_and_times_witness :
  let i := dir_image "/dest" [] in
  let header := mk_header Tar.TypeReg "etc/conf" 420 in
  let h' := (extractTarEntry i header "v1" None empty_host).2 in
  exists a, Lstat "/dest/etc/conf" h' = inl (Regular a "v1")
            /\ a_mtime a = 200 /\ a_atime a = 200 /\ a_mtime a <= a_atime a.
Proof.
  intros i header h'.
  exact (written_file_bytes_and_times i header "v1" None empty_host h'
           eq_refl wf_nodes_empty eq_refl ltac:(vm_compute; reflexivity)).
Defined.

(** X9. The owner of a file [extractTarEntry] creates, for an extractor
    made by [NewDirImage]: when the process runs as user 0 the owner and
    group are the header's [Uid] and [Gid] ([os.Lchown] is called), otherwise
    they are those of the process and the header's are ignored. *)
Theorem created_file_owner (dest : string) (image : Image) (h0 : host)
    (header : Tar.Header) (input : string) (ierr : option error) (h h' : host) :
  let i := NewDirImage dest image h0 in
  Filepath.rooted dest = true ->
  euid h = euid h0 ->
  is_regular (Tar.Typeflag header) = true ->
  nodes h !! entry_path i (Tar.Name header) = None ->
  extractTarEntry i header input ierr h = (None, h') ->
  exists a, nodes h' !! entry_path i (Tar.Name header) = Some (Regular a input)
            /\ a_uid a = (if euid h =? 0 then Tar.Uid header else euid h)
            /\ a_gid a = (if euid h =? 0 then Tar.Gid header else egid h).
Proof.
  intros i Hr He Ht Hnone Hrun.
  destruct (extractTarEntry_regular_written i _ _ _ _ _ Hr Ht Hrun)
    as (_ & a0 & Hnode & Ha0).
  rewrite Hnone in Ha0. subst a0. eexists. split; [exact Hnode|].
  cbn [a_uid a_gid shouldChown i NewDirImage fresh_attrs]. rewrite He. split; reflexivity.
Qed.

Lemma created_file_owner_witness :
  let root_host := {| nodes := ∅; cwd := []; euid := 0; egid := 0; now := 1 |} in
  let header := {| Tar.Typeflag := Tar.TypeReg; Tar.Name := "f"; Tar.Linkname := "";
                   Tar.Mode := 420; Tar.Uid := 501; Tar.Gid := 20;
                   Tar.ModTime := 200; Tar.AccessTime := 100 |} in
  let i := NewDirImage "/dest" {| Layers := inl [] |} root_host in
  exists a, nodes (extractTarEntry i header "x" None root_host).2 !! ["dest"; "f"]
            = Some (Regular a "x")
            /\ a_uid a = 501 /\ a_gid a = 20.
Proof.
  intros root_host header i.
  exact (created_file_owner "/dest" {| Layers := inl [] |} root_host header "x" None
           root_host (extractTarEntry i header "x" None root_host).2
           eq_refl eq_refl eq_refl eq_refl ltac:(vm_compute; reflexivity)).
Defined.

End WrittenFiles.

(** ** Directories *)

Section DirectoryAttributes.

Import Os.

(** The file system [extractTarEntry] leaves, whatever it returns: the one
    [MkdirAll] has left, with at most a regular file put at the entry's
    path. *)
Lemma extractTarEntry_nodes (i : DirImage) (header : Tar.Header) (input : string)
    (ierr : option error) (h : host) :
  Filepath.rooted (dirPath i) = true ->
  let p := entry_path i (Tar.Name header) in
  let m1 := (mkdir_walk (fresh_attrs h (Tar.octal 7 7 7)) (nodes h) [] (parent p)).2 in
  exists m, (extractTarEntry i header input ierr h).2 = with_nodes h m
            /\ (m = m1 \/ exists a d, m = <[p := Regular a d]> m1).
Proof.
  intros Hr p. rewrite extractTarEntry_abs by exact Hr. fold p. cbv zeta.
  assert (Hok : Forall (fun e => elem_ok e = true) p) by apply entry_path_ok.
  rewrite MkdirAll_abs by now apply parent_ok.
  destruct (mkdir_walk _ (nodes h) [] (parent p)) as [[e|] m1] eqn:Hmk; cbn [snd];
    [exists m1; split; [reflexivity | now left]|].
  assert (Hsame : forall o : option error,
             exists m, (o, with_nodes h m1).2 = with_nodes h m
                       /\ (m = m1 \/ exists a d, m = <[p := Regular a d]> m1)).
  { intros o. exists m1. split; [reflexivity | now left]. }
  destruct (Ascii.eqb (Tar.Typeflag header) Tar.TypeDir); [apply Hsame|].
  destruct (is_regular (Tar.Typeflag header)) eqn:Ht.
  2:{ destruct (_ || _); [apply Hsame|]. destruct (_ || _); apply Hsame. }
  rewrite OpenFile_abs by exact Hok. rewrite stat_with_nodes, nodes_with_nodes.
  destruct (walk m1 [] (parent p)) as [[ad|ar dr]|e]; [|apply Hsame..].
  assert (Hrun : forall a0,
    exists m,
      (match Copy p input ierr (with_nodes (with_nodes h m1) (<[p := Regular a0 ""]> m1)) with
       | (Some err, h0) => (Some err, h0)
       | (None, h0) =>
           match (if shouldChown i
                  then Lchown (abs_path p) (Tar.Uid header) (Tar.Gid header) h0
                  else (None, h0)) with
           | (Some err, h1) => (Some err, h1)
           | (None, h1) => lchtimes header (abs_path p) h1
           end
       end).2 = with_nodes h m
      /\ (m = m1 \/ exists a d, m = <[p := Regular a d]> m1)).
  { intros a0. unfold Copy. rewrite nodes_with_nodes, !with_nodes_with_nodes.
    rewrite alter_insert_eq.
    assert (Hupd : forall op f a (o : option error),
      exists m,
        (match update_attrs op (abs_path p) f (with_nodes h (<[p := Regular a input]> m1)) with
         | (Some err, h1) => (Some err, h1)
         | (None, h1) => (o, h1)
         end).2 = with_nodes h m
        /\ exists a', m = <[p := Regular a' input]> m1).
    { intros op f a o. rewrite update_attrs_abs by exact Hok.
      destruct (stat _ p); cbn [snd]; eexists; (split; [reflexivity|]).
      - rewrite nodes_with_nodes, alter_insert_eq. cbn [set_attrs]. eauto.
      - eauto. }
    assert (Hlch : forall a,
      exists m, (lchtimes header (abs_path p)
                   (with_nodes h (<[p := Regular a input]> m1))).2 = with_nodes h m
                /\ (m = m1 \/ exists a d, m = <[p := Regular a d]> m1)).
    { intros a. rewrite lchtimes_regular by exact Ht. unfold Chtimes.
      rewrite update_attrs_abs by exact Hok.
      destruct (stat _ p); cbn [snd]; eexists; (split; [reflexivity|]); right.
      - rewrite nodes_with_nodes, alter_insert_eq. cbn [set_attrs]. eauto.
      - eauto. }
    destruct ierr as [e|]; cbn [snd].
    { eexists. split; [reflexivity|]. right. eauto. }
    destruct (shouldChown i); [|apply Hlch].
    unfold Lchown. rewrite update_attrs_abs by exact Hok.
    destruct (stat _ p); cbn [snd].
    - rewrite nodes_with_nodes, with_nodes_with_nodes, alter_insert_eq.
      cbn [set_attrs]. apply Hlch.
    - eexists. split; [reflexivity|]. right. eauto. }
  destruct (node_at m1 p) as [[a1|a1 d1]|]; [apply Hsame | apply Hrun..].
Qed.

Lemma RemoveAll_sub (s : string) (h : host) :
  (RemoveAll s h).2 = with_nodes h (nodes (RemoveAll s h).2)
  /\ forall q n, nodes (RemoveAll s h).2 !! q = Some n -> nodes h !! q = Some n.
Proof.
  unfold RemoveAll.
  assert (Hsame : forall o : option error,
             (o, h).2 = with_nodes h (nodes (o, h).2)
             /\ forall q n, nodes (o, h).2 !! q = Some n -> nodes h !! q = Some n).
  { intros o. cbn [snd]. split; [now rewrite with_nodes_id | auto]. }
  destruct (resolve h s) as [p|]; [|apply Hsame].
  destruct (endsWithDot s); [apply Hsame|].
  destruct (stat h p) as [n|e]; [|destruct e; apply Hsame].
  cbn [snd nodes with_nodes]. split; [reflexivity|].
  intros q n0. apply remove_tree_subseteq.
Qed.





End DirectoryAttributes.

(** ** What an entry touches *)

Section EntryFootprint.

Import Os.

(** X11. What [extractTarEntry] can touch, for every entry and whatever
    it returns, under an absolute destination: a node that exists elsewhere
    than at the entry's path is left as it is, and a node that did not exist
    before is either at the entry's path or a directory on the way to it,
    made with mode 0777 for the process. *)
Theorem extractTarEntry_footprint (i : DirImage) (header : Tar.Header)
    (input : string) (ierr : option error) (h : host) :
  Filepath.rooted (dirPath i) = true ->
  let p := entry_path i (Tar.Name header) in
  let h' := (extractTarEntry i header input ierr h).2 in
  (forall q n, q <> p -> nodes h !! q = Some n -> nodes h' !! q = Some n)
  /\ (forall q n, nodes h !! q = None -> nodes h' !! q = Some n ->
        q = p
        \/ (q `prefix_of` parent p
            /\ n = Directory (fresh_attrs h (Tar.octal 7 7 7)))).
Proof.
  intros Hr p h'. subst h'.
  destruct (extractTarEntry_nodes i header input ierr h Hr) as (m & E & Hm).
  fold p in Hm. rewrite E. cbn [nodes with_nodes].
  destruct (mkdir_walk (fresh_attrs h (Tar.octal 7 7 7)) (nodes h) [] (parent p))
    as [r m1] eqn:Hmk. cbn [snd] in Hm.
  assert (Hq : forall q, q <> p -> m !! q = m1 !! q).
  { intros q Hne. destruct Hm as [-> | (a & d & ->)]; [reflexivity|].
    now rewrite lookup_insert_ne. }
  split.
  - intros q n Hne Hn. rewrite (Hq q Hne). eapply mkdir_walk_keeps; eauto.
  - intros q n Hnone Hn. destruct (decide (q = p)) as [-> | Hne]; [now left|]. right.
    rewrite (Hq q Hne) in Hn.
    destruct (mkdir_walk_lookup _ _ _ _ _ _ Hmk q) as [Hsame | (_ & Hnew & _ & Hpre & _)];
      [congruence|].
    rewrite app_nil_l in Hpre. split; [exact Hpre | congruence].
Qed.

Lemma extractTarEntry_footprint_witness :
  let i := dir_image "/dest" [] in
  let before := (extractTarEntry i (mk_header Tar.TypeReg "a/keep" 420) "K" None
                   empty_host).2 in
  let after := (extractTarEntry i (mk_header Tar.TypeReg "a/b/new" 420) "N" None
                  before).2 in
  file_data "/dest/a/b/new" after = Some "N"
  /\ nodes after !! ["dest"; "a"; "keep"] = nodes before !! ["dest"; "a"; "keep"]
  /\ nodes after !! ["dest"; "a"; "b"]
     = Some (Directory (fresh_attrs before 511)).
Proof.
  intros i before after. split; [reflexivity|].
  destruct (extractTarEntry_footprint i (mk_header Tar.TypeReg "a/b/new" 420) "N" None
              before eq_refl) as [H1 H2].
  split.
  - apply (H1 ["dest"; "a"; "keep"]); [discriminate | reflexivity].
  - destruct (H2 ["dest"; "a"; "b"] (Directory (fresh_attrs before 511)) eq_refl eq_refl)
      as [H | [_ H]]; [discriminate | reflexivity].
Defined.

End EntryFootprint.

Section TypeChanges.

Import Os.

(** X12. A directory entry whose path already is a directory changes
    nothing: the directory keeps its content and its attributes, nothing is
    removed and nothing is made, and [writeLayer] goes on with the rest of
    the stream; the name of the entry is recorded unless it is [.]. *)
Theorem directory_entry_keeps_directory (i : DirImage) (fileMap : gmap string bool)
    (hdr : Tar.Header) (data : string) (data_err : option error) (rest : tarStream)
    (h : host) (a : attrs) :
  Filepath.rooted (dirPath i) = true ->
  wf_nodes (nodes h) ->
  Tar.Typeflag hdr = Tar.TypeDir ->
  not_whiteout_header i hdr = true ->
  inWhiteoutDir fileMap (hydrateFilepath i (Tar.Name hdr)) = false ->
  Lstat (hydrateFilepath i (Tar.Name hdr)) h = inl (Directory a) ->
  writeLayer i fileMap (tsNext hdr data data_err rest) h
  = writeLayer i (if String.eqb (Tar.Name hdr) "." then fileMap
                  else <[Tar.Name hdr := true]> fileMap) rest h.
Proof.
  intros Hr Hwf Ht Hw Hin HL. unfold not_whiteout_header in Hw.
  apply negb_true_iff in Hw. cbn [writeLayer]. rewrite Hw, Hin, HL. cbn [IsDir].
  destruct (String.eqb (Tar.Name hdr) "."); [reflexivity|].
  rewrite Ht, Ascii.eqb_refl. cbn [andb negb].
  rewrite (extractTarEntry_dir _ _ _ _ _ Ht), (Dir_hydrateFilepath _ _ Hr).
  set (p := entry_path i (Tar.Name hdr)) in *.
  assert (Hok : Forall (fun e => elem_ok e = true) p) by apply entry_path_ok.
  rewrite (hydrateFilepath_abs _ _ Hr), Lstat_abs in HL by exact Hok. fold p in HL.
  destruct (stat h p) as [n|e] eqn:Es; [|discriminate].
  apply walk_Found in Es. rewrite app_nil_l in Es.
  rewrite MkdirAll_abs by now apply parent_ok.
  rewrite mkdir_walk_noop; [now rewrite with_nodes_id|].
  intros q _ Hq Hne. rewrite app_nil_l in Hq.
  destruct (decide (p = [])) as [Ep | Hp].
  { rewrite Ep in Hq. apply prefix_nil_inv in Hq. contradiction. }
  destruct (wf_nodes_prefix (nodes h) p q Hwf) as [a' Ha'].
  - now rewrite Es.
  - etrans; [exact Hq|]. clear. induction p as [|b p _] using rev_ind; [reflexivity|].
    rewrite parent_snoc. now apply prefix_app_r.
  - intros ->. now apply not_prefix_parent in Hq.
  - exists a'. now rewrite (node_at_ne _ _ Hne) in Ha'.
Qed.

Lemma directory_entry_keeps_directory_witness :
  let i := dir_image "/dest" [] in
  let h := (extractTarEntry i (mk_header Tar.TypeReg "etc/conf" 420) "v2" None
              empty_host).2 in
  let hdr := mk_header Tar.TypeDir "etc" 448 in
  writeLayer i ∅ (tsNext hdr "" None tsEOF) h = (None, {[ "etc" := true ]}, h)
  /\ file_data "/dest/etc/conf" h = Some "v2".
Proof.
  intros i h hdr. split; [|reflexivity].
  exact (directory_entry_keeps_directory i ∅ hdr "" None tsEOF h
           (fresh_attrs empty_host 511) eq_refl
           (extractTarEntry_wf i (mk_header Tar.TypeReg "etc/conf" 420) "v2" None
              empty_host wf_nodes_empty)
           eq_refl eq_refl eq_refl eq_refl).
Defined.

(** X13. A regular-file entry whose path holds a directory replaces the
    whole tree: after [writeLayer] has processed the entry without an error,
    the path is a regular file with the bytes of the entry and nothing is
    left of what lay below the path. The destination is absolute, the tree
    well formed and no recorded name absolute. *)
Theorem file_entry_replaces_tree (i : DirImage) (fileMap fileMap' : gmap string bool)
    (hdr : Tar.Header) (data : string) (h h' : host) :
  Filepath.rooted (dirPath i) = true ->
  wf_nodes (nodes h) ->
  (forall k, fileMap !! k = Some true -> Filepath.rooted k = false) ->
  is_regular (Tar.Typeflag hdr) = true ->
  not_whiteout_header i hdr = true ->
  Tar.Name hdr <> "." ->
  writeLayer i fileMap (tsNext hdr data None tsEOF) h = (None, fileMap', h') ->
  file_data (hydrateFilepath i (Tar.Name hdr)) h' = Some data
  /\ forall q, entry_path i (Tar.Name hdr) `prefix_of` q ->
               q <> entry_path i (Tar.Name hdr) -> nodes h' !! q = None.
Proof.
  intros Hr Hwf Hfm Ht Hw Hname Hrun. unfold not_whiteout_header in Hw.
  apply negb_true_iff in Hw.
  destruct (writeLayer_regular_last i fileMap fileMap' hdr data h h' Hr
              (conj Hwf Hfm) Ht Hw Hname Hrun) as (Hwf' & Hfile & Hp).
  set (p := entry_path i (Tar.Name hdr)) in *. split.
  - unfold file_data. rewrite (hydrateFilepath_abs _ _ Hr), Lstat_abs by apply entry_path_ok.
    fold p. unfold stat.
    rewrite (walk_wf _ p (Regular (written_attrs i hdr h) data) Hwf');
      [reflexivity | now rewrite node_at_ne].
  - intros q Hq Hne. destruct (nodes h' !! q) as [n|] eqn:En; [|reflexivity].
    destruct (decide (q = [])) as [-> | Hq0].
    { apply prefix_nil_inv in Hq. contradiction. }
    destruct (wf_nodes_prefix (nodes h') q p Hwf') as [a Ha]; try assumption.
    + rewrite (node_at_ne _ _ Hq0), En. eauto.
    + congruence.
    + rewrite (node_at_ne _ _ Hp) in Ha. congruence.
Qed.

Lemma file_entry_replaces_tree_witness :
  let i := dir_image "/dest" [] in
  let h := (extractTarEntry i (mk_header Tar.TypeReg "etc/conf.d/a" 420) "v2" None
              empty_host).2 in
  let h' := (writeLayer i ∅ (tsNext (mk_header Tar.TypeReg "etc" 420) "v1" None tsEOF)
               h).2 in
  is_dir "/dest/etc" h = true
  /\ file_data "/dest/etc" h' = Some "v1"
  /\ nodes h' !! ["dest"; "etc"; "conf.d"; "a"] = None.
Proof.
  intros i h h'. split; [reflexivity|].
  destruct (file_entry_replaces_tree i ∅ {[ "etc" := true ]}
              (mk_header Tar.TypeReg "etc" 420) "v1" h h' eq_refl
              (extractTarEntry_wf i (mk_header Tar.TypeReg "etc/conf.d/a" 420) "v2" None
                 empty_host wf_nodes_empty)
              ltac:(intros k Hk; rewrite lookup_empty in Hk; discriminate)
              eq_refl eq_refl ltac:(discriminate) ltac:(vm_compute; reflexivity))
    as [H1 H2].
  split; [exact H1|]. apply H2; [now exists ["conf.d"; "a"] | discriminate].
Defined.

End TypeChanges.

(** ** Link targets and whiteout entries *)

Section LinkTargets.

Import Os.

Lemma extractTarEntry_linkname (i : DirImage) (header : Tar.Header) (target : string)
    (input : string) (ierr : option error) (h : host) :
  extractTarEntry i (with_linkname header target) input ierr h
  = extractTarEntry i header input ierr h.
Proof.
  unfold extractTarEntry. cbn [with_linkname Tar.Name Tar.Typeflag Tar.Uid Tar.Gid].
  change (Tar.FileInfo_Mode (with_linkname header target))
    with (Tar.FileInfo_Mode header).
  destruct (MkdirAll _ _ h) as [[e|] h1]; [reflexivity|].
  destruct (Ascii.eqb (Tar.Typeflag header) Tar.TypeDir); [reflexivity|].
  destruct (Ascii.eqb (Tar.Typeflag header) Tar.TypeReg
            || Ascii.eqb (Tar.Typeflag header) Tar.TypeRegA) eqn:Ht; [|reflexivity].
  destruct (OpenFile _ _ h1) as [[file|e] h2]; [|reflexivity].
  destruct (Copy file input ierr h2) as [[e|] h3]; [reflexivity|].
  assert (Hl : forall h0, lchtimes (with_linkname header target)
                            (hydrateFilepath i (Tar.Name header)) h0
                          = lchtimes header (hydrateFilepath i (Tar.Name header)) h0).
  { intros h0. rewrite !lchtimes_regular by exact Ht. reflexivity. }
  destruct (negb _ && _); [destruct (Lchown _ _ _ h3) as [[e|] h4]; [reflexivity|]|];
    apply Hl.
Qed.

(** X14. The link target of a header is never used. Hard links and
    symbolic links are skipped before [lchtimes] is reached, and for the
    entries that reach it the type is a regular file, so the [Lstat] of
    [header.Linkname] in [lchtimes] never runs: [writeLayer] does the same on
    a stream and on the stream with every link target replaced. *)
Theorem link_targets_are_ignored (i : DirImage) (f : Tar.Header -> string)
    (stream : tarStream) (fileMap : gmap string bool) (h : host) :
  writeLayer i fileMap (retarget f stream) h = writeLayer i fileMap stream h.
Proof.
  revert fileMap h. induction stream as [|e|hdr data data_err rest IH]; intros fileMap h;
    [reflexivity | reflexivity |].
  cbn [retarget writeLayer with_linkname Tar.Name Tar.Typeflag].
  destruct (GoStrings.HasPrefix _ whiteoutPrefix).
  - destruct (RemoveAll _ h) as [[e|] h1]; [reflexivity | apply IH].
  - destruct (inWhiteoutDir fileMap _); [apply IH|].
    assert (Hex : forall h0,
              match extractTarEntry i (with_linkname hdr (f hdr)) data data_err h0 with
              | (Some err, h1) => (Some err, <[Tar.Name hdr := true]> fileMap, h1)
              | (None, h1) =>
                  writeLayer i (<[Tar.Name hdr := true]> fileMap) (retarget f rest) h1
              end
              = match extractTarEntry i hdr data data_err h0 with
                | (Some err, h1) => (Some err, <[Tar.Name hdr := true]> fileMap, h1)
                | (None, h1) => writeLayer i (<[Tar.Name hdr := true]> fileMap) rest h1
                end).
    { intros h0. rewrite extractTarEntry_linkname.
      destruct (extractTarEntry i hdr data data_err h0) as [[e|] h1];
        [reflexivity | apply IH]. }
    destruct (Lstat _ h) as [fi|e]; [|apply Hex].
    destruct (IsDir fi && String.eqb (Tar.Name hdr) "."); [apply IH|].
    destruct (negb _); [|apply Hex].
    destruct (RemoveAll _ h) as [[e|] h1]; [reflexivity | apply Hex].
Qed.

End LinkTargets.

Section WhiteoutEntries.

Import Os.

Lemma RemoveAll_gone (s : string) (h : host) :
  Filepath.rooted s = true ->
  (RemoveAll s h).1 = None ->
  exists_at s (RemoveAll s h).2 = false.
Proof.
  intros Hs. unfold RemoveAll, exists_at, Lstat. rewrite !(resolve_rooted _ _ Hs).
  set (p := Filepath.clean_elems true (GoStrings.Split s Filepath.Separator)).
  destruct (endsWithDot s); [discriminate|].
  destruct (stat h p) as [n|e] eqn:Es.
  - cbn [fst snd]. destruct (blocked (nodes h) p) eqn:Hb; [discriminate|]. intros _.
    rewrite stat_with_nodes. destruct (walk _ [] p) as [n'|e] eqn:Ew; [|reflexivity].
    apply walk_Found in Ew. rewrite app_nil_l in Ew.
    assert (Hp : p <> []) by (intros E; now rewrite E in Hb).
    rewrite (node_at_ne _ _ Hp), lookup_remove_tree_ok in Ew by exact Hb.
    assert (is_prefix p p = true) as E by now apply is_prefix_true.
    rewrite E in Ew. discriminate.
  - destruct e; try discriminate. cbn [snd]. now rewrite Es.
Qed.

(** X15. A whiteout entry, whatever its type, its bytes and the state of
    the file system: [writeLayer] returns no error for it, and it creates
    nothing (every node there is afterwards was there before, unchanged);
    when the removal succeeds, nothing exists afterwards at the path the
    whiteout names, the entry's path with [.wh.] taken off its last name, and
    the last name, with its prefix, is recorded in the map of seen names. *)
Theorem whiteout_entry_only_removes (i : DirImage) (fileMap : gmap string bool)
    (hdr : Tar.Header) (data : string) (data_err : option error) (h : host) :
  Filepath.rooted (dirPath i) = true ->
  not_whiteout_header i hdr = false ->
  let path := hydrateFilepath i (Tar.Name hdr) in
  let base := Filepath.Base path in
  let target := Filepath.Join [Filepath.Dir path; GoStrings.TrimPrefix base whiteoutPrefix] in
  let run := writeLayer i fileMap (tsNext hdr data data_err tsEOF) h in
  run.1.1 = None
  /\ (forall q n, nodes run.2 !! q = Some n -> nodes h !! q = Some n)
  /\ ((RemoveAll target h).1 = None ->
      exists_at target run.2 = false /\ run.1.2 = <[base := true]> fileMap).
Proof.
  intros Hr Hw path base target run. unfold not_whiteout_header in Hw.
  apply negb_false_iff in Hw. subst run. cbn [writeLayer]. rewrite Hw.
  fold path. fold base. fold target.
  assert (Ht : Filepath.rooted target = true).
  { unfold target, path. rewrite (Dir_hydrateFilepath _ _ Hr).
    rewrite Join_abs_path by apply parent_ok, entry_path_ok. reflexivity. }
  pose proof (RemoveAll_gone target h Ht) as Hgone.
  destruct (RemoveAll_sub target h) as [_ Hsub].
  destruct (RemoveAll target h) as [[e|] h1]; cbn [fst snd] in *.
  - split; [reflexivity|]. split; [exact Hsub | discriminate].
  - split; [reflexivity|]. split; [exact Hsub|]. intros _. split; [now apply Hgone | reflexivity].
Qed.

Lemma whiteout_entry_only_removes_witness :
  let i := dir_image "/dest" [] in
  let h := (extractTarEntry i (mk_header Tar.TypeReg "d/sub/f" 420) "X" None
              empty_host).2 in
  let run := writeLayer i ∅ (tsNext (mk_header Tar.TypeDir ".wh.d" 493) "" None tsEOF) h in
  file_data "/dest/d/sub/f" h = Some "X"
  /\ run.1.1 = None
  /\ exists_at "/dest/d" run.2 = false
  /\ run.1.2 = {[ ".wh.d" := true ]}.
Proof.
  intros i h run. split; [reflexivity|].
  destruct (whiteout_entry_only_removes i ∅ (mk_header Tar.TypeDir ".wh.d" 493) "" None h
              eq_refl eq_refl) as (H1 & _ & H3).
  split; [exact H1|]. exact (H3 eq_refl).
Defined.

End WhiteoutEntries.

(** ** Runs: messages and destinations *)

Section RunMessages.

Lemma extractLayers_log (i : DirImage) (total : nat) (ls : list Layer) :
  forall fileMap pos h log0 h' log,
    extractLayers i fileMap total pos ls h log0 = (None, h', log) ->
    exists digests,
      map Digest ls = map inl digests
      /\ log = (log0 ++ imap (fun k d => (d, (pos + k)%nat, total)) digests)%list.
Proof.
  induction ls as [|l ls IH]; intros fileMap pos h log0 h' log Hrun.
  - inversion Hrun; subst. exists []. now rewrite app_nil_r.
  - cbn [extractLayers] in Hrun.
    destruct (Digest l) as [d|e] eqn:Ed; [|discriminate].
    destruct (Uncompressed l) as [s|e]; [|discriminate].
    destruct (writeLayer i fileMap s h) as [[[e|] fm1] h1]; [discriminate|].
    apply IH in Hrun as (ds & Hds & ->). exists (d :: ds). split.
    + cbn [map]. now rewrite Ed, Hds.
    + rewrite <- app_assoc. cbn [imap app]. rewrite Nat.add_0_r. do 2 f_equal.
      apply imap_ext. intros k x _. cbn. do 2 f_equal. lia.
Qed.

(** X16. The progress messages of a run that returns no error: one
    message per layer, in the order the layers are processed, the newest
    first; the message for the [k]-th processed layer carries that layer's
    digest, the number [k], counted from 1, and the number of layers. *)
Theorem progress_messages (i : DirImage) (h h' : host) (layers : list Layer)
    (log : list logged) :
  Layers (img i) = inl layers ->
  AsDirectory i h = (None, h', log) ->
  exists digests,
    map Digest (rev layers) = map inl digests
    /\ log = imap (fun k d => (d, Datatypes.S k, length layers)) digests.
Proof.
  intros HL Hrun. unfold AsDirectory in Hrun.
  destruct (Os.RemoveAll (dirPath i) h) as [[e|] hA]; [discriminate|].
  destruct (Os.MkdirAll (dirPath i) (Tar.octal 7 7 7) hA) as [[e|] hS]; [discriminate|].
  rewrite HL in Hrun. apply extractLayers_log in Hrun as (ds & Hds & ->).
  exists ds. split; [exact Hds | reflexivity].
Qed.

Lemma progress_messages_witness :
  let layers := [layer_of "sha256:1" []; layer_of "sha256:2" []; layer_of "sha256:3" []] in
  let run := AsDirectory (dir_image "/dest" layers) empty_host in
  run.2 = [("sha256:3", 1%nat, 3%nat); ("sha256:2", 2%nat, 3%nat);
           ("sha256:1", 3%nat, 3%nat)]
  /\ exists digests,
       map Digest (rev layers) = map inl digests
       /\ run.2 = imap (fun k d => (d, Datatypes.S k, length layers)) digests.
Proof.
  intros layers run. split; [reflexivity|].
  exact (progress_messages (dir_image "/dest" layers) empty_host run.1.2 layers run.2
           eq_refl ltac:(vm_compute; reflexivity)).
Defined.

End RunMessages.

Section Destinations.

Import Os.

(** X17. Destinations the run refuses before it touches anything, on every
    host and for every image. An empty destination string passes the wipe
    ([os.RemoveAll] of the empty string does nothing) and fails at
    [os.MkdirAll]; a destination that is [.] or ends in [/.] fails at the
    wipe, since [os.RemoveAll] rejects such a path. The error is wrapped with
    the step that failed, no layer is read, no message is logged. *)
Theorem degenerate_destination_refused (i : DirImage) (h : host) :
  (dirPath i = "" ->
   AsDirectory i h
   = (Some (Errorf "Creating output directory: mkdir : no such file or directory"),
      h, []))
  /\ (endsWithDot (dirPath i) = true ->
      AsDirectory i h
      = (Some (Errorf ("Removing output directory: RemoveAll " +:+ dirPath i
                       +:+ ": invalid argument")), h, [])).
Proof.
  split; intros H; unfold AsDirectory.
  - rewrite H. reflexivity.
  - unfold RemoveAll, resolve. destruct (dirPath i) as [|a s] eqn:E; [discriminate|].
    rewrite H. reflexivity.
Qed.

Lemma degenerate_destination_refused_witness :
  let layer := layer_of "sha256:1" [(mk_header Tar.TypeReg "f" 420, "X")] in
  AsDirectory (dir_image "" [layer]) empty_host
  = (Some (Errorf "Creating output directory: mkdir : no such file or directory"),
     empty_host, [])
  /\ AsDirectory (dir_image "." [layer]) empty_host
     = (Some (Errorf "Removing output directory: RemoveAll .: invalid argument"),
        empty_host, [])
  /\ AsDirectory (dir_image "/srv/out/." [layer]) empty_host
     = (Some (Errorf "Removing output directory: RemoveAll /srv/out/.: invalid argument"),
        empty_host, []).
Proof.
  intros layer. split; [|split].
  - exact (proj1 (degenerate_destination_refused (dir_image "" [layer]) empty_host)
             eq_refl).
  - exact (proj2 (degenerate_destination_refused (dir_image "." [layer]) empty_host)
             eq_refl).
  - exact (proj2 (degenerate_destination_refused (dir_image "/srv/out/." [layer])
                    empty_host) eq_refl).
Defined.






End Destinations.

(** ** Runs: the file system outside the destination *)

Section Outside.

Import Os.

Lemma RemoveAll_outside (s : string) (h : host) (q : path) :
  Filepath.rooted s = true ->
  ~ Filepath.clean_elems true (GoStrings.Split s Filepath.Separator) `prefix_of` q ->
  nodes (RemoveAll s h).2 !! q = nodes h !! q.
Proof.
  intros Hs Hq. unfold RemoveAll. rewrite (resolve_rooted _ _ Hs).
  destruct (endsWithDot s); [reflexivity|].
  destruct (stat h _) as [n|e]; [|destruct e; reflexivity].
  cbn [snd nodes with_nodes]. rewrite lookup_remove_tree.
  apply is_prefix_false in Hq. now rewrite Hq.
Qed.




End Outside.

(** ** Entries that stay to the end of a run *)

Section Survival.

Import Os.

Variable i : DirImage.
Hypothesis Hrooted : Filepath.rooted (dirPath i) = true.

Lemma leaves_alone_whiteout (p : path) (hdr : Tar.Header) :
  let path := hydrateFilepath i (Tar.Name hdr) in
  let base := Filepath.Base path in
  leaves_alone i p hdr = true ->
  GoStrings.HasPrefix base whiteoutPrefix = true ->
  ~ Filepath.clean_elems true
      (GoStrings.Split (Filepath.Join [Filepath.Dir path;
                                       GoStrings.TrimPrefix base whiteoutPrefix])
         Filepath.Separator) `prefix_of` p.
Proof.
  intros path base H Hw. unfold leaves_alone, acts_on in H. fold path base in H.
  rewrite Hw in H. apply negb_true_iff in H. now apply is_prefix_false in H.
Qed.

Lemma leaves_alone_entry (p : path) (hdr : Tar.Header) :
  leaves_alone i p hdr = true ->
  GoStrings.HasPrefix (Filepath.Base (hydrateFilepath i (Tar.Name hdr)))
    whiteoutPrefix = false ->
  ~ entry_path i (Tar.Name hdr) `prefix_of` p.
Proof.
  intros H Hw. unfold leaves_alone, acts_on in H. rewrite Hw in H.
  apply negb_true_iff in H. apply is_prefix_false in H.
  rewrite (hydrateFilepath_abs _ _ Hrooted) in H.
  now rewrite clean_elems_abs_path in H by apply entry_path_ok.
Qed.

Lemma whiteout_target_rooted (hdr : Tar.Header) :
  let path := hydrateFilepath i (Tar.Name hdr) in
  Filepath.rooted (Filepath.Join [Filepath.Dir path;
                                  GoStrings.TrimPrefix (Filepath.Base path) whiteoutPrefix])
  = true.
Proof.
  intros path. unfold path. rewrite (Dir_hydrateFilepath _ _ Hrooted).
  rewrite Join_abs_path by apply parent_ok, entry_path_ok. reflexivity.
Qed.

(** The three steps of [writeLayer] keep a node they do not act on. *)
Lemma kept_by_whiteout (q : path) (n : node) (hdr : Tar.Header) (h : host) :
  let path := hydrateFilepath i (Tar.Name hdr) in
  let base := Filepath.Base path in
  leaves_alone i q hdr = true ->
  GoStrings.HasPrefix base whiteoutPrefix = true ->
  nodes h !! q = Some n ->
  nodes (RemoveAll (Filepath.Join [Filepath.Dir path;
                                   GoStrings.TrimPrefix base whiteoutPrefix]) h).2 !! q
  = Some n.
Proof.
  intros path base HP Hw Hq. rewrite RemoveAll_outside; [exact Hq | |].
  - apply whiteout_target_rooted.
  - now apply leaves_alone_whiteout.
Qed.

Lemma kept_by_replace (q : path) (n : node) (hdr : Tar.Header) (h : host) :
  leaves_alone i q hdr = true ->
  GoStrings.HasPrefix (Filepath.Base (hydrateFilepath i (Tar.Name hdr)))
    whiteoutPrefix = false ->
  nodes h !! q = Some n ->
  nodes (RemoveAll (hydrateFilepath i (Tar.Name hdr)) h).2 !! q = Some n.
Proof.
  intros HP Hw Hq. pose proof (leaves_alone_entry q hdr HP Hw) as Hne.
  rewrite RemoveAll_outside; [exact Hq | |].
  - rewrite (hydrateFilepath_abs _ _ Hrooted). apply rooted_abs_path.
  - rewrite (hydrateFilepath_abs _ _ Hrooted).
    now rewrite clean_elems_abs_path by apply entry_path_ok.
Qed.

Lemma kept_by_extract (q : path) (n : node) (hdr : Tar.Header) (data : string)
    (data_err : option error) (h : host) :
  leaves_alone i q hdr = true ->
  GoStrings.HasPrefix (Filepath.Base (hydrateFilepath i (Tar.Name hdr)))
    whiteoutPrefix = false ->
  nodes h !! q = Some n ->
  nodes (extractTarEntry i hdr data data_err h).2 !! q = Some n.
Proof.
  intros HP Hw Hq. pose proof (leaves_alone_entry q hdr HP Hw) as Hne.
  destruct (extractTarEntry_nodes i hdr data data_err h Hrooted) as (m & E & Hm).
  rewrite E. cbn [nodes with_nodes].
  set (p := entry_path i (Tar.Name hdr)) in *.
  destruct (mkdir_walk (fresh_attrs h (Tar.octal 7 7 7)) (nodes h) [] (parent p))
    as [r m1] eqn:Hmk. cbn [snd] in Hm.
  assert (Hm1 : m1 !! q = Some n) by (eapply mkdir_walk_keeps; eauto).
  destruct Hm as [-> | (a & d & ->)]; [exact Hm1|].
  rewrite lookup_insert_ne; [exact Hm1|]. intros ->. now apply Hne.
Qed.

Lemma writeLayer_keeps (q : path) (n : node) (stream : tarStream)
    (fileMap : gmap string bool) (h : host) :
  stream_all (leaves_alone i q) stream = true ->
  nodes h !! q = Some n ->
  nodes (writeLayer i fileMap stream h).2 !! q = Some n.
Proof.
  apply (writeLayer_invariant i (leaves_alone i q) (fun _ h0 => nodes h0 !! q = Some n)).
  - intros fm h0 hdr HP HI path base Hw r. split; now apply kept_by_whiteout.
  - intros fm h0 hdr HP HI path Hw. now apply kept_by_replace.
  - intros fm h0 hdr data derr HP HI Hw. now apply kept_by_extract.
Qed.

Lemma extractLayers_keeps (q : path) (n : node) (layers : list Layer)
    (fileMap : gmap string bool) (total pos : nat) (h : host) (log : list logged) :
  forallb (layer_all (leaves_alone i q)) layers = true ->
  nodes h !! q = Some n ->
  nodes (extractLayers i fileMap total pos layers h log).1.2 !! q = Some n.
Proof.
  intros Hall Hq.
  destruct (extractLayers_invariant i (leaves_alone i q)
              (fun _ h0 => nodes h0 !! q = Some n)) with
    (layers := layers) (fileMap := fileMap) (total := total) (pos := pos) (h := h)
    (log := log) as [_ H]; try assumption.
  - intros fm h0 hdr HP HI path base Hw r. split; now apply kept_by_whiteout.
  - intros fm h0 hdr HP HI path Hw. now apply kept_by_replace.
  - intros fm h0 hdr data derr HP HI Hw. now apply kept_by_extract.
Qed.

(** An entry that is no whiteout, and then the rest of the stream. *)
Lemma writeLayer_first (fileMap fileMap' : gmap string bool) (hdr : Tar.Header)
    (data : string) (data_err : option error) (rest : tarStream) (h h' : host) :
  GoStrings.HasPrefix (Filepath.Base (hydrateFilepath i (Tar.Name hdr)))
    whiteoutPrefix = false ->
  writeLayer i fileMap (tsNext hdr data data_err rest) h = (None, fileMap', h') ->
  exists fileMap1 h1,
    writeLayer i fileMap (tsNext hdr data data_err tsEOF) h = (None, fileMap1, h1)
    /\ writeLayer i fileMap1 rest h1 = (None, fileMap', h').
Proof.
  intros Hw. cbn [writeLayer]. rewrite Hw.
  destruct (inWhiteoutDir fileMap _); [intros H; now exists fileMap, h|].
  assert (Hex : forall h0,
            match extractTarEntry i hdr data data_err h0 with
            | (Some err, h1) => (Some err, <[Tar.Name hdr := true]> fileMap, h1)
            | (None, h1) => writeLayer i (<[Tar.Name hdr := true]> fileMap) rest h1
            end = (None, fileMap', h') ->
            exists fileMap1 h1,
              match extractTarEntry i hdr data data_err h0 with
              | (Some err, h1) => (Some err, <[Tar.Name hdr := true]> fileMap, h1)
              | (None, h1) => (None, <[Tar.Name hdr := true]> fileMap, h1)
              end = (None, fileMap1, h1)
              /\ writeLayer i fileMap1 rest h1 = (None, fileMap', h')).
  { intros h0 H. destruct (extractTarEntry i hdr data data_err h0) as [[e|] h1];
      [discriminate|]. now exists (<[Tar.Name hdr := true]> fileMap), h1. }
  destruct (Lstat _ h) as [fi|e]; [|apply Hex].
  destruct (IsDir fi && String.eqb (Tar.Name hdr) "."); [intros H; now exists fileMap, h|].
  destruct (negb _); [|apply Hex].
  destruct (RemoveAll _ h) as [[e|] h1]; [discriminate | apply Hex].
Qed.

End Survival.

Section SurvivalTheorem.

Import Os.

(** X21. Every regular file of the image that nothing processed later
    acts on is in the final tree. The destination is absolute, the file
    system well formed, no entry name begins with a separator. A regular
    entry of some layer, not named as a whiteout nor [.], is preceded in its
    layer by no whiteout, and no entry processed after it (the rest of its
    layer, then the older layers) acts on its path or on a directory above
    it, as a whiteout or as an entry. Then after a run without an error the
    path holds the bytes of the entry with the mode computed from it,
    whatever the newer layers and the entries before it wrote there. *)
Theorem regular_entry_survives (i : DirImage) (h h' : host) (log : list logged)
    (older newer : list Layer) (digest : string) (pre post : tarStream)
    (hdr : Tar.Header) (data : string) :
  Filepath.rooted (dirPath i) = true ->
  wf_nodes (nodes h) ->
  Layers (img i)
  = inl (older
         ++ {| Digest := inl digest;
               Uncompressed := inl (stream_then pre (tsNext hdr data None post)) |}
         :: newer) ->
  image_all relative_header i = true ->
  stream_all (not_whiteout_header i) pre = true ->
  is_regular (Tar.Typeflag hdr) = true ->
  not_whiteout_header i hdr = true ->
  Tar.Name hdr <> "." ->
  stream_all (leaves_alone i (entry_path i (Tar.Name hdr))) post = true ->
  forallb (layer_all (leaves_alone i (entry_path i (Tar.Name hdr)))) older = true ->
  AsDirectory i h = (None, h', log) ->
  exists a, Lstat (hydrateFilepath i (Tar.Name hdr)) h' = inl (Regular a data)
            /\ a_perm a = permMode (Tar.FileInfo_Mode hdr).
Proof.
  intros Hr Hwf Hlayers Hall Hpre Ht Hw Hname Hpost Holder Hrun.
  pose proof (AsDirectory_wf i h Hwf) as Hwf'. rewrite Hrun in Hwf'. cbn [fst snd] in Hwf'.
  unfold not_whiteout_header in Hw. apply negb_true_iff in Hw.
  unfold image_all in Hall. rewrite Hlayers in Hall.
  rewrite forallb_app in Hall. apply andb_true_iff in Hall as [_ Hall].
  cbn [forallb] in Hall. apply andb_true_iff in Hall as [Hthis Hnewer].
  unfold layer_all in Hthis. cbn [Uncompressed] in Hthis.
  unfold AsDirectory in Hrun.
  pose proof (RemoveAll_wf (dirPath i) h Hwf) as HwfA.
  destruct (RemoveAll (dirPath i) h) as [[e|] hA]; [discriminate|].
  pose proof (MkdirAll_wf (dirPath i) (Tar.octal 7 7 7) hA HwfA) as HwfS.
  destruct (MkdirAll (dirPath i) (Tar.octal 7 7 7) hA) as [[e|] hS]; [discriminate|].
  rewrite Hlayers in Hrun. rewrite rev_app_distr in Hrun. cbn [rev] in Hrun.
  rewrite <- app_assoc in Hrun. cbn [app] in Hrun.
  apply (extractLayers_app_relative i (rev newer)) in Hrun;
    [|now rewrite forallb_rev | split; [exact HwfS | intros k; now rewrite lookup_empty]].
  destruct Hrun as (fm1 & pos1 & h1 & log1 & HI & Hrun).
  cbn [extractLayers Digest Uncompressed] in Hrun.
  destruct (writeLayer i fm1 (stream_then pre (tsNext hdr data None post)) h1)
    as [[[e|] fm2] h2] eqn:Ew; [discriminate|].
  destruct (writeLayer_then_relative _ _ _ _ _ _ _ Hthis Hpre HI Ew)
    as (fm3 & h3 & HI3 & _ & Ew3).
  destruct (writeLayer_first i _ _ _ _ _ _ _ _ Hw Ew3) as (fm4 & h4 & Ew4 & Ew5).
  destruct (writeLayer_regular_last _ _ _ _ _ _ _ Hr HI3 Ht Hw Hname Ew4)
    as (_ & Hfile & Hp).
  set (p := entry_path i (Tar.Name hdr)) in *.
  pose proof (writeLayer_keeps i Hr p _ post fm4 h4 Hpost Hfile) as H2.
  rewrite Ew5 in H2. cbn [snd] in H2.
  assert (Holder' : forallb (layer_all (leaves_alone i p)) (rev older) = true)
    by now rewrite forallb_rev.
  lazymatch type of Hrun with
  | extractLayers _ ?fm ?t ?ps ?ls ?hh ?lg = _ =>
      pose proof (extractLayers_keeps i Hr p (Regular (written_attrs i hdr h3) data)
                    ls fm t ps hh lg Holder' H2) as H3
  end.
  rewrite Hrun in H3. cbn [fst snd] in H3.
  exists (written_attrs i hdr h3). split; [|reflexivity].
  rewrite (hydrateFilepath_abs _ _ Hr), Lstat_abs by apply entry_path_ok. fold p.
  unfold stat.
  rewrite (walk_wf _ p (Regular (written_attrs i hdr h3) data) Hwf'); [reflexivity|].
  now rewrite node_at_ne.
Qed.

Lemma regular_entry_survives_witness :
  let oldest := layer_of "sha256:1" [(mk_header Tar.TypeReg "var/log" 420, "L")] in
  let middle := layer_of "sha256:2" [(mk_header Tar.TypeDir "etc" 493, "");
                                     (mk_header Tar.TypeReg "etc/conf" 420, "v1");
                                     (mk_header Tar.TypeReg "etc/other" 420, "O")] in
  let newest := layer_of "sha256:3" [(mk_header Tar.TypeReg "etc/conf" 384, "v2")] in
  let run := AsDirectory (dir_image "/dest" [oldest; middle; newest]) empty_host in
  exists a, Lstat "/dest/etc/conf" run.1.2 = inl (Regular a "v1") /\ a_perm a = 420.
Proof.
  intros oldest middle newest run.
  exact (regular_entry_survives (dir_image "/dest" [oldest; middle; newest]) empty_host
           run.1.2 run.2 [oldest] [newest] "sha256:2"
           (stream_of [(mk_header Tar.TypeDir "etc" 493, "")])
           (stream_of [(mk_header Tar.TypeReg "etc/other" 420, "O")])
           (mk_header Tar.TypeReg "etc/conf" 420) "v1"
           eq_refl wf_nodes_empty eq_refl eq_refl eq_refl eq_refl eq_refl
           ltac:(discriminate) eq_refl eq_refl ltac:(vm_compute; reflexivity)).
Defined.

End SurvivalTheorem.

(** ** Whiteouts of older layers *)

Section LayersInvariant.

Variable i : DirImage.
Variable P : Tar.Header -> bool.
Variable Inv : gmap string bool -> host -> Prop.

Hypothesis Inv_whiteout :
  forall fileMap h hdr,
    P hdr = true -> Inv fileMap h ->
    let path := hydrateFilepath i (Tar.Name hdr) in
    let base := Filepath.Base path in
    GoStrings.HasPrefix base whiteoutPrefix = true ->
    let r := Os.RemoveAll
               (Filepath.Join [Filepath.Dir path;
                               GoStrings.TrimPrefix base whiteoutPrefix]) h in
    Inv fileMap r.2 /\ Inv (<[base := true]> fileMap) r.2.

Hypothesis Inv_replace :
  forall fileMap h hdr,
    P hdr = true -> Inv fileMap h ->
    let path := hydrateFilepath i (Tar.Name hdr) in
    GoStrings.HasPrefix (Filepath.Base path) whiteoutPrefix = false ->
    Inv fileMap (Os.RemoveAll path h).2.

Hypothesis Inv_extract :
  forall fileMap h hdr data data_err,
    P hdr = true -> Inv fileMap h ->
    GoStrings.HasPrefix (Filepath.Base (hydrateFilepath i (Tar.Name hdr)))
      whiteoutPrefix = false ->
    Inv (<[Tar.Name hdr := true]> fileMap) (extractTarEntry i hdr data data_err h).2.


End LayersInvariant.

Section OlderWhiteouts.

Import Os.




End OlderWhiteouts.

(** ** The flags of the user interface *)

Section UserInterface.

Import Cmd.

Variable KeyifyHeader : string -> string.

Lemma headers_loop (cols : list string) (acc : list Header) :
  fold_left (fun headers col =>
               (headers ++ [{| Key := KeyifyHeader col; Hidden := false |}])%list)
    cols acc
  = (acc ++ map (fun col => {| Key := KeyifyHeader col; Hidden := false |}) cols)%list.
Proof.
  revert acc. induction cols as [|c cols IH]; intros acc; simpl.
  - now rewrite app_nil_r.
  - rewrite IH, <- app_assoc. reflexivity.
Qed.

(** X23. The columns [ConfigureUI] asks the user interface to show. The
    first call is always [EnableTTY] with the flag's value. When no column is
    requested [ShowColumns] is not called at all; otherwise it is called
    once, as the last call, with one header per requested column, in the
    order of the flag, each with the key [KeyifyHeader] gives for the column
    and none hidden. *)
Theorem ConfigureUI_columns (f : UIFlags) :
  hd_error (ConfigureUI KeyifyHeader f) = Some (EnableTTY (TTY f))
  /\ (Columns f = [] ->
      forall headers, ~ In (ShowColumns headers) (ConfigureUI KeyifyHeader f))
  /\ (Columns f <> [] ->
      exists calls,
        ConfigureUI KeyifyHeader f
        = (calls ++ [ShowColumns
                       (map (fun col => {| Key := KeyifyHeader col; Hidden := false |})
                          (Columns f))])%list
        /\ forall headers, ~ In (ShowColumns headers) calls).
Proof.
  split; [reflexivity|]. unfold ConfigureUI. split.
  - intros -> headers. cbn [length Nat.ltb Nat.leb].
    destruct (Color f), (JSON f), (NonInteractive f); cbn;
      intuition discriminate.
  - intros Hne. destruct (Columns f) as [|c cols] eqn:E; [contradiction|].
    cbn [length Nat.ltb Nat.leb]. cbv zeta. rewrite headers_loop, app_nil_l.
    exists ([EnableTTY (TTY f)]
            ++ (if Color f then [EnableColor] else [])
            ++ (if JSON f then [EnableJSON] else [])
            ++ (if NonInteractive f then [EnableNonInteractive] else []))%list.
    split; [now rewrite <- !app_assoc|].
    intros headers. destruct (Color f), (JSON f), (NonInteractive f); cbn;
      intuition discriminate.
Qed.

End UserInterface.
